(** * Expiry-date analyzer: session relay, extraction client, date normalizer

    A shallow embedding of the two route handlers
    ([api/session/[sessionId]/route.ts] and the analyze route that follows
    it in the same source file) and of the page component ([computeStatus]
    and the state handling of [HomeContent]: selection, filtering, counts,
    export, removal, analysis of a batch and the polling of the relay),
    together with the properties the specification states about them and
    further properties of the handlers taken one by one and together.

    JavaScript strings are sequences of UTF-16 code units; they are modelled
    as [list N], one element per code unit.  Regular expressions of the
    source are kept as syntax and run by a small backtracking matcher that
    follows the ECMAScript semantics for the constructs the source uses. *)

From Stdlib Require Import ZArith NArith List Bool Ascii String Lia.
From stdpp Require Import base gmap list pretty.

Set Warnings "-register-all".
Local Open Scope N_scope.

(** ** Strings *)

Definition jsstring := list N.

Fixpoint str (s : string) : jsstring :=
  match s with
  | EmptyString => []
  | String a s' => N_of_ascii a :: str s'
  end.

(** [WhiteSpace] and [LineTerminator] code points: what [String.prototype.trim]
    strips and what the regular-expression class [\s] matches. *)
Definition isWhiteSpace (c : N) : bool :=
  (c =? 9) || (c =? 10) || (c =? 11) || (c =? 12) || (c =? 13) || (c =? 32)
  || (c =? 160) || (c =? 5760) || ((8192 <=? c) && (c <=? 8202))
  || (c =? 8232) || (c =? 8233) || (c =? 8239) || (c =? 8287)
  || (c =? 12288) || (c =? 65279).

(** [LineTerminator]: the code units the regular-expression dot refuses. *)
Definition isLineTerminator (c : N) : bool :=
  (c =? 10) || (c =? 13) || (c =? 8232) || (c =? 8233).

(** [\d] *)
Definition isDigit (c : N) : bool := (48 <=? c) && (c <=? 57).

Fixpoint trimStart (s : jsstring) : jsstring :=
  match s with
  | c :: s' => if isWhiteSpace c then trimStart s' else s
  | [] => []
  end.

Definition trimEnd (s : jsstring) : jsstring := rev (trimStart (rev s)).

Definition trim (s : jsstring) : jsstring := trimEnd (trimStart s).

(** [s.slice(0, n)] for a non-negative [n]. *)
Definition slice0 (n : nat) (s : jsstring) : jsstring := firstn n s.

(** ** Regular expressions *)

Module Regex.

Inductive regex : Type :=
| Class (p : N -> bool)          (* a character class, one code unit *)
| Eps
| Seq (a b : regex)
| Alt (a b : regex)
| Star (a : regex)               (* greedy [a*] *)
| Group (g : nat) (a : regex)    (* the [g]-th capturing parenthesis *)
| Bol                            (* [^], no multiline flag *)
| Eol.                           (* [$], no multiline flag *)

Fixpoint Lit (s : jsstring) : regex :=
  match s with
  | [] => Eps
  | c :: s' => Seq (Class (N.eqb c)) (Lit s')
  end.

Fixpoint Times (n : nat) (a : regex) : regex :=
  match n with
  | O => Eps
  | S n' => Seq a (Times n' a)
  end.

Definition Plus (a : regex) : regex := Seq a (Star a).

Definition caps := list (nat * jsstring).

(** What a successful match reports: the matched text and the captures. *)
Definition result := (jsstring * caps)%type.

(** A continuation receives the text its sub-expression consumed, the
    position reached, the remaining input and the captures so far. *)
Definition cont := jsstring -> nat -> jsstring -> caps -> option result.

(** The loop of a greedy star over a matcher [ma] of its body: one more
    iteration is preferred, an iteration that consumed nothing is refused,
    and [k] is tried when no further iteration leads to a match. [n] bounds
    the iterations; every iteration consumes input, so [length rest] is
    enough. *)
Fixpoint star_loop (ma : nat -> jsstring -> caps -> cont -> option result)
  (k : cont) (n : nat) (acc : jsstring) (i : nat) (rest : jsstring) (c : caps)
  : option result :=
  match n with
  | O => k acc i rest c
  | S n' =>
      match ma i rest c (fun m i1 rest1 c1 =>
              match m with
              | [] => None
              | _ => star_loop ma k n' (acc ++ m) i1 rest1 c1
              end) with
      | Some res => Some res
      | None => k acc i rest c
      end
  end.

(** Backtracking matcher.  [i] is the index of the next code unit, [rest]
    the input from there on.  Alternatives are tried left to right. *)
Fixpoint rmatch (r : regex) (i : nat) (rest : jsstring) (c : caps) (k : cont)
  : option result :=
  match r with
  | Class p =>
      match rest with
      | x :: rest' => if p x then k [x] (S i) rest' c else None
      | [] => None
      end
  | Eps => k [] i rest c
  | Seq a b =>
      rmatch a i rest c (fun m1 i1 rest1 c1 =>
        rmatch b i1 rest1 c1 (fun m2 i2 rest2 c2 => k (m1 ++ m2) i2 rest2 c2))
  | Alt a b =>
      match rmatch a i rest c k with
      | Some res => Some res
      | None => rmatch b i rest c k
      end
  | Star a => star_loop (rmatch a) k (length rest) [] i rest c
  | Group g a =>
      rmatch a i rest c (fun m i1 rest1 c1 => k m i1 rest1 ((g, m) :: c1))
  | Bol => if Nat.eqb i 0 then k [] i rest c else None
  | Eol => match rest with [] => k [] i rest c | _ => None end
  end.

Definition accept : cont := fun m _ _ c => Some (m, c).

(** An unanchored search tries every start index from left to right. *)
Fixpoint search (r : regex) (i : nat) (rest : jsstring) : option result :=
  match rmatch r i rest [] accept with
  | Some res => Some res
  | None =>
      match rest with
      | [] => None
      | _ :: rest' => search r (S i) rest'
      end
  end.

(** [s.match(r)] for a regular expression without the global flag. *)
Definition exec (r : regex) (s : jsstring) : option result := search r 0%nat s.

(** [r.test(s)] *)
Definition test (r : regex) (s : jsstring) : bool :=
  match exec r s with Some _ => true | None => false end.

(** [m[g]] of a match result; a group always takes part in the expressions
    of this program. *)
Fixpoint cap (g : nat) (c : caps) : jsstring :=
  match c with
  | [] => []
  | (g', m) :: c' => if Nat.eqb g g' then m else cap g c'
  end.

End Regex.
Import Regex.

(** ** Date normalizer: [coerceIsoDate] *)

Definition digit : regex := Class isDigit.
(** [[\/\-.]] *)
Definition isDateSep (c : N) : bool := (c =? 47) || (c =? 45) || (c =? 46).
(** [[\/\-]] *)
Definition isMonthSep (c : N) : bool := (c =? 47) || (c =? 45).

(** [/^\d{4}-\d{2}-\d{2}$/] *)
Definition re_iso : regex :=
  Seq Bol (Seq (Times 4 digit) (Seq (Lit (str "-")) (Seq (Times 2 digit)
    (Seq (Lit (str "-")) (Seq (Times 2 digit) Eol))))).

(** [/(\d{2})[\/\-.](\d{2})[\/\-.](\d{4})/] *)
Definition re_dmy : regex :=
  Seq (Group 1 (Times 2 digit)) (Seq (Class isDateSep)
    (Seq (Group 2 (Times 2 digit)) (Seq (Class isDateSep)
      (Group 3 (Times 4 digit))))).

(** [/(\d{4})[\/\-.](\d{2})[\/\-.](\d{2})/] *)
Definition re_ymd : regex :=
  Seq (Group 1 (Times 4 digit)) (Seq (Class isDateSep)
    (Seq (Group 2 (Times 2 digit)) (Seq (Class isDateSep)
      (Group 3 (Times 2 digit))))).

(** [/^(\d{4})[\/\-](\d{2})$/] *)
Definition re_ym : regex :=
  Seq Bol (Seq (Group 1 (Times 4 digit)) (Seq (Class isMonthSep)
    (Seq (Group 2 (Times 2 digit)) Eol))).

Definition coerceIsoDate (text : jsstring) : jsstring :=
  let normalized := trim text in
  if test re_iso normalized then normalized
  else
    match exec re_dmy normalized with
    | Some (_, m1) => cap 3 m1 ++ str "-" ++ cap 2 m1 ++ str "-" ++ cap 1 m1
    | None =>
        match exec re_ymd normalized with
        | Some (_, m2) => cap 1 m2 ++ str "-" ++ cap 2 m2 ++ str "-" ++ cap 3 m2
        | None =>
            match exec re_ym normalized with
            | Some (_, m3) => cap 1 m3 ++ str "-" ++ cap 2 m3 ++ str "-01"
            | None => normalized
            end
        end
    end.

(** ** JSON values and [JSON.parse] *)

Module Json.

(** A number is kept as the text of its literal: IEEE doubles are not
    modelled, and the two operations the handlers apply to a number are
    supplied by the host (see [NumberOps]). *)
Inductive jsvalue : Type :=
| JNull
| JBool (b : bool)
| JNumber (lit : jsstring)
| JString (s : jsstring)
| JArray (l : list jsvalue)
| JObject (kvs : list (jsstring * jsvalue)).

Inductive token : Type :=
| TLBrace | TRBrace | TLBrack | TRBrack | TColon | TComma
| TStr (s : jsstring) | TNum (lit : jsstring) | TTrue | TFalse | TNull.

(** Where the scanner stands inside a number literal: an optional minus,
    then a single zero or a non-zero digit followed by digits, then an
    optional fraction (a dot and at least one digit), then an optional
    exponent (e or E, an optional sign, at least one digit). *)
Inductive numst : Type :=
| NMinus | NZero | NInt | NDot | NFrac | NE | NESign | NExp.

Definition num_accepting (n : numst) : bool :=
  match n with
  | NZero | NInt | NFrac | NExp => true
  | _ => false
  end.

(** Scanner states; accumulated text is kept reversed. *)
Inductive lexst : Type :=
| LDefault
| LString (acc : jsstring)
| LEscape (acc : jsstring)
| LUnicode (acc : jsstring) (hex : list N)
| LNumber (n : numst) (acc : jsstring)
| LWord (expect : jsstring) (t : token).

Definition hexval (c : N) : option N :=
  if (48 <=? c) && (c <=? 57) then Some (c - 48)
  else if (65 <=? c) && (c <=? 70) then Some (c - 55)
  else if (97 <=? c) && (c <=? 102) then Some (c - 87)
  else None.

Definition num_step (n : numst) (c : N) : option numst :=
  match n with
  | NMinus => if c =? 48 then Some NZero else if isDigit c then Some NInt else None
  | NZero =>
      if c =? 46 then Some NDot
      else if (c =? 101) || (c =? 69) then Some NE else None
  | NInt =>
      if isDigit c then Some NInt
      else if c =? 46 then Some NDot
      else if (c =? 101) || (c =? 69) then Some NE else None
  | NDot => if isDigit c then Some NFrac else None
  | NFrac =>
      if isDigit c then Some NFrac
      else if (c =? 101) || (c =? 69) then Some NE else None
  | NE =>
      if (c =? 43) || (c =? 45) then Some NESign
      else if isDigit c then Some NExp else None
  | NESign => if isDigit c then Some NExp else None
  | NExp => if isDigit c then Some NExp else None
  end.

(** One code unit seen outside any token.  Tokens are collected reversed. *)
Definition lex_default (c : N) (out : list token) : option (lexst * list token) :=
  if (c =? 9) || (c =? 10) || (c =? 13) || (c =? 32) then Some (LDefault, out)
  else if c =? 123 then Some (LDefault, TLBrace :: out)
  else if c =? 125 then Some (LDefault, TRBrace :: out)
  else if c =? 91 then Some (LDefault, TLBrack :: out)
  else if c =? 93 then Some (LDefault, TRBrack :: out)
  else if c =? 58 then Some (LDefault, TColon :: out)
  else if c =? 44 then Some (LDefault, TComma :: out)
  else if c =? 34 then Some (LString [], out)
  else if c =? 45 then Some (LNumber NMinus [c], out)
  else if c =? 48 then Some (LNumber NZero [c], out)
  else if isDigit c then Some (LNumber NInt [c], out)
  else if c =? 116 then Some (LWord (str "rue") TTrue, out)
  else if c =? 102 then Some (LWord (str "alse") TFalse, out)
  else if c =? 110 then Some (LWord (str "ull") TNull, out)
  else None.

Definition lex_step (st : lexst) (c : N) (out : list token)
  : option (lexst * list token) :=
  match st with
  | LDefault => lex_default c out
  | LString acc =>
      if c =? 34 then Some (LDefault, TStr (rev acc) :: out)
      else if c =? 92 then Some (LEscape acc, out)
      else if c <? 32 then None
      else Some (LString (c :: acc), out)
  | LEscape acc =>
      if c =? 34 then Some (LString (34 :: acc), out)
      else if c =? 92 then Some (LString (92 :: acc), out)
      else if c =? 47 then Some (LString (47 :: acc), out)
      else if c =? 98 then Some (LString (8 :: acc), out)
      else if c =? 102 then Some (LString (12 :: acc), out)
      else if c =? 110 then Some (LString (10 :: acc), out)
      else if c =? 114 then Some (LString (13 :: acc), out)
      else if c =? 116 then Some (LString (9 :: acc), out)
      else if c =? 117 then Some (LUnicode acc [], out)
      else None
  | LUnicode acc hex =>
      match hexval c with
      | None => None
      | Some h =>
          match hex with
          | [h3; h2; h1] =>
              Some (LString ((((h1 * 16 + h2) * 16 + h3) * 16 + h) :: acc), out)
          | _ => Some (LUnicode acc (h :: hex), out)
          end
      end
  | LNumber n acc =>
      match num_step n c with
      | Some n' => Some (LNumber n' (c :: acc), out)
      | None =>
          if num_accepting n then lex_default c (TNum (rev acc) :: out) else None
      end
  | LWord expect t =>
      match expect with
      | [] => None
      | e :: expect' =>
          if c =? e then
            match expect' with
            | [] => Some (LDefault, t :: out)
            | _ => Some (LWord expect' t, out)
            end
          else None
      end
  end.

Fixpoint lex_go (st : lexst) (out : list token) (s : jsstring)
  : option (list token) :=
  match s with
  | [] =>
      match st with
      | LDefault => Some (rev out)
      | LNumber n acc =>
          if num_accepting n then Some (rev (TNum (rev acc) :: out)) else None
      | _ => None
      end
  | c :: s' =>
      match lex_step st c out with
      | Some (st', out') => lex_go st' out' s'
      | None => None
      end
  end.

Definition lex (s : jsstring) : option (list token) := lex_go LDefault [] s.

(** The parser is a pushdown automaton over the tokens. A frame is an
    enclosing array with the elements read so far, or an enclosing object
    with its members so far and the key whose value is being read (both
    reversed). *)
Inductive frame : Type :=
| FArr (elems : list jsvalue)
| FObj (kvs : list (jsstring * jsvalue)) (key : jsstring).

Inductive pst : Type :=
| PVal (stk : list frame)
| PArrOpen (stk : list frame)
| PObjOpen (stk : list frame)
| PKey (kvs : list (jsstring * jsvalue)) (stk : list frame)
| PColon (kvs : list (jsstring * jsvalue)) (key : jsstring) (stk : list frame)
| PDone (v : jsvalue) (stk : list frame).

Definition scalar (t : token) : option jsvalue :=
  match t with
  | TStr s => Some (JString s)
  | TNum lit => Some (JNumber lit)
  | TTrue => Some (JBool true)
  | TFalse => Some (JBool false)
  | TNull => Some JNull
  | _ => None
  end.

Definition start_value (t : token) (stk : list frame) : option pst :=
  match t with
  | TLBrack => Some (PArrOpen stk)
  | TLBrace => Some (PObjOpen stk)
  | _ => match scalar t with Some v => Some (PDone v stk) | None => None end
  end.

Definition parse_step (p : pst) (t : token) : option pst :=
  match p with
  | PVal stk => start_value t stk
  | PArrOpen stk =>
      match t with
      | TRBrack => Some (PDone (JArray []) stk)
      | _ => start_value t (FArr [] :: stk)
      end
  | PObjOpen stk =>
      match t with
      | TRBrace => Some (PDone (JObject []) stk)
      | TStr k => Some (PColon [] k stk)
      | _ => None
      end
  | PKey kvs stk =>
      match t with
      | TStr k => Some (PColon kvs k stk)
      | _ => None
      end
  | PColon kvs k stk =>
      match t with
      | TColon => Some (PVal (FObj kvs k :: stk))
      | _ => None
      end
  | PDone v stk =>
      match stk, t with
      | FArr es :: stk', TComma => Some (PVal (FArr (v :: es) :: stk'))
      | FArr es :: stk', TRBrack => Some (PDone (JArray (rev (v :: es))) stk')
      | FObj kvs k :: stk', TComma => Some (PKey ((k, v) :: kvs) stk')
      | FObj kvs k :: stk', TRBrace =>
          Some (PDone (JObject (rev ((k, v) :: kvs))) stk')
      | _, _ => None
      end
  end.

Fixpoint parse_go (p : pst) (ts : list token) : option jsvalue :=
  match ts with
  | [] => match p with PDone v [] => Some v | _ => None end
  | t :: ts' =>
      match parse_step p t with
      | Some p' => parse_go p' ts'
      | None => None
      end
  end.

(** [JSON.parse(s)]; [None] stands for the [SyntaxError] it throws. *)
Definition JSON_parse (s : jsstring) : option jsvalue :=
  match lex s with
  | Some ts => parse_go (PVal []) ts
  | None => None
  end.

(** [v[name]] for one of the property names the handlers read, none of
    which is defined on a built-in prototype: [None] is [undefined]. When a
    key is repeated in the text, the last member wins. Reading a property of
    [null] throws and is handled where it happens. *)
Fixpoint lookup_last (name : jsstring) (kvs : list (jsstring * jsvalue))
  : option jsvalue :=
  match kvs with
  | [] => None
  | (k, v) :: kvs' =>
      match lookup_last name kvs' with
      | Some v' => Some v'
      | None => if decide (k = name) then Some v else None
      end
  end.

Definition getProp (v : jsvalue) (name : jsstring) : option jsvalue :=
  match v with
  | JObject kvs => lookup_last name kvs
  | _ => None
  end.

Definition hasOwn (name : jsstring) (kvs : list (jsstring * jsvalue)) : bool :=
  match lookup_last name kvs with Some _ => true | None => false end.

(** [v === null] *)
Definition isNull (v : jsvalue) : bool :=
  match v with JNull => true | _ => false end.

(** [typeof v === "boolean"], with the value; [v] may be [undefined]. *)
Definition asBoolean (v : option jsvalue) : option bool :=
  match v with Some (JBool b) => Some b | _ => None end.

(** [typeof v === "string"], with the value; [v] may be [undefined]. *)
Definition asString (v : option jsvalue) : option jsstring :=
  match v with Some (JString s) => Some s | _ => None end.

(** What the host does with a number: [String(x)] and whether [x] is [0]
    (a JSON number is never [NaN]), both from the literal. *)
Class NumberOps : Type := {
  Number_toString : jsstring -> jsstring;
  Number_isZero : jsstring -> bool
}.

Section Conversions.
Context `{NumberOps}.

(** [String(v)]; [None] stands for the [TypeError] of an object that
    cannot be converted to a primitive. An object read from JSON answers
    ["[object Object]"] unless it has a member called [toString], which
    hides the inherited method and is not callable. An array is joined
    with commas, [null] elements giving the empty string. *)
Fixpoint toStr (v : jsvalue) : option jsstring :=
  match v with
  | JNull => Some (str "null")
  | JBool true => Some (str "true")
  | JBool false => Some (str "false")
  | JNumber lit => Some (Number_toString lit)
  | JString s => Some s
  | JArray l =>
      (fix join (l : list jsvalue) : option jsstring :=
         match l with
         | [] => Some []
         | x :: l' =>
             match (match x with JNull => Some [] | _ => toStr x end) with
             | None => None
             | Some sx =>
                 match l' with
                 | [] => Some sx
                 | _ => match join l' with
                        | Some sl => Some (sx ++ str "," ++ sl)
                        | None => None
                        end
                 end
             end
         end) l
  | JObject kvs =>
      if hasOwn (str "toString") kvs then None else Some (str "[object Object]")
  end.

(** [ToBoolean] *)
Definition truthy (v : jsvalue) : bool :=
  match v with
  | JNull => false
  | JBool b => b
  | JNumber lit => negb (Number_isZero lit)
  | JString s => match s with [] => false | _ => true end
  | JArray _ | JObject _ => true
  end.

End Conversions.

End Json.
Import Json.

(** ** Multipart forms and files *)

Record File : Type := {
  file_type : jsstring;          (* [file.type] *)
  file_bytes : list Byte.byte    (* the content; [file.size] is its length *)
}.

Definition file_size (f : File) : nat := length (file_bytes f).

Inductive FormValue : Type :=
| FText (s : jsstring)
| FFile (f : File).

Definition FormData := list (jsstring * FormValue).

(** [form.get(name)]: the first value under that name, [None] for [null]. *)
Fixpoint form_get (name : jsstring) (form : FormData) : option FormValue :=
  match form with
  | [] => None
  | (k, v) :: form' => if decide (k = name) then Some v else form_get name form'
  end.

(** [s.includes(needle)] *)
Fixpoint startsWith (needle s : jsstring) : bool :=
  match needle, s with
  | [], _ => true
  | _ :: _, [] => false
  | a :: needle', b :: s' => (a =? b) && startsWith needle' s'
  end.

Fixpoint includes (needle s : jsstring) : bool :=
  startsWith needle s ||
  match s with
  | [] => false
  | _ :: s' => includes needle s'
  end.

(** [s.indexOf(c)] and [s.lastIndexOf(c)] for a single code unit; [None]
    is the answer [-1]. *)
Fixpoint indexOf (c : N) (s : jsstring) : option nat :=
  match s with
  | [] => None
  | x :: s' => if x =? c then Some O else option_map S (indexOf c s')
  end.

Fixpoint lastIndexOf (c : N) (s : jsstring) : option nat :=
  match s with
  | [] => None
  | x :: s' =>
      match lastIndexOf c s' with
      | Some j => Some (S j)
      | None => if x =? c then Some O else None
      end
  end.

(** [s.slice(a, b)] for indices within the string. *)
Definition slice (a b : nat) (s : jsstring) : jsstring :=
  firstn (b - a) (skipn a s).

(** [buffer.toString("base64")] *)
Definition b64char (n : N) : N :=
  if n <? 26 then 65 + n
  else if n <? 52 then 97 + (n - 26)
  else if n <? 62 then 48 + (n - 52)
  else if n =? 62 then 43 else 47.

Fixpoint base64 (l : list Byte.byte) : jsstring :=
  match l with
  | [] => []
  | [a] =>
      let x := Byte.to_N a in
      [b64char (x / 4); b64char ((x mod 4) * 16); 61; 61]
  | [a; b] =>
      let x := Byte.to_N a in
      let y := Byte.to_N b in
      [b64char (x / 4); b64char ((x mod 4) * 16 + y / 16);
       b64char ((y mod 16) * 4); 61]
  | a :: b :: c :: l' =>
      let x := Byte.to_N a in
      let y := Byte.to_N b in
      let z := Byte.to_N c in
      b64char (x / 4) :: b64char ((x mod 4) * 16 + y / 16)
        :: b64char ((y mod 16) * 4 + z / 64) :: b64char (z mod 64)
        :: base64 l'
  end.

(** Decimal text of an integer, as a template literal prints a whole
    number below 10^21. *)
Definition decZ (z : Z) : jsstring := str (pretty z).
Definition decNat (n : nat) : jsstring := str (pretty n).

(** ** The session relay: [api/session/[sessionId]/route.ts] *)

Module Session.

Record SessionImage : Type := {
  id : jsstring;
  dataUrl : jsstring;
  product : jsstring;
  expiryDate : jsstring
}.

Record SessionState : Type := {
  mobileConnected : bool;
  webConnected : bool;
  command : option jsstring;     (* [string | null] *)
  images : list SessionImage
}.

(** [const sessions = new Map<string, SessionState>()] *)
Abbreviation Sessions := (gmap jsstring SessionState).

Definition bufferToDataUrl (buffer : list Byte.byte) (mime : jsstring) : jsstring :=
  let base64 := base64 buffer in
  str "data:" ++ (match mime with [] => str "image/jpeg" | _ => mime end)
    ++ str ";base64," ++ base64.

Definition defaultState : SessionState :=
  {| mobileConnected := false; webConnected := false;
     command := None; images := [] |}.

Definition getOrCreate (sessionId : jsstring) (sessions : Sessions)
  : SessionState * Sessions :=
  match sessions !! sessionId with
  | Some st => (st, sessions)
  | None => (defaultState, <[sessionId := defaultState]> sessions)
  end.

Inductive Response : Type :=
| Json200 (st : SessionState)
| Json400.                       (* [{ error: "Missing sessionId" }] *)

(** [sessionId] is [None] when the parameter is missing; [!sessionId] holds
    of that and of the empty string. *)
Definition GET (sessionId : option jsstring) (sessions : Sessions)
  : Response * Sessions :=
  match sessionId with
  | None | Some [] => (Json400, sessions)
  | Some sid =>
      let '(state, sessions1) := getOrCreate sid sessions in
      (Json200 state, sessions1)
  end.

(** What a POST request carries: the [content-type] header (absent reads
    as the empty string), what [req.formData()] resolves to ([None] when
    it rejects) and the text [req.json()] parses. *)
Record Request : Type := {
  contentType : option jsstring;
  formData : option FormData;
  bodyText : jsstring
}.

Definition newImage (now : Z) (state : SessionState) (url : jsstring)
  : SessionImage :=
  {| id := str "mobile-" ++ decZ now ++ str "-" ++ decNat (length (images state));
     dataUrl := url;
     product := [];
     expiryDate := [] |}.

(** [state.images.push(...)] *)
Definition pushImage (now : Z) (url : jsstring) (state : SessionState)
  : SessionState :=
  {| mobileConnected := mobileConnected state;
     webConnected := webConnected state;
     command := command state;
     images := images state ++ [newImage now state url] |}.

Definition setMobileConnected (b : bool) (state : SessionState) : SessionState :=
  {| mobileConnected := b; webConnected := webConnected state;
     command := command state; images := images state |}.

Definition setWebConnected (b : bool) (state : SessionState) : SessionState :=
  {| mobileConnected := mobileConnected state; webConnected := b;
     command := command state; images := images state |}.

Definition setCommand (c : option jsstring) (state : SessionState) : SessionState :=
  {| mobileConnected := mobileConnected state;
     webConnected := webConnected state;
     command := c; images := images state |}.

(** The multipart branch; [now] is what [Date.now()] answers. *)
Definition postMultipart (now : Z) (req : Request) (state : SessionState)
  : SessionState :=
  match formData req with
  | None => state                                    (* caught, ignored *)
  | Some form =>
      match form_get (str "image") form with
      | Some (FFile file) =>
          if (0 <? file_size file)%nat then
            let buffer := file_bytes file in
            let mime := match file_type file with
                        | [] => str "image/jpeg"
                        | t => t
                        end in
            pushImage now (bufferToDataUrl buffer mime) state
          else state
      | _ => state
      end
  end.

Section JsonBranch.
Context `{NumberOps}.

(** The statements after [body.command] has been dealt with. *)
Definition postImage (now : Z) (body : jsvalue) (state : SessionState)
  : SessionState :=
  match asString (getProp body (str "image")) with
  | Some image =>
      match image with
      | [] => state
      | _ => pushImage now image state
      end
  | None => state
  end.

(** The statements of the [try] once [body] is there and is not [null].
    When [String(body.command)] throws, the assignments made before it
    stay and the rest is skipped. *)
Definition postFields (now : Z) (body : jsvalue) (state : SessionState)
  : SessionState :=
  let state1 :=
    match asBoolean (getProp body (str "mobileConnected")) with
    | Some b => setMobileConnected b state
    | None => state
    end in
  let state2 :=
    match asBoolean (getProp body (str "webConnected")) with
    | Some b => setWebConnected b state1
    | None => state1
    end in
  match getProp body (str "command") with
  | None => postImage now body state2
  | Some v =>
      if isNull v then postImage now body (setCommand None state2)
      else
        match toStr v with
        | Some s => postImage now body (setCommand (Some s) state2)
        | None => state2                             (* caught, ignored *)
        end
  end.

(** The JSON branch. The [try] covers every statement. *)
Definition postJson (now : Z) (req : Request) (state : SessionState)
  : SessionState :=
  match JSON_parse (bodyText req) with
  | None => state                                    (* invalid JSON *)
  | Some body =>
      if isNull body then state                      (* property of null *)
      else postFields now body state
  end.

Definition POST (now : Z) (sessionId : option jsstring) (req : Request)
  (sessions : Sessions) : Response * Sessions :=
  match sessionId with
  | None | Some [] => (Json400, sessions)
  | Some sid =>
      let '(state, sessions1) := getOrCreate sid sessions in
      let contentType := match contentType req with Some t => t | None => [] end in
      let state' :=
        if includes (str "multipart/form-data") contentType
        then postMultipart now req state
        else postJson now req state in
      (Json200 state', <[sid := state']> sessions1)
  end.

End JsonBranch.

End Session.

(** ** The extraction client: the analyze route *)

Module Analyze.

Record AnalyzeResponse : Type := {
  product : jsstring;
  expiryDate : jsstring
}.

Definition setProduct (p : jsstring) (e : AnalyzeResponse) : AnalyzeResponse :=
  {| product := p; expiryDate := expiryDate e |}.

Definition setExpiryDate (d : jsstring) (e : AnalyzeResponse) : AnalyzeResponse :=
  {| product := product e; expiryDate := d |}.

Definition quote : N := 34.
Definition backslash : N := 92.

(** The class of every code unit but the double quote and the backslash. *)
Definition notQuoteNorBackslash (c : N) : bool :=
  negb (c =? quote) && negb (c =? backslash).
(** [.] *)
Definition dot (c : N) : bool := negb (isLineTerminator c).

(** The quoted value both fallback expressions end with: a double quote,
    then, captured, any number of items that are either one code unit other
    than the quote and the backslash or a backslash and the code unit the
    dot accepts after it, then a double quote. *)
Definition re_quoted : regex :=
  Seq (Class (N.eqb quote))
    (Seq (Group 1 (Star (Alt (Class notQuoteNorBackslash)
                             (Seq (Class (N.eqb backslash)) (Class dot)))))
         (Class (N.eqb quote))).

(** The quoted name, [\s*:\s*], and the quoted value. *)
Definition re_field (name : string) : regex :=
  Seq (Lit (quote :: str name ++ [quote]))
    (Seq (Star (Class isWhiteSpace))
      (Seq (Lit (str ":"))
        (Seq (Star (Class isWhiteSpace)) re_quoted))).

Definition re_product : regex := re_field "product".
Definition re_expiryDate : regex := re_field "expiryDate".

(** [/^product_\d+$/] *)
Definition re_placeholder : regex :=
  Seq Bol (Seq (Lit (str "product_")) (Seq (Plus digit) Eol)).

(** The global replace of the fallback: every backslash followed by a
    double quote, scanning left to right, becomes a double quote. *)
Fixpoint unescapeQuotes (s : jsstring) : jsstring :=
  match s with
  | [] => []
  | a :: s' =>
      match s' with
      | b :: s'' =>
          if (a =? backslash) && (b =? quote) then quote :: unescapeQuotes s''
          else a :: unescapeQuotes s'
      | [] => [a]
      end
  end.

(** How a block of statements ends: normally, or by throwing; either way
    the assignments made so far are kept. *)
Inductive outcome : Type :=
| Normal (e : AnalyzeResponse)
| Thrown (e : AnalyzeResponse).

(** [a ?? b] *)
Definition nullish (a : option jsvalue) (b : jsvalue) : jsvalue :=
  match a with
  | None => b
  | Some v => if isNull v then b else v
  end.

(** [rawText.slice(jsonStart, jsonEnd + 1)] when both braces occur, else
    [rawText]. *)
Definition braced (rawText : jsstring) : jsstring :=
  match indexOf 123 rawText, lastIndexOf 125 rawText with
  | Some jsonStart, Some jsonEnd => slice jsonStart (S jsonEnd) rawText
  | _, _ => rawText
  end.

Section Parsing.
Context `{NumberOps}.

(** The body of the [try]. *)
Definition tryJson (raw : jsstring) (extracted : AnalyzeResponse) : outcome :=
  match JSON_parse raw with
  | None => Thrown extracted                         (* SyntaxError *)
  | Some parsed =>
      if isNull parsed then Thrown extracted         (* property of null *)
      else
        match toStr (nullish (getProp parsed (str "product")) (JString [])) with
        | None => Thrown extracted
        | Some p =>
            let extracted1 := setProduct (slice0 120 (trim p)) extracted in
            let rawExpiry :=
              nullish (getProp parsed (str "expiryDate"))
                (nullish (getProp parsed (str "expiry"))
                  (nullish (getProp parsed (str "date")) (JString []))) in
            if truthy rawExpiry then
              match toStr rawExpiry with
              | None => Thrown extracted1
              | Some e => Normal (setExpiryDate (coerceIsoDate e) extracted1)
              end
            else Normal extracted1
        end
  end.

(** The body of the [catch]. *)
Definition fallback (rawText : jsstring) (extracted : AnalyzeResponse)
  : AnalyzeResponse :=
  let extracted1 :=
    match exec re_product rawText with
    | Some (_, p) => setProduct (unescapeQuotes (cap 1 p)) extracted
    | None => extracted
    end in
  match exec re_expiryDate rawText with
  | Some (_, e) =>
      setExpiryDate (coerceIsoDate (unescapeQuotes (cap 1 e))) extracted1
  | None => extracted1
  end.

(** From [let extracted = ...] to the end of the [try]/[catch]. *)
Definition parseReply (rawText : jsstring) : AnalyzeResponse :=
  let extracted := {| product := []; expiryDate := [] |} in
  let raw := braced rawText in
  match tryJson raw extracted with
  | Normal e => e
  | Thrown e => fallback rawText e
  end.

(** The manual overrides. *)
Definition applyManual (manualProduct manualDate : option FormValue)
  (extracted : AnalyzeResponse) : AnalyzeResponse :=
  let manual := match manualProduct with
                | Some (FText s) => trim s
                | _ => []
                end in
  let extracted1 :=
    match manual with
    | [] => extracted
    | _ => if negb (test re_placeholder manual)
           then setProduct (slice0 120 manual) extracted
           else extracted
    end in
  match manualDate with
  | Some (FText s) =>
      match trim s with
      | [] => extracted1
      | _ => setExpiryDate (coerceIsoDate s) extracted1
      end
  | _ => extracted1
  end.

(** What the model call does for this request. *)
Inductive ModelOutcome : Type :=
| ModelThrows (message : jsstring)       (* [generateContent] rejects *)
| TextThrows                             (* [response.text()] throws *)
| Reply (text : jsstring).

Inductive Response : Type :=
| Json200 (e : AnalyzeResponse)
| Json400                                (* [image required] *)
| Json500 (error : jsstring) (message : option jsstring).

(** The handler. [form] is what [req.formData()] resolves to ([None] when
    it rejects, which the outer [catch] turns into a 500 whose message is
    the error's and is not modelled), [apiKey] the environment variable,
    [model] the outcome of the call to the model. *)
Definition POST (form : option FormData) (apiKey : option jsstring)
  (model : ModelOutcome) : Response :=
  match form with
  | None => Json500 (str "analysis_failed") (Some [])
  | Some form =>
      let file := form_get (str "image") form in
      let manualProduct := form_get (str "manualProduct") form in
      let manualDate := form_get (str "manualDate") form in
      match file with
      | Some (FFile _) =>
          match apiKey with
          | None | Some [] => Json500 (str "GEMINI_API_KEY not configured") None
          | Some _ =>
              match model with
              | ModelThrows message => Json500 (str "analysis_failed") (Some message)
              | TextThrows => Json200 (applyManual manualProduct manualDate (parseReply []))
              | Reply rawText =>
                  Json200 (applyManual manualProduct manualDate (parseReply rawText))
              end
          end
      | _ => Json400
      end
  end.

End Parsing.

End Analyze.

(** ** Status derivation: [computeStatus] of the page component *)

Module Page.

Inductive Status : Type := Valid | ExpiringSoon | Expired.

(** The host's date parser: the time value of [new Date(s)] in
    milliseconds, [None] when it is [NaN]. *)
Class DateHost : Type := { Date_parse : jsstring -> option Z }.

Definition MS_PER_DAY : Z := (1000 * 60 * 60 * 24)%Z.

(** [Math.ceil(a / b)] for whole [a] and positive [b].  The handler only
    compares the result with 0 and 30, and for time values the rounding of
    the double division cannot move the quotient across a whole number that
    close to zero, so the exact ceiling decides the same way. *)
Definition ceilDiv (a b : Z) : Z := (- ((- a) / b))%Z.

Section Status.
Context `{DateHost}.

(** [now] is the time value of [new Date()]. *)
Definition computeStatus (now : Z) (dateISO : jsstring) : Status :=
  match trim dateISO with
  | [] => Valid
  | _ =>
      match Date_parse dateISO with
      | None => Valid
      | Some target =>
          let diffDays := ceilDiv (target - now) MS_PER_DAY in
          if (diffDays <? 0)%Z then Expired
          else if (diffDays <=? 30)%Z then ExpiringSoon
          else Valid
      end
  end.

End Status.

End Page.

(** ** The analyze route: the type sent to the model *)

(** [String.prototype.toLowerCase], supplied by the host: the Unicode case
    mapping is not modelled. *)
Class CaseHost : Type := { toLowerCase : jsstring -> jsstring }.

Module Mime.

(** [const GEMINI_IMAGE_TYPES = [...] as const] *)
Definition GEMINI_IMAGE_TYPES : list jsstring :=
  [str "image/jpeg"; str "image/png"; str "image/webp"; str "image/gif"].

(** [array.includes(t)] for strings *)
Definition includesString (l : list jsstring) (t : jsstring) : bool :=
  existsb (fun x => bool_decide (x = t)) l.

Definition getGeminiMimeType `{CaseHost} (file : File) : jsstring :=
  let t := toLowerCase (file_type file) in
  if includesString GEMINI_IMAGE_TYPES t then t else str "image/jpeg".

End Mime.

(** ** The page component: [HomeContent] *)

Module Ui.
Import Page.

(** A [File] of the browser: its name, and its type and content. *)
Record NamedFile : Type := {
  name : jsstring;
  blob : File
}.

Record UploadedImage : Type := {
  id : jsstring;
  file : NamedFile;
  url : jsstring;
  product : jsstring;
  expiryDate : jsstring;
  status : Status
}.

(** The string a status is in the source. *)
Definition statusText (s : Status) : jsstring :=
  match s with
  | Valid => str "Valid"
  | ExpiringSoon => str "Expiring Soon"
  | Expired => str "Expired"
  end.

Definition status_eqb (a b : Status) : bool :=
  match a, b with
  | Valid, Valid | ExpiringSoon, ExpiringSoon | Expired, Expired => true
  | _, _ => false
  end.

(** What the browser supplies: the URL [URL.createObjectURL] makes for a
    file, and the blob [fetch] reads from a URL, with its type and content
    ([None] when the fetch rejects). *)
Class BrowserHost : Type := {
  createObjectURL : NamedFile -> jsstring;
  fetchBlob : jsstring -> option File
}.

(** The text the source has where a product is unknown (three code units,
    a dash that was stored in the wrong encoding). *)
Definition unknownProduct : jsstring := [8218; 196; 238].

(** [const filtered = useMemo(...)] *)
Definition filtered `{CaseHost} (images : list UploadedImage) (search : jsstring)
  : list UploadedImage :=
  let term := toLowerCase (trim search) in
  match term with
  | [] => images
  | _ =>
      List.filter (fun img =>
        includes term (toLowerCase (product img)) || includes term (expiryDate img))
        images
  end.

(** [const counts = useMemo(...)] *)
Record Counts : Type := {
  total : nat;
  expiring : nat;
  valid : nat;
  expired : nat
}.

Definition counts (images : list UploadedImage) : Counts :=
  {| total := length images;
     expiring := length (List.filter (fun i => status_eqb (status i) ExpiringSoon) images);
     valid := length (List.filter (fun i => status_eqb (status i) Valid) images);
     expired := length (List.filter (fun i => status_eqb (status i) Expired) images) |}.

(** [array.join(sep)] of strings *)
Fixpoint join (sep : jsstring) (l : list jsstring) : jsstring :=
  match l with
  | [] => []
  | [x] => x
  | x :: l' => x ++ sep ++ join sep l'
  end.

(** The global replace of [downloadCSV]: every double quote becomes two. *)
Fixpoint doubleQuotes (s : jsstring) : jsstring :=
  match s with
  | [] => []
  | c :: s' => if c =? 34 then 34 :: 34 :: doubleQuotes s' else c :: doubleQuotes s'
  end.

(** One cell: the text between double quotes, its own quotes doubled. *)
Definition csvCell (c : jsstring) : jsstring := 34 :: doubleQuotes c ++ [34].

Definition csvHeaders : list jsstring :=
  [str "Image"; str "Product"; str "Expiry Date"; str "Status"].

Definition csvRows (images : list UploadedImage) : list (list jsstring) :=
  map (fun i => [name (file i); product i; expiryDate i; statusText (status i)]) images.

(** The text [downloadCSV] puts in the blob. *)
Definition csvText (images : list UploadedImage) : jsstring :=
  join [10] (map (fun r => join (str ",") (map csvCell r)) (csvHeaders :: csvRows images)).

(** The state update of [removeImage]. *)
Definition removeImage (id0 : jsstring) (prev : list UploadedImage)
  : list UploadedImage :=
  List.filter (fun i => negb (bool_decide (id i = id0))) prev.

Section Selection.
Context `{BrowserHost}.

(** The items [onFilesSelected] makes for the files chosen; [clock idx] is
    what [Date.now()] answers while the item at [idx] is made, [base] the
    number of images held. *)
Definition nextItems (clock : nat -> Z) (base : nat) (filesList : list NamedFile)
  : list UploadedImage :=
  imap (fun idx file =>
    {| id := decZ (clock idx) ++ str "-" ++ decNat idx;
       file := file;
       url := createObjectURL file;
       product := str "product_" ++ decNat (base + idx + 1);
       expiryDate := [];
       status := Valid |}) (firstn 10 filesList).

(** The list after [onFilesSelected]; [None] is the [null] file list. The
    list the callback counts and the list it appends to are taken to be the
    same. *)
Definition onFilesSelected (clock : nat -> Z) (filesList : option (list NamedFile))
  (images : list UploadedImage) : list UploadedImage :=
  match filesList with
  | None => images
  | Some fl => images ++ nextItems clock (length images) fl
  end.

End Selection.

(** What [analyzeBatch] learns for one item. *)
Record Update : Type := {
  u_id : jsstring;
  u_product : jsstring;
  u_expiryDate : jsstring;
  u_status : Status
}.

(** The form [analyzeBatch] posts for an item. *)
Definition buildForm (item : UploadedImage) : FormData :=
  let isPlaceholder := test Analyze.re_placeholder (trim (product item)) in
  [(str "image", FFile (blob (file item)))]
  ++ (match product item with
      | [] => []
      | _ => if negb isPlaceholder
             then [(str "manualProduct", FText (product item))] else []
      end)
  ++ (match expiryDate item with
      | [] => []
      | _ => [(str "manualDate", FText (expiryDate item))]
      end).

Section Batch.
Context `{DateHost}.

(** What an item becomes given the answer of the analyze route; [now] is
    the time at which the status is computed. *)
Definition updateFor (now : Z) (item : UploadedImage) (res : Analyze.Response)
  : Update :=
  match res with
  | Analyze.Json200 data =>
      let name := match trim (Analyze.product data) with
                  | [] => unknownProduct
                  | t => t
                  end in
      let expiry := trim (Analyze.expiryDate data) in
      {| u_id := id item; u_product := name; u_expiryDate := expiry;
         u_status := computeStatus now expiry |}
  | _ =>
      {| u_id := id item; u_product := unknownProduct;
         u_expiryDate := expiryDate item; u_status := Valid |}
  end.

(** The state update at the end of [analyzeBatch]. *)
Definition applyUpdates (updates : list Update) (prev : list UploadedImage)
  : list UploadedImage :=
  map (fun img =>
    match find (fun x => bool_decide (u_id x = id img)) updates with
    | Some u =>
        {| id := id img; file := file img; url := url img;
           product := u_product u; expiryDate := u_expiryDate u;
           status := u_status u |}
    | None => img
    end) prev.

(** What [Promise.all] resolves to for the items from position [idx] on:
    [serve] is what [fetch] and [res.json()] give for a form, the answer
    of the analyze route or [None] when either rejects; one rejection
    rejects the whole. [clock idx] is the time at which the answer for
    the item at [idx] is handled. *)
Fixpoint updatesFrom (serve : FormData -> option Analyze.Response) (clock : nat -> Z)
  (idx : nat) (batch : list UploadedImage) : option (list Update) :=
  match batch with
  | [] => Some []
  | item :: batch' =>
      match serve (buildForm item), updatesFrom serve clock (S idx) batch' with
      | Some res, Some updates => Some (updateFor (clock idx) item res :: updates)
      | _, _ => None
      end
  end.

(** [analyzeBatch]: the updates are applied to the list held at the end;
    when [Promise.all] rejects, [setImages] is not reached and the list
    stays as it is. *)
Definition analyzeBatch (serve : FormData -> option Analyze.Response)
  (clock : nat -> Z) (batch : list UploadedImage) (prev : list UploadedImage)
  : list UploadedImage :=
  match updatesFrom serve clock 0 batch with
  | Some updates => applyUpdates updates prev
  | None => prev
  end.

End Batch.

(** What the component holds: the list, the two references the polling
    timer reads, and whether the phone was seen connected. *)
Record Held : Type := {
  images : list UploadedImage;
  seenImageIds : gset jsstring;
  imagesLength : nat;
  mobileConnected : bool
}.

(** The effect that runs after the list changed. *)
Definition syncRefs (held : Held) : Held :=
  {| images := images held;
     seenImageIds := list_to_set (map id (images held));
     imagesLength := length (images held);
     mobileConnected := mobileConnected held |}.

Section Polling.
Context `{BrowserHost}.

(** The blobs of the images, in order; [None] as soon as one fetch
    rejects. *)
Fixpoint fetchAll (l : list Session.SessionImage)
  : option (list (Session.SessionImage * File)) :=
  match l with
  | [] => Some []
  | apiImg :: l' =>
      match fetchBlob (Session.dataUrl apiImg) with
      | None => None
      | Some b =>
          match fetchAll l' with
          | None => None
          | Some r => Some ((apiImg, b) :: r)
          end
      end
  end.

(** One relayed image made into a local one. *)
Definition convert (baseIndex idx : nat) (apiImg : Session.SessionImage) (b : File)
  : UploadedImage :=
  let file := {| name := str "mobile.jpg";
                 blob := {| file_type := match file_type b with
                                         | [] => str "image/jpeg"
                                         | t => t
                                         end;
                            file_bytes := file_bytes b |} |} in
  {| id := Session.id apiImg;
     file := file;
     url := createObjectURL file;
     product := str "product_" ++ decNat (baseIndex + idx + 1);
     expiryDate := [];
     status := Valid |}.

(** One round of the polling timer on the session state [data] it read,
    taken as one step; the second component is the batch handed to
    [analyzeBatch]. A rejected fetch leaves everything as it was. *)
Definition pollRound (data : Session.SessionState) (held : Held)
  : Held * list UploadedImage :=
  let held1 :=
    {| images := images held;
       seenImageIds := seenImageIds held;
       imagesLength := imagesLength held;
       mobileConnected := Session.mobileConnected data || mobileConnected held |} in
  let apiImages := Session.images data in
  let newApiImages :=
    List.filter (fun img => negb (bool_decide (Session.id img ∈ seenImageIds held)))
      apiImages in
  match newApiImages with
  | [] => (held1, [])
  | _ =>
      let baseIndex := imagesLength held in
      match fetchAll newApiImages with
      | None => (held1, [])
      | Some fetched =>
          let converted :=
            imap (fun idx '(apiImg, b) => convert baseIndex idx apiImg b) fetched in
          ({| images := images held ++ converted;
              seenImageIds := seenImageIds held ∪ list_to_set (map id converted);
              imagesLength := imagesLength held + length converted;
              mobileConnected := mobileConnected held1 |},
           converted)
      end
  end.

End Polling.

(** [JSON.stringify] of an object with one key, given the text of its
    value. *)
Definition quote (s : jsstring) : jsstring := 34 :: s ++ [34].

Definition stringifyOne (key valueText : jsstring) : jsstring :=
  str "{" ++ quote key ++ str ":" ++ valueText ++ str "}".

(** A POST to the relay with the JSON headers of the page. *)
Definition jsonPost (body : jsstring) : Session.Request :=
  {| Session.contentType := Some (str "application/json");
     Session.formData := None;
     Session.bodyText := body |}.

(** The request sent when polling starts ([true]) and when it stops
    ([false]). *)
Definition webConnectedRequest (b : bool) : Session.Request :=
  jsonPost (stringifyOne (str "webConnected") (if b then str "true" else str "false")).

(** The request of [openCameraOnPhone]. *)
Definition openCameraRequest : Session.Request :=
  jsonPost (stringifyOne (str "command") (quote (str "open_camera"))).

End Ui.

(** * Vocabulary of the specification

    The forms, predicates and example requests the properties are stated
    with. *)

(** The first match among the suffixes of a string, for a test [here] that
    looks at the text from one position on. *)
Fixpoint first_suffix (here : jsstring -> option result) (s : jsstring)
  : option result :=
  match here s with
  | Some x => Some x
  | None => match s with [] => None | _ :: s' => first_suffix here s' end
  end.

(** What a match of [re_dmy], [re_ymd] tried at the head of [u] reports,
    and what [re_iso], [re_ym] make of a whole string: the matcher run by
    hand on these fixed-shape expressions. *)
Definition dmy_here (u : jsstring) : option result :=
  match u with
  | d1 :: d2 :: a :: m1 :: m2 :: b :: y1 :: y2 :: y3 :: y4 :: _ =>
      if isDigit d1 && isDigit d2 && isDateSep a && isDigit m1 && isDigit m2
         && isDateSep b && isDigit y1 && isDigit y2 && isDigit y3 && isDigit y4
      then Some ([d1; d2; a; m1; m2; b; y1; y2; y3; y4],
                 [(3%nat, [y1; y2; y3; y4]); (2%nat, [m1; m2]); (1%nat, [d1; d2])])
      else None
  | _ => None
  end.

Definition ymd_here (u : jsstring) : option result :=
  match u with
  | y1 :: y2 :: y3 :: y4 :: a :: m1 :: m2 :: b :: d1 :: d2 :: _ =>
      if isDigit y1 && isDigit y2 && isDigit y3 && isDigit y4 && isDateSep a
         && isDigit m1 && isDigit m2 && isDateSep b && isDigit d1 && isDigit d2
      then Some ([y1; y2; y3; y4; a; m1; m2; b; d1; d2],
                 [(3%nat, [d1; d2]); (2%nat, [m1; m2]); (1%nat, [y1; y2; y3; y4])])
      else None
  | _ => None
  end.

Definition iso_whole (s : jsstring) : bool :=
  match s with
  | [y1; y2; y3; y4; a; m1; m2; b; d1; d2] =>
      isDigit y1 && isDigit y2 && isDigit y3 && isDigit y4 && (45 =? a)
      && isDigit m1 && isDigit m2 && (45 =? b) && isDigit d1 && isDigit d2
  | _ => false
  end.

Definition ym_whole (s : jsstring) : option result :=
  match s with
  | [y1; y2; y3; y4; a; m1; m2] =>
      if isDigit y1 && isDigit y2 && isDigit y3 && isDigit y4 && isMonthSep a
         && isDigit m1 && isDigit m2
      then Some ([y1; y2; y3; y4; a; m1; m2],
                 [(2%nat, [m1; m2]); (1%nat, [y1; y2; y3; y4])])
      else None
  | _ => None
  end.

(** [n] decimal digits *)
Definition digits (n : nat) (l : jsstring) : Prop :=
  length l = n /\ forallb isDigit l = true.

(** [YYYY-MM-DD] *)
Definition iso_form (s : jsstring) : Prop :=
  exists y m d, digits 4 y /\ digits 2 m /\ digits 2 d /\
    s = y ++ str "-" ++ m ++ str "-" ++ d.

(** [DD[./-]MM[./-]YYYY] with day [d], month [m], year [y] *)
Definition dmy_form (s d m y : jsstring) : Prop :=
  exists a b, digits 2 d /\ digits 2 m /\ digits 4 y /\
    isDateSep a = true /\ isDateSep b = true /\ s = d ++ a :: m ++ b :: y.

(** [YYYY[./-]MM[./-]DD] *)
Definition ymd_form (s y m d : jsstring) : Prop :=
  exists a b, digits 4 y /\ digits 2 m /\ digits 2 d /\
    isDateSep a = true /\ isDateSep b = true /\ s = y ++ a :: m ++ b :: d.

(** [YYYY[/-]MM] *)
Definition ym_form (s y m : jsstring) : Prop :=
  exists a, digits 4 y /\ digits 2 m /\ isMonthSep a = true /\ s = y ++ a :: m.

(** A form [P] occurs somewhere inside [s]. *)
Definition occurs (P : jsstring -> jsstring -> jsstring -> jsstring -> Prop)
  (s : jsstring) : Prop :=
  exists pre w post p q r, s = pre ++ w ++ post /\ P w p q r.

(** The leftmost occurrence of a form [P] inside [s] has the parts [p q r]. *)
Definition leftmost (P : jsstring -> jsstring -> jsstring -> jsstring -> Prop)
  (s p q r : jsstring) : Prop :=
  exists pre w post, s = pre ++ w ++ post /\ P w p q r /\
    forall pre' w' post' p' q' r',
      s = pre' ++ w' ++ post' -> P w' p' q' r' -> (length pre <= length pre')%nat.

(** [y-m-d] *)
Definition ymd_text (y m d : jsstring) : jsstring :=
  y ++ str "-" ++ m ++ str "-" ++ d.

(** An input none of the four forms describes. *)
Definition other_input (text : jsstring) : Prop :=
  ~ iso_form text /\ (forall d m y, ~ dmy_form text d m y) /\
  (forall y m d, ~ ymd_form text y m d) /\ (forall y m, ~ ym_form text y m).

(** A text written with single quotes where it has double quotes. *)
Definition js (s : string) : jsstring :=
  map (fun c => if (c =? 39)%N then 34%N else c) (str s).

(** A host for the examples that prints a number as its literal stands and
    takes a literal for zero when it has no digit other than 0. No example
    below depends on how numbers are printed. *)
Definition literalNumbers : NumberOps :=
  {| Number_toString := fun lit => lit;
     Number_isZero := fun lit =>
       forallb (fun c => negb (isDigit c) || (c =? 48)%N) lit |}.

Module PageSpec.
Import Page.
Local Open Scope Z_scope.

(** The number a string of decimal digits writes. *)
Definition digitsValue (l : jsstring) : Z :=
  fold_left (fun acc c => acc * 10 + (Z.of_N c - 48)) l 0.

(** The Gregorian calendar. *)
Definition isLeap (y : Z) : bool :=
  ((y mod 4 =? 0) && negb (y mod 100 =? 0)) || (y mod 400 =? 0).

Definition daysInMonth (y m : Z) : Z :=
  if m =? 2 then (if isLeap y then 29 else 28)
  else if (m =? 4) || (m =? 6) || (m =? 9) || (m =? 11) then 30 else 31.

(** Days from 1970-01-01 to the civil date [y]-[m]-[d]. *)
Definition daysFromCivil (y m d : Z) : Z :=
  let y' := if m <=? 2 then y - 1 else y in
  let era := y' / 400 in
  let yoe := y' - era * 400 in
  let mp := (m + 9) mod 12 in
  let doy := (153 * mp + 2) / 5 + d - 1 in
  let doe := yoe * 365 + yoe / 4 - yoe / 100 + doy in
  era * 146097 + doe - 719468.

(** A date host for the examples: it reads the date-only form [YYYY-MM-DD]
    of a real calendar day as midnight UTC, which is what ECMAScript
    prescribes for that form, and answers [NaN] for any other text (hosts
    differ there). *)
Definition isoDateOnly (s : jsstring) : option Z :=
  match s with
  | [y1; y2; y3; y4; a; m1; m2; b; d1; d2] =>
      if iso_whole s then
        let y := digitsValue [y1; y2; y3; y4] in
        let m := digitsValue [m1; m2] in
        let d := digitsValue [d1; d2] in
        if (1 <=? m) && (m <=? 12) && (1 <=? d) && (d <=? daysInMonth y m)
        then Some (daysFromCivil y m d * MS_PER_DAY)
        else None
      else None
  | _ => None
  end.

(** The host built on it. *)
Definition isoHost : DateHost := {| Date_parse := isoDateOnly |}.

(** Today is 2025-01-01, midnight UTC. *)
Definition newYear2025 : Z := 1735689600000.

End PageSpec.

Module SessionSpec.
Import Session.

(** The state of a session: the stored one, or the default one when the
    identifier has not been referenced yet. *)
Definition current (sid : jsstring) (sessions : Sessions) : SessionState :=
  match sessions !! sid with
  | Some st => st
  | None => defaultState
  end.

(** [mobile-<now>-<position>] *)
Definition imageId (now : Z) (position : nat) : jsstring :=
  str "mobile-" ++ decZ now ++ str "-" ++ decNat position.

(** The test that sends a POST to the multipart branch. *)
Definition multipart (req : Request) : bool :=
  includes (str "multipart/form-data")
    (match contentType req with Some t => t | None => [] end).

(** The data URL of an upload: [data:], the declared type of the file
    ([image/jpeg] when it declares none), [;base64,] and the content. *)
Definition uploadUrl (file : File) : jsstring :=
  str "data:" ++
  (match file_type file with [] => str "image/jpeg" | t => t end) ++
  str ";base64," ++ base64 (file_bytes file).

(** Decimal digits only. *)
Definition allDigits (s : jsstring) : Prop := Forall (fun c => isDigit c = true) s.

(** The text after the last occurrence of a code unit. *)
Fixpoint afterLast (c : N) (s : jsstring) : option jsstring :=
  match s with
  | [] => None
  | x :: s' =>
      match afterLast c s' with
      | Some r => Some r
      | None => if (x =? c)%N then Some s' else None
      end
  end.

(** Every image sits at the position its identifier names. *)
Definition positional (st : SessionState) : Prop :=
  forall k img, images st !! k = Some img -> exists t, id img = imageId t k.

(** What a non-empty string under [image] adds to the images. *)
Definition appended (now : Z) (body : jsvalue) (st : SessionState)
  : list SessionImage :=
  match asString (getProp body (str "image")) with
  | Some (c :: image) =>
      [{| id := imageId now (length (images st)); dataUrl := c :: image;
          product := []; expiryDate := [] |}]
  | _ => []
  end.

(** Every stored session is positional. *)
Definition store_positional (sessions : Sessions) : Prop :=
  forall sid st, sessions !! sid = Some st -> positional st.

Section Reachable.
Context `{NumberOps}.

(** The stores the handlers can produce, starting from the empty map. *)
Inductive reachable : Sessions -> Prop :=
| reach_empty : reachable ∅
| reach_GET sessionId sessions :
    reachable sessions -> reachable (snd (GET sessionId sessions))
| reach_POST now sessionId req sessions :
    reachable sessions -> reachable (snd (POST now sessionId req sessions)).

End Reachable.

(** A request that uploads the three bytes [Man] as a PNG file. *)
Definition pngUpload : Request :=
  {| contentType := Some (str "multipart/form-data; boundary=x");
     formData := Some [(str "image",
                        FFile {| file_type := str "image/png";
                                 file_bytes := [Byte.x4d; Byte.x61; Byte.x6e] |})];
     bodyText := [] |}.

(** The same bytes declared as a PDF document. *)
Definition pdfUpload : Request :=
  {| contentType := Some (str "multipart/form-data; boundary=x");
     formData := Some [(str "image",
                        FFile {| file_type := str "application/pdf";
                                 file_bytes := [Byte.x4d; Byte.x61; Byte.x6e] |})];
     bodyText := [] |}.

(** A JSON request with the given body. *)
Definition jsonRequest (body : string) : Request :=
  {| contentType := Some (str "application/json");
     formData := None;
     bodyText := js body |}.

(** Two uploads to one session within the same millisecond. *)
Definition twoUploads : Sessions :=
  snd (@POST literalNumbers 1700000000000 (Some (str "s1")) pngUpload
    (snd (@POST literalNumbers 1700000000000 (Some (str "s1"))
            (jsonRequest "{'image':'data:image/png;base64,TWFu'}") ∅))).

End SessionSpec.

Module AnalyzeSpec.
Import Analyze.

(** What [re_placeholder] makes of a whole string. *)
Definition placeholder_whole (s : jsstring) : bool :=
  match s with
  | c1 :: c2 :: c3 :: c4 :: c5 :: c6 :: c7 :: c8 :: d :: ds =>
      (112 =? c1) && (114 =? c2) && (111 =? c3) && (100 =? c4) && (117 =? c5)
      && (99 =? c6) && (116 =? c7) && (95 =? c8) && isDigit d && forallb isDigit ds
  | _ => false
  end.

(** [product_] followed by one or more digits and nothing else *)
Definition placeholder_form (s : jsstring) : Prop :=
  exists ds, s = str "product_" ++ ds /\ ds <> [] /\ forallb isDigit ds = true.

(** The code unit [c] does not occur in [s]. *)
Definition noUnit (c : N) (s : jsstring) : Prop := Forall (fun x => x <> c) s.

(** The longest prefix of [s] whose code units satisfy [p], and what is
    left after it. *)
Fixpoint run (p : N -> bool) (s : jsstring) : jsstring :=
  match s with
  | x :: s' => if p x then x :: run p s' else []
  | [] => []
  end.

Fixpoint after_run (p : N -> bool) (s : jsstring) : jsstring :=
  match s with
  | x :: s' => if p x then after_run p s' else s
  | [] => []
  end.

(** [s] without the prefix [l], when it starts with it. *)
Fixpoint stripPrefix (l s : jsstring) : option jsstring :=
  match l, s with
  | [], _ => Some s
  | _ :: _, [] => None
  | a :: l', b :: s' => if a =? b then stripPrefix l' s' else None
  end.

(** The longest prefix of [s] made of items that are either one code unit
    other than the quote and the backslash, or a backslash and a code unit
    that is not a line terminator; and what is left after it. *)
Fixpoint content (s : jsstring) : jsstring :=
  match s with
  | [] => []
  | x :: s' =>
      if notQuoteNorBackslash x then x :: content s'
      else if backslash =? x then
        match s' with
        | y :: s'' => if dot y then x :: y :: content s'' else []
        | [] => []
        end
      else []
  end.

Fixpoint after_content (s : jsstring) : jsstring :=
  match s with
  | [] => []
  | x :: s' =>
      if notQuoteNorBackslash x then after_content s'
      else if backslash =? x then
        match s' with
        | y :: s'' => if dot y then after_content s'' else s
        | [] => s
        end
      else s
  end.

(** What a match of the fallback expression for the field [name] reports
    when tried at the head of [u]. *)
Definition field_here (name : string) (u : jsstring) : option result :=
  let qname := quote :: str name ++ [quote] in
  match stripPrefix qname u with
  | None => None
  | Some r1 =>
      match after_run isWhiteSpace r1 with
      | x :: r3 =>
          if 58 =? x then
            match after_run isWhiteSpace r3 with
            | y :: r5 =>
                if quote =? y then
                  match after_content r5 with
                  | z :: _ =>
                      if quote =? z then
                        Some (qname ++ run isWhiteSpace r1 ++ [x]
                                ++ run isWhiteSpace r3 ++ [y] ++ content r5 ++ [z],
                              [(1%nat, content r5)])
                      else None
                  | [] => None
                  end
                else None
            | [] => None
            end
          else None
      | [] => None
      end
  end.

(** The text between the quotes of a value the fallback accepts. *)
Inductive quoted_content : jsstring -> Prop :=
| qc_nil : quoted_content []
| qc_plain x v :
    notQuoteNorBackslash x = true -> quoted_content v -> quoted_content (x :: v)
| qc_escape y v :
    dot y = true -> quoted_content v -> quoted_content (backslash :: y :: v).

(** [w] is the field [name] with the value text [v]: the quoted name,
    white space, a colon, white space, and [v] between quotes. *)
Definition field_form (name : string) (w v : jsstring) : Prop :=
  exists ws1 ws2,
    forallb isWhiteSpace ws1 = true /\ forallb isWhiteSpace ws2 = true /\
    quoted_content v /\
    w = (quote :: str name ++ [quote]) ++ ws1 ++ [58] ++ ws2 ++ [quote]
          ++ v ++ [quote].

(** The leftmost place in [s] where the field [name] stands has the value
    text [v]; the field stands nowhere in [s]. *)
Definition field_first (name : string) (s v : jsstring) : Prop :=
  leftmost (fun w v' _ _ => field_form name w v') s v [] [].

Definition field_absent (name : string) (s : jsstring) : Prop :=
  ~ occurs (fun w v' _ _ => field_form name w v') s.

(** [u] is the value text [v] with its escaped quotes undone: [v] is read
    item by item as the fallback expressions read it, an item being one
    code unit other than the quote and the backslash, or a backslash and
    the code unit after it; the item made of a backslash and a double
    quote becomes a double quote and every other item is kept. *)
Inductive unescaped : jsstring -> jsstring -> Prop :=
| un_nil : unescaped [] []
| un_plain x v u :
    notQuoteNorBackslash x = true -> unescaped v u -> unescaped (x :: v) (x :: u)
| un_quote v u :
    unescaped v u -> unescaped (backslash :: quote :: v) (quote :: u)
| un_other y v u :
    dot y = true -> y <> quote -> unescaped v u ->
    unescaped (backslash :: y :: v) (backslash :: y :: u).




(** A value [String] converts without throwing whatever it holds: absent,
    [null], a boolean, a number or a string. *)
Definition stringLike (o : option jsvalue) : Prop :=
  match o with
  | Some (JArray _) | Some (JObject _) => False
  | _ => True
  end.

(** [extracted] before the reply is read. *)
Definition nothing : AnalyzeResponse := {| product := []; expiryDate := [] |}.

(** The reply of the specification's example. *)
Definition sharpsReply : jsstring :=
  js "{'product':'SHARPS CONTAINER 10L','expiryDate':'2027-01-01'}".

(** What it should be read as. *)
Definition sharps : AnalyzeResponse :=
  {| product := str "SHARPS CONTAINER 10L"; expiryDate := str "2027-01-01" |}.




(** A reply that was cut off before the closing brace, with a product of
    121 letters. *)
Definition longReply : jsstring :=
  js "{'product':'" ++ repeat 65 121 ++ js "','expiryDate':'2027-01-01'".

(** A form with an image and no manual override. *)
Definition imageOnly : FormData :=
  [(str "image", FFile {| file_type := str "image/jpeg";
                          file_bytes := [Byte.xff; Byte.xd8] |})].

End AnalyzeSpec.

(** ** Requests to the relay *)

Module RelaySpec.
Import Session SessionSpec.

Section Requests.
Context `{NumberOps}.

(** One request to the session route changes the store from [sessions] to
    [sessions']. *)
Inductive request : Sessions -> Sessions -> Prop :=
| request_GET sessionId sessions :
    request sessions (snd (GET sessionId sessions))
| request_POST now sessionId req sessions :
    request sessions (snd (POST now sessionId req sessions)).

(** Any number of requests, one after the other. *)
Inductive requests : Sessions -> Sessions -> Prop :=
| requests_none sessions : requests sessions sessions
| requests_more sessions sessions1 sessions2 :
    requests sessions sessions1 -> request sessions1 sessions2 ->
    requests sessions sessions2.

End Requests.

(** The four keys the JSON branch reads. *)
Definition knownKeys : list jsstring :=
  [str "mobileConnected"; str "webConnected"; str "command"; str "image"].

End RelaySpec.

(** ** Reading a data URL back *)

Module DataUrlSpec.
Import Session SessionSpec AnalyzeSpec.

(** The value of a code unit of the base 64 alphabet. *)
Definition b64value (c : N) : option N :=
  if (65 <=? c) && (c <=? 90) then Some (c - 65)
  else if (97 <=? c) && (c <=? 122) then Some (c - 71)
  else if (48 <=? c) && (c <=? 57) then Some (c + 4)
  else if c =? 43 then Some 62
  else if c =? 47 then Some 63
  else None.

(** Reading base 64 back, four code units at a time, with [=] padding in
    the last group. *)
Fixpoint base64Decode (s : jsstring) : option (list Byte.byte) :=
  match s with
  | [] => Some []
  | a :: b :: c :: d :: s' =>
      match b64value a, b64value b with
      | Some x, Some y =>
          if (c =? 61) && (d =? 61) then
            match s', Byte.of_N (x * 4 + y / 16) with
            | [], Some b1 => Some [b1]
            | _, _ => None
            end
          else
            match b64value c with
            | Some z =>
                if d =? 61 then
                  match s', Byte.of_N (x * 4 + y / 16),
                        Byte.of_N ((y mod 16) * 16 + z / 4) with
                  | [], Some b1, Some b2 => Some [b1; b2]
                  | _, _, _ => None
                  end
                else
                  match b64value d, base64Decode s' with
                  | Some w, Some rest =>
                      match Byte.of_N (x * 4 + y / 16),
                            Byte.of_N ((y mod 16) * 16 + z / 4),
                            Byte.of_N ((z mod 4) * 64 + w) with
                      | Some b1, Some b2, Some b3 => Some (b1 :: b2 :: b3 :: rest)
                      | _, _, _ => None
                      end
                  | _, _ => None
                  end
            | None => None
            end
      | _, _ => None
      end
  | _ => None
  end.

(** Reading a base 64 data URL back: the type up to the first semicolon
    and the bytes. *)
Definition readDataUrl (u : jsstring) : option (jsstring * list Byte.byte) :=
  match stripPrefix (str "data:") u with
  | None => None
  | Some r =>
      let mime := run (fun c => negb (c =? 59)) r in
      match stripPrefix (str ";base64,") (after_run (fun c => negb (c =? 59)) r) with
      | None => None
      | Some payload =>
          match base64Decode payload with
          | Some bytes => Some (mime, bytes)
          | None => None
          end
      end
  end.

End DataUrlSpec.

(** ** The analyze route as a whole *)

Module ExtractionSpec.
Import Analyze AnalyzeSpec.

(** A host that lowers the Latin capital letters and leaves every other
    code unit, for the examples. *)
Definition asciiLower : CaseHost :=
  {| toLowerCase :=
       map (fun c => if (65 <=? c) && (c <=? 90) then c + 32 else c) |}.


(** A form with an image and both manual fields. *)
Definition manualForm : FormData :=
  [(str "image", FFile {| file_type := str "image/jpeg";
                          file_bytes := [Byte.xff; Byte.xd8] |});
   (str "manualProduct", FText (str " Oat milk "));
   (str "manualDate", FText (str "06/07/2029"))].

End ExtractionSpec.

(** ** The page component *)

Module UiSpec.
Import Page Ui AnalyzeSpec DataUrlSpec.

(** A reader of quoted CSV, for the round trip of the export: every cell
    stands between double quotes, a doubled quote inside a cell is one
    quote, cells are parted by commas and rows by line feeds.  The answer
    is the table read, [None] when the text is not of that form. *)
Definition consUnit (c : N) (r : option (list (list jsstring)))
  : option (list (list jsstring)) :=
  match r with
  | Some ((cell :: row) :: rows) => Some (((c :: cell) :: row) :: rows)
  | _ => None
  end.

Definition newCell (r : option (list (list jsstring)))
  : option (list (list jsstring)) :=
  match r with
  | Some (row :: rows) => Some (([] :: row) :: rows)
  | _ => None
  end.

Definition newRow (r : option (list (list jsstring)))
  : option (list (list jsstring)) :=
  match r with
  | Some rows => Some ([[]] :: rows)
  | None => None
  end.

(** Reading on inside a cell, after its opening quote. *)
Fixpoint inCell (s : jsstring) : option (list (list jsstring)) :=
  match s with
  | [] => None
  | c :: s1 =>
      if c =? 34 then
        match s1 with
        | [] => Some [[[]]]
        | d :: s2 =>
            if d =? 34 then consUnit 34 (inCell s2)
            else if d =? 44 then
              match s2 with
              | e :: s3 => if e =? 34 then newCell (inCell s3) else None
              | [] => None
              end
            else if d =? 10 then
              match s2 with
              | e :: s3 => if e =? 34 then newRow (inCell s3) else None
              | [] => None
              end
            else None
        end
      else consUnit c (inCell s1)
  end.

Definition readCsv (s : jsstring) : option (list (list jsstring)) :=
  match s with
  | c :: s1 => if c =? 34 then inCell s1 else None
  | [] => None
  end.

(** The text of a row after its first quote. *)
Fixpoint rowBody (c : jsstring) (cs : list jsstring) : jsstring :=
  match cs with
  | [] => doubleQuotes c ++ [34]
  | c' :: cs' => doubleQuotes c ++ 34 :: 44 :: 34 :: rowBody c' cs'
  end.

(** [t] occurs in [s]. *)
Definition substring (t s : jsstring) : Prop := exists pre post, s = pre ++ t ++ post.

(** The references agree with the list: the effect that follows a change
    of the list would leave them as they are. *)
Definition synced (held : Held) : Prop := syncRefs held = held.

(** A browser whose object URLs are made of the file name and whose
    [fetch] reads base 64 data URLs, for the examples. *)
Definition exampleBrowser : BrowserHost :=
  {| createObjectURL := fun f => str "blob:" ++ name f;
     fetchBlob := fun u =>
       match readDataUrl u with
       | Some (m, b) => Some {| file_type := m; file_bytes := b |}
       | None => None
       end |}.

Definition photo (n : jsstring) : NamedFile :=
  {| name := n;
     blob := {| file_type := str "image/png"; file_bytes := [Byte.x89; Byte.x50] |} |}.

(** A page that holds nothing yet. *)
Definition nothingHeld : Held :=
  {| images := []; seenImageIds := ∅; imagesLength := 0; mobileConnected := false |}.

(** The session after one PNG upload of the phone. *)
Definition oneUpload : Session.SessionState :=
  {| Session.mobileConnected := true; Session.webConnected := true;
     Session.command := None;
     Session.images :=
       [{| Session.id := str "mobile-1700000000000-0";
           Session.dataUrl := str "data:image/png;base64,TWFu";
           Session.product := []; Session.expiryDate := [] |}] |}.

Definition item (i p e : jsstring) (s : Status) : UploadedImage :=
  {| id := i; file := photo (str "a.png"); url := str "blob:a.png";
     product := p; expiryDate := e; status := s |}.

End UiSpec.

(** * Properties *)

(** ** Strings and trimming *)

Lemma isDigit_not_space c : isDigit c = true -> isWhiteSpace c = false.
Proof.
  unfold isDigit, isWhiteSpace. intros Hd.
  apply andb_true_iff in Hd as [H1 H2].
  apply N.leb_le in H1. apply N.leb_le in H2.
  repeat (apply orb_false_iff; split);
    try (apply N.eqb_neq; lia).
  apply andb_false_iff. left. apply N.leb_gt. lia.
Qed.

Lemma trimStart_keeps c s : isWhiteSpace c = false -> trimStart (c :: s) = c :: s.
Proof. intros Hc. simpl. rewrite Hc. reflexivity. Qed.

Lemma trimEnd_keeps s c : isWhiteSpace c = false -> trimEnd (s ++ [c]) = s ++ [c].
Proof.
  intros Hc. unfold trimEnd. rewrite rev_app_distr. simpl. rewrite Hc.
  simpl. rewrite rev_involutive. reflexivity.
Qed.

(** A string that neither starts nor ends with white space is its own trim. *)
Lemma trim_id a s b :
  isWhiteSpace a = false -> isWhiteSpace b = false ->
  trim (a :: s ++ [b]) = a :: s ++ [b].
Proof.
  intros Ha Hb. unfold trim. rewrite trimStart_keeps by exact Ha.
  change (a :: s ++ [b]) with ((a :: s) ++ [b]). apply trimEnd_keeps, Hb.
Qed.

Lemma trimStart_idem s : trimStart (trimStart s) = trimStart s.
Proof.
  induction s as [|c s IH]; simpl; [reflexivity|].
  destruct (isWhiteSpace c) eqn:E; [exact IH|]. simpl. rewrite E. reflexivity.
Qed.

(** ** The matcher on the expressions of the date normalizer *)

Lemma search_first r here :
  (forall i rest, rmatch r i rest [] accept = here rest) ->
  forall rest i, search r i rest = first_suffix here rest.
Proof.
  intros Hh. induction rest as [|x rest IH]; intros i; simpl; rewrite Hh.
  - reflexivity.
  - destruct (here (x :: rest)); [reflexivity|]. apply IH.
Qed.

Lemma first_suffix_None here s :
  first_suffix here s = None <-> (forall pre u, s = pre ++ u -> here u = None).
Proof.
  induction s as [|x s IH]; simpl.
  - split.
    + intros Hn pre u E. symmetry in E. apply app_eq_nil in E as [-> ->].
      destruct (here []); [discriminate|reflexivity].
    + intros Hn. rewrite (Hn [] [] eq_refl). reflexivity.
  - split.
    + intros Hn pre u E. destruct (here (x :: s)) eqn:Hx; [discriminate|].
      destruct pre as [|p pre]; simpl in E.
      * subst u. exact Hx.
      * injection E as _ E. apply (proj1 IH Hn pre u E).
    + intros Hn. rewrite (Hn [] (x :: s) eq_refl).
      apply IH. intros pre u E. apply (Hn (x :: pre) u). simpl. now rewrite E.
Qed.

Lemma first_suffix_Some here s pre u x :
  s = pre ++ u -> here u = Some x ->
  (forall pre' u', s = pre' ++ u' -> (length pre' < length pre)%nat -> here u' = None) ->
  first_suffix here s = Some x.
Proof.
  revert s. induction pre as [|p pre IH]; intros s E Hu Hmin; simpl in E; subst s.
  - destruct u; simpl; rewrite Hu; reflexivity.
  - simpl. rewrite (Hmin [] (p :: pre ++ u) eq_refl) by (simpl; lia).
    apply IH; [reflexivity|exact Hu|].
    intros pre' u' E' Hl. apply (Hmin (p :: pre') u'); simpl; [now rewrite E'|lia].
Qed.

(** An expression that starts with [^] can only match at index 0. *)
Lemma search_Bol r s :
  search (Seq Bol r) 0%nat s = rmatch (Seq Bol r) 0%nat s [] accept.
Proof.
  assert (Hlater : forall rest i, search (Seq Bol r) (S i) rest = None).
  { induction rest as [|x rest IH]; intros i; simpl; [reflexivity|apply IH]. }
  destruct s as [|x s]; simpl.
  - destruct (rmatch r 0%nat [] [] _); reflexivity.
  - destruct (rmatch r 0%nat (x :: s) [] _); [reflexivity|apply Hlater].
Qed.

(** Runs the matcher on a fixed-shape expression: one input code unit and
    one class test at a time. *)
Ltac run_fixed :=
  repeat first
    [ reflexivity
    | match goal with
      | |- context [match ?l with [] => _ | _ :: _ => _ end] =>
          is_var l; destruct l; cbn [rmatch Times Lit str app accept Nat.eqb]
      | |- context [if ?b then _ else _] =>
          match type of b with bool => idtac end;
          destruct b; cbn [rmatch Times Lit str app accept andb Nat.eqb]
      end ].

Lemma rmatch_dmy i rest : rmatch re_dmy i rest [] accept = dmy_here rest.
Proof.
  unfold re_dmy, dmy_here, digit.
  cbn [rmatch Times Lit str app accept]. run_fixed.
Qed.

Lemma rmatch_ymd i rest : rmatch re_ymd i rest [] accept = ymd_here rest.
Proof.
  unfold re_ymd, ymd_here, digit.
  cbn [rmatch Times Lit str app accept]. run_fixed.
Qed.

Lemma exec_dmy s : exec re_dmy s = first_suffix dmy_here s.
Proof. apply search_first. intros; apply rmatch_dmy. Qed.

Lemma exec_ymd s : exec re_ymd s = first_suffix ymd_here s.
Proof. apply search_first. intros; apply rmatch_ymd. Qed.

Lemma test_iso s : test re_iso s = iso_whole s.
Proof.
  unfold test, exec, re_iso. rewrite search_Bol.
  unfold iso_whole, digit.
  change (Lit (str "-")) with (Seq (Class (N.eqb 45)) Eps).
  cbn [rmatch Times app accept Nat.eqb]. run_fixed.
Qed.

Lemma exec_ym s : exec re_ym s = ym_whole s.
Proof.
  unfold exec, re_ym. rewrite search_Bol.
  unfold ym_whole, digit.
  cbn [rmatch Times Lit str app accept Nat.eqb]. run_fixed.
Qed.

(** ** The forms of the date normalizer, stated on the text *)

Ltac by_length l H :=
  repeat (destruct l as [|? l]; simpl in H; try discriminate H).

Ltac split_digits :=
  repeat match goal with
    | H : digits _ ?l |- _ =>
        let Hl := fresh "Hl" in let Hd := fresh "Hd" in
        destruct H as [Hl Hd]; by_length l Hl; clear Hl; simpl in Hd
    end.

Ltac split_andb :=
  repeat match goal with
    | H : _ && _ = true |- _ => apply andb_true_iff in H; destruct H
    end.

Lemma digits_intro n l : length l = n -> forallb isDigit l = true -> digits n l.
Proof. intros; split; assumption. Qed.

Lemma dmy_here_Some u w c :
  dmy_here u = Some (w, c) <->
  exists d m y post, u = w ++ post /\ dmy_form w d m y /\
    c = [(3%nat, y); (2%nat, m); (1%nat, d)].
Proof.
  split.
  - unfold dmy_here. intros Hh.
    do 10 (destruct u as [|? u]; [discriminate Hh|]).
    match type of Hh with (if ?b then _ else _) = _ => destruct b eqn:Hb end;
      [|discriminate Hh].
    injection Hh as <- <-. split_andb.
    eexists [_; _], [_; _], [_; _; _; _], u. split; [reflexivity|]. split; [|reflexivity].
    eexists _, _. repeat split; simpl; try reflexivity; try assumption;
      repeat match goal with H : _ = true |- _ => rewrite H; clear H end;
      reflexivity.
  - intros (d & m & y & post & -> & (a & b & Hd & Hm & Hy & Ha & Hb & ->) & ->).
    split_digits. split_andb. simpl.
    repeat match goal with H : _ = true |- _ => rewrite H; clear H end.
    reflexivity.
Qed.

Lemma ymd_here_Some u w c :
  ymd_here u = Some (w, c) <->
  exists y m d post, u = w ++ post /\ ymd_form w y m d /\
    c = [(3%nat, d); (2%nat, m); (1%nat, y)].
Proof.
  split.
  - unfold ymd_here. intros Hh.
    do 10 (destruct u as [|? u]; [discriminate Hh|]).
    match type of Hh with (if ?b then _ else _) = _ => destruct b eqn:Hb end;
      [|discriminate Hh].
    injection Hh as <- <-. split_andb.
    eexists [_; _; _; _], [_; _], [_; _], u. split; [reflexivity|]. split; [|reflexivity].
    eexists _, _. repeat split; simpl; try reflexivity; try assumption;
      repeat match goal with H : _ = true |- _ => rewrite H; clear H end;
      reflexivity.
  - intros (y & m & d & post & -> & (a & b & Hy & Hm & Hd & Ha & Hb & ->) & ->).
    split_digits. split_andb. simpl.
    repeat match goal with H : _ = true |- _ => rewrite H; clear H end.
    reflexivity.
Qed.

(** The search for a form, given what a match at one place means. *)
Section Occurrence.
Variable here : jsstring -> option result.
Variable P : jsstring -> jsstring -> jsstring -> jsstring -> Prop.
Variable mk : jsstring -> jsstring -> jsstring -> caps.
Hypothesis here_Some : forall u w c,
  here u = Some (w, c) <->
  exists p q r post, u = w ++ post /\ P w p q r /\ c = mk p q r.

Lemma first_suffix_absent s : ~ occurs P s -> first_suffix here s = None.
Proof.
  intros Hno. apply first_suffix_None. intros pre u E.
  destruct (here u) as [[w c]|] eqn:Hu; [|reflexivity].
  apply here_Some in Hu as (p & q & r & post & -> & HP & _).
  exfalso. apply Hno. exists pre, w, post, p, q, r. split; assumption.
Qed.

Lemma first_suffix_leftmost s p q r :
  leftmost P s p q r -> exists w, first_suffix here s = Some (w, mk p q r).
Proof.
  intros (pre & w & post & E & HP & Hmin). exists w.
  apply (first_suffix_Some here s pre (w ++ post)); [exact E| |].
  - apply here_Some. exists p, q, r, post. repeat split. exact HP.
  - intros pre' u' E' Hlt.
    destruct (here u') as [[w' c']|] eqn:Hu; [|reflexivity].
    apply here_Some in Hu as (p' & q' & r' & post' & -> & HP' & _).
    specialize (Hmin pre' w' post' p' q' r' E' HP'). lia.
Qed.

End Occurrence.

Lemma iso_whole_iff s : iso_whole s = true <-> iso_form s.
Proof.
  split.
  - unfold iso_whole. intros Hh.
    do 10 (destruct s as [|? s]; [discriminate Hh|]).
    destruct s; [|discriminate Hh]. split_andb.
    repeat match goal with H : (45 =? _) = true |- _ => apply N.eqb_eq in H; subst end.
    eexists [_; _; _; _], [_; _], [_; _].
    repeat split; simpl;
      repeat match goal with H : isDigit _ = true |- _ => rewrite H; clear H end;
      reflexivity.
  - intros (y & m & d & Hy & Hm & Hd & ->).
    split_digits. split_andb. simpl.
    repeat match goal with H : _ = true |- _ => rewrite H; clear H end.
    reflexivity.
Qed.

Lemma ym_whole_Some s y m :
  ym_form s y m -> ym_whole s = Some (s, [(2%nat, m); (1%nat, y)]).
Proof.
  intros (a & Hy & Hm & Ha & ->).
  split_digits. split_andb. simpl.
  repeat match goal with H : _ = true |- _ => rewrite H; clear H end.
  reflexivity.
Qed.

Lemma ym_whole_None s : (forall y m, ~ ym_form s y m) -> ym_whole s = None.
Proof.
  intros Hno. destruct (ym_whole s) as [[w c]|] eqn:Hh; [|reflexivity].
  exfalso. unfold ym_whole in Hh.
  do 7 (destruct s as [|? s]; [discriminate Hh|]).
  destruct s; [|discriminate Hh].
  match type of Hh with (if ?b then _ else _) = _ => destruct b eqn:Hb end;
    [|discriminate Hh].
  split_andb.
  apply (Hno [n; n0; n1; n2] [n4; n5]). exists n3.
  repeat split; simpl; try assumption;
    repeat match goal with H : isDigit _ = true |- _ => rewrite H; clear H end;
    reflexivity.
Qed.

Lemma form_length_dmy w d m y : dmy_form w d m y -> length w = 10%nat.
Proof. intros (a & b & Hd & Hm & Hy & _ & _ & ->). split_digits. reflexivity. Qed.

Lemma form_length_ymd w y m d : ymd_form w y m d -> length w = 10%nat.
Proof. intros (a & b & Hy & Hm & Hd & _ & _ & ->). split_digits. reflexivity. Qed.

Lemma digit_not_sep c : isDigit c = true -> isDateSep c = false.
Proof.
  unfold isDigit, isDateSep. intros Hd. apply andb_true_iff in Hd as [H1 H2].
  apply N.leb_le in H1. apply N.leb_le in H2.
  repeat (apply orb_false_iff; split); apply N.eqb_neq; lia.
Qed.

Lemma occurs_length P s n :
  (forall w p q r, P w p q r -> length w = n) -> occurs P s -> (n <= length s)%nat.
Proof.
  intros HP (pre & w & post & p & q & r & -> & Hw).
  rewrite !length_app, (HP _ _ _ _ Hw). lia.
Qed.

(** In a string of ten code units a ten-unit form can only be the whole. *)
Lemma occurs_whole P s :
  (forall w p q r, P w p q r -> length w = 10%nat) -> length s = 10%nat ->
  occurs P s -> exists p q r, P s p q r.
Proof.
  intros HP Hs (pre & w & post & p & q & r & -> & Hw).
  pose proof (HP _ _ _ _ Hw) as Hl. rewrite !length_app in Hs.
  destruct pre; [|simpl in Hs; lia]. destruct post; [|simpl in Hs; lia].
  simpl. rewrite app_nil_r. eauto.
Qed.

(** ** The date normalizer on any input *)

Lemma not_iso_test s : ~ iso_form s -> test re_iso s = false.
Proof.
  intros Hno. rewrite test_iso. destruct (iso_whole s) eqn:E; [|reflexivity].
  exfalso. apply Hno, iso_whole_iff, E.
Qed.

Lemma coerce_iso text :
  iso_form (trim text) -> coerceIsoDate text = trim text.
Proof.
  intros Hi. unfold coerceIsoDate. cbv zeta.
  rewrite test_iso. apply iso_whole_iff in Hi. rewrite Hi. reflexivity.
Qed.

Lemma coerce_dmy text d m y :
  ~ iso_form (trim text) -> leftmost dmy_form (trim text) d m y ->
  coerceIsoDate text = ymd_text y m d.
Proof.
  intros Hi Hl. unfold coerceIsoDate. cbv zeta.
  rewrite (not_iso_test _ Hi), exec_dmy.
  destruct (first_suffix_leftmost dmy_here dmy_form
              (fun d m y => [(3%nat, y); (2%nat, m); (1%nat, d)])
              dmy_here_Some _ _ _ _ Hl) as [w ->].
  reflexivity.
Qed.

Lemma coerce_ymd text y m d :
  ~ iso_form (trim text) -> ~ occurs dmy_form (trim text) ->
  leftmost ymd_form (trim text) y m d ->
  coerceIsoDate text = ymd_text y m d.
Proof.
  intros Hi Hno Hl. unfold coerceIsoDate. cbv zeta.
  rewrite (not_iso_test _ Hi), exec_dmy.
  rewrite (first_suffix_absent dmy_here dmy_form _ dmy_here_Some _ Hno).
  rewrite exec_ymd.
  destruct (first_suffix_leftmost ymd_here ymd_form
              (fun y m d => [(3%nat, d); (2%nat, m); (1%nat, y)])
              ymd_here_Some _ _ _ _ Hl) as [w ->].
  reflexivity.
Qed.

Lemma ym_not_iso s y m : ym_form s y m -> ~ iso_form s.
Proof.
  intros (a & Hy & Hm & _ & ->) (y' & m' & d' & Hy' & Hm' & Hd' & E).
  split_digits. discriminate E.
Qed.

Lemma coerce_ym text y m :
  ~ occurs dmy_form (trim text) -> ~ occurs ymd_form (trim text) ->
  ym_form (trim text) y m ->
  coerceIsoDate text = y ++ str "-" ++ m ++ str "-01".
Proof.
  intros Hno1 Hno2 Hf. unfold coerceIsoDate. cbv zeta.
  rewrite (not_iso_test _ (ym_not_iso _ _ _ Hf)), exec_dmy.
  rewrite (first_suffix_absent dmy_here dmy_form _ dmy_here_Some _ Hno1).
  rewrite exec_ymd.
  rewrite (first_suffix_absent ymd_here ymd_form _ ymd_here_Some _ Hno2).
  rewrite exec_ym, (ym_whole_Some _ _ _ Hf). reflexivity.
Qed.

Lemma coerce_other text :
  ~ iso_form (trim text) -> ~ occurs dmy_form (trim text) ->
  ~ occurs ymd_form (trim text) -> (forall y m, ~ ym_form (trim text) y m) ->
  coerceIsoDate text = trim text.
Proof.
  intros Hi Hno1 Hno2 Hno3. unfold coerceIsoDate. cbv zeta.
  rewrite (not_iso_test _ Hi), exec_dmy.
  rewrite (first_suffix_absent dmy_here dmy_form _ dmy_here_Some _ Hno1).
  rewrite exec_ymd.
  rewrite (first_suffix_absent ymd_here ymd_form _ ymd_here_Some _ Hno2).
  rewrite exec_ym, (ym_whole_None _ Hno3). reflexivity.
Qed.

(** ** The date normalizer on an input that is exactly of a form *)

Lemma trim_iso s : iso_form s -> trim s = s.
Proof.
  intros (y & m & d & Hy & Hm & Hd & ->). split_digits. split_andb.
  apply (trim_id _ [_; _; _; _; _; _; _; _]); apply isDigit_not_space; assumption.
Qed.

Lemma trim_dmy s d m y : dmy_form s d m y -> trim s = s.
Proof.
  intros (a & b & Hd & Hm & Hy & _ & _ & ->). split_digits. split_andb.
  apply (trim_id _ [_; _; _; _; _; _; _; _]); apply isDigit_not_space; assumption.
Qed.

Lemma trim_ymd s y m d : ymd_form s y m d -> trim s = s.
Proof.
  intros (a & b & Hy & Hm & Hd & _ & _ & ->). split_digits. split_andb.
  apply (trim_id _ [_; _; _; _; _; _; _; _]); apply isDigit_not_space; assumption.
Qed.

Lemma trim_ym s y m : ym_form s y m -> trim s = s.
Proof.
  intros (a & Hy & Hm & _ & ->). split_digits. split_andb.
  apply (trim_id _ [_; _; _; _; _]); apply isDigit_not_space; assumption.
Qed.

Lemma whole_leftmost P s p q r : P s p q r -> leftmost P s p q r.
Proof.
  intros HP. exists [], s, []. rewrite app_nil_r. repeat split; [exact HP|].
  intros; simpl; lia.
Qed.

(** The third code unit of [DD.MM.YYYY] is a separator, that of
    [YYYY.MM.DD] a digit. *)
Lemma dmy_ymd_apart s d m y y' m' d' : dmy_form s d m y -> ymd_form s y' m' d' -> False.
Proof.
  intros (a & b & Hd & Hm & Hy & Ha & Hb & ->) (a' & b' & Hy' & Hm' & Hd' & _ & _ & E).
  split_digits. simpl in E. injection E as -> -> -> -> -> -> -> -> -> ->.
  split_andb.
  match goal with
  | Hs : isDateSep ?c = true, Hd : isDigit ?c = true |- _ =>
      apply digit_not_sep in Hd; congruence
  end.
Qed.

Lemma dmy_not_iso s d m y : dmy_form s d m y -> ~ iso_form s.
Proof.
  intros Hf (y' & m' & d' & Hy' & Hm' & Hd' & E).
  apply (dmy_ymd_apart s d m y y' m' d' Hf).
  exists 45, 45. repeat split; try apply Hy'; try apply Hm'; try apply Hd'.
  exact E.
Qed.

Lemma coerce_dmy_exact text d m y :
  dmy_form text d m y -> coerceIsoDate text = ymd_text y m d.
Proof.
  intros Hf. apply coerce_dmy; rewrite (trim_dmy _ _ _ _ Hf).
  - eapply dmy_not_iso, Hf.
  - apply whole_leftmost, Hf.
Qed.

Lemma iso_is_ymd s : iso_form s -> exists y m d, ymd_form s y m d /\ s = ymd_text y m d.
Proof.
  intros (y & m & d & Hy & Hm & Hd & ->). exists y, m, d. split; [|reflexivity].
  exists 45, 45. repeat split; try apply Hy; try apply Hm; try apply Hd.
Qed.

Lemma ymd_form_parts s y m d y' m' d' :
  ymd_form s y m d -> ymd_form s y' m' d' -> y = y' /\ m = m' /\ d = d'.
Proof.
  intros (a & b & Hy & Hm & Hd & _ & _ & ->) (a' & b' & Hy' & Hm' & Hd' & _ & _ & E).
  split_digits. simpl in E. injection E as -> -> -> -> -> -> -> -> -> ->.
  repeat split.
Qed.

Lemma coerce_ymd_exact text y m d :
  ymd_form text y m d -> coerceIsoDate text = ymd_text y m d.
Proof.
  intros Hf. destruct (iso_whole text) eqn:Hi.
  - apply iso_whole_iff in Hi. rewrite coerce_iso; rewrite (trim_iso _ Hi); [|exact Hi].
    destruct (iso_is_ymd _ Hi) as (y' & m' & d' & Hf' & E).
    destruct (ymd_form_parts _ _ _ _ _ _ _ Hf Hf') as (-> & -> & ->). exact E.
  - assert (Hni : ~ iso_form text).
    { intros Hc. apply iso_whole_iff in Hc. congruence. }
    apply coerce_ymd; rewrite (trim_ymd _ _ _ _ Hf).
    + exact Hni.
    + intros Ho.
      apply (occurs_whole dmy_form text form_length_dmy (form_length_ymd _ _ _ _ Hf)) in Ho
        as (p & q & r & Hd).
      exact (dmy_ymd_apart _ _ _ _ _ _ _ Hd Hf).
    + apply whole_leftmost, Hf.
Qed.

Lemma coerce_ym_exact text y m :
  ym_form text y m -> coerceIsoDate text = y ++ str "-" ++ m ++ str "-01".
Proof.
  intros Hf. assert (Hlen : length text = 7%nat).
  { destruct Hf as (a & Hy & Hm & _ & ->). split_digits. reflexivity. }
  apply coerce_ym; rewrite (trim_ym _ _ _ Hf).
  - intros Ho. apply (occurs_length _ _ _ form_length_dmy) in Ho. lia.
  - intros Ho. apply (occurs_length _ _ _ form_length_ymd) in Ho. lia.
  - exact Hf.
Qed.

Lemma first_suffix_inv here s x :
  first_suffix here s = Some x ->
  exists pre u, s = pre ++ u /\ here u = Some x /\
    forall pre' u', s = pre' ++ u' -> (length pre' < length pre)%nat -> here u' = None.
Proof.
  induction s as [|c s IH]; simpl; intros Hs.
  - destruct (here []) eqn:E; [|discriminate]. injection Hs as ->.
    exists [], []. repeat split; [exact E|]. simpl; intros; lia.
  - destruct (here (c :: s)) eqn:E.
    + injection Hs as ->. exists [], (c :: s). repeat split; [exact E|].
      simpl; intros; lia.
    + destruct (IH Hs) as (pre & u & -> & Hu & Hmin).
      exists (c :: pre), u. repeat split; [exact Hu|].
      intros pre' u' E' Hl. destruct pre' as [|c' pre']; simpl in E'.
      * subst u'. exact E.
      * injection E' as _ E'. apply (Hmin pre' u' E'). simpl in Hl. lia.
Qed.

Section OccurrenceBySearch.
Variable here : jsstring -> option result.
Variable P : jsstring -> jsstring -> jsstring -> jsstring -> Prop.
Variable mk : jsstring -> jsstring -> jsstring -> caps.
Hypothesis here_Some : forall u w c,
  here u = Some (w, c) <->
  exists p q r post, u = w ++ post /\ P w p q r /\ c = mk p q r.

Lemma absent_by_search s : first_suffix here s = None -> ~ occurs P s.
Proof.
  intros Hn (pre & w & post & p & q & r & E & HP).
  pose proof (proj1 (first_suffix_None here s) Hn pre (w ++ post) E) as Hu.
  assert (Hs : here (w ++ post) = Some (w, mk p q r)).
  { apply here_Some. exists p, q, r, post. repeat split. exact HP. }
  congruence.
Qed.

Lemma leftmost_by_search s w c :
  first_suffix here s = Some (w, c) ->
  exists p q r, c = mk p q r /\ leftmost P s p q r.
Proof.
  intros Hs. apply first_suffix_inv in Hs as (pre & u & -> & Hu & Hmin).
  apply here_Some in Hu as (p & q & r & post & -> & HP & ->).
  exists p, q, r. split; [reflexivity|]. exists pre, w, post. repeat split; [exact HP|].
  intros pre' w' post' p' q' r' E' HP'.
  destruct (Nat.le_gt_cases (length pre) (length pre')) as [Hle|Hlt]; [exact Hle|].
  pose proof (Hmin pre' (w' ++ post') E' Hlt) as Hnone.
  assert (Hs : here (w' ++ post') = Some (w', mk p' q' r')).
  { apply here_Some. exists p', q', r', post'. repeat split. exact HP'. }
  congruence.
Qed.

End OccurrenceBySearch.

Lemma other_input_by_length text :
  length text <> 10%nat -> length text <> 7%nat -> other_input text.
Proof.
  intros H10 H7. repeat split.
  - intros Hi. destruct (iso_is_ymd _ Hi) as (y & m & d & Hf & _).
    apply form_length_ymd in Hf. contradiction.
  - intros d m y Hf. apply form_length_dmy in Hf. contradiction.
  - intros y m d Hf. apply form_length_ymd in Hf. contradiction.
  - intros y m (a & Hy & Hm & _ & ->). split_digits. apply H7. reflexivity.
Qed.

(** C1, as the specification states it, fails: an input that is of none of
    the four forms is not always returned verbatim. Surrounding white
    space is removed, and a date found inside a longer text is taken out
    of it and reordered. *)
Lemma coerceIsoDate_other_not_verbatim :
  (other_input (str " June 2029 ") /\
   coerceIsoDate (str " June 2029 ") <> str " June 2029 ") /\
  (other_input (str "Exp 06/07/2029") /\
   coerceIsoDate (str "Exp 06/07/2029") <> str "Exp 06/07/2029").
Proof.
  split; split;
    try (apply other_input_by_length; vm_compute; discriminate);
    vm_compute; discriminate.
Qed.

(** C1 (amended). On an input that is exactly of one of the four forms the
    normalizer answers as the specification lists: [YYYY-MM-DD] is kept,
    [DD[./-]MM[./-]YYYY] and [YYYY[./-]MM[./-]DD] are reordered to
    [YYYY-MM-DD], [YYYY[/-]MM] becomes [YYYY-MM-01]. On any input it works
    on the text with surrounding white space removed: that text is returned
    when it is of the form [YYYY-MM-DD]; otherwise the leftmost
    [DD[./-]MM[./-]YYYY] found anywhere in it is reordered; otherwise the
    leftmost [YYYY[./-]MM[./-]DD] found anywhere in it; otherwise a text that
    is exactly [YYYY[/-]MM] gets day 01; and every other input is returned
    trimmed. The four examples of the specification hold. *)
Theorem coerceIsoDate_spec (text : jsstring) :
  (iso_form text -> coerceIsoDate text = text) /\
  (forall d m y, dmy_form text d m y -> coerceIsoDate text = ymd_text y m d) /\
  (forall y m d, ymd_form text y m d -> coerceIsoDate text = ymd_text y m d) /\
  (forall y m, ym_form text y m ->
     coerceIsoDate text = y ++ str "-" ++ m ++ str "-01") /\
  (iso_form (trim text) -> coerceIsoDate text = trim text) /\
  (forall d m y, ~ iso_form (trim text) -> leftmost dmy_form (trim text) d m y ->
     coerceIsoDate text = ymd_text y m d) /\
  (forall y m d, ~ iso_form (trim text) -> ~ occurs dmy_form (trim text) ->
     leftmost ymd_form (trim text) y m d ->
     coerceIsoDate text = ymd_text y m d) /\
  (forall y m, ~ occurs dmy_form (trim text) -> ~ occurs ymd_form (trim text) ->
     ym_form (trim text) y m ->
     coerceIsoDate text = y ++ str "-" ++ m ++ str "-01") /\
  (~ iso_form (trim text) -> ~ occurs dmy_form (trim text) ->
   ~ occurs ymd_form (trim text) -> (forall y m, ~ ym_form (trim text) y m) ->
   coerceIsoDate text = trim text) /\
  coerceIsoDate (str "2027-01-01") = str "2027-01-01" /\
  coerceIsoDate (str "06/07/2029") = str "2029-07-06" /\
  coerceIsoDate (str "2027/01") = str "2027-01-01" /\
  coerceIsoDate (str "June 2029") = str "June 2029".
Proof.
  repeat apply conj.
  - intros Hi. rewrite coerce_iso; rewrite (trim_iso _ Hi); [reflexivity|exact Hi].
  - apply coerce_dmy_exact.
  - apply coerce_ymd_exact.
  - apply coerce_ym_exact.
  - apply coerce_iso.
  - intros d m y. apply coerce_dmy.
  - intros y m d. apply coerce_ymd.
  - intros y m. apply coerce_ym.
  - apply coerce_other.
  - vm_compute. reflexivity.
  - vm_compute. reflexivity.
  - vm_compute. reflexivity.
  - vm_compute. reflexivity.
Qed.

Lemma not_iso_by_test s : iso_whole s = false -> ~ iso_form s.
Proof. intros Hf Hi. apply iso_whole_iff in Hi. congruence. Qed.

Lemma no_dmy_by_search s : first_suffix dmy_here s = None -> ~ occurs dmy_form s.
Proof. apply (absent_by_search dmy_here dmy_form _ dmy_here_Some). Qed.

Lemma no_ymd_by_search s : first_suffix ymd_here s = None -> ~ occurs ymd_form s.
Proof. apply (absent_by_search ymd_here ymd_form _ ymd_here_Some). Qed.

Lemma leftmost_dmy_by_search s w d m y :
  first_suffix dmy_here s = Some (w, [(3%nat, y); (2%nat, m); (1%nat, d)]) ->
  leftmost dmy_form s d m y.
Proof.
  intros Hs.
  apply (leftmost_by_search dmy_here dmy_form _ dmy_here_Some) in Hs
    as (p & q & r & E & Hl).
  injection E as -> -> ->. exact Hl.
Qed.

Lemma leftmost_ymd_by_search s w y m d :
  first_suffix ymd_here s = Some (w, [(3%nat, d); (2%nat, m); (1%nat, y)]) ->
  leftmost ymd_form s y m d.
Proof.
  intros Hs.
  apply (leftmost_by_search ymd_here ymd_form _ ymd_here_Some) in Hs
    as (p & q & r & E & Hl).
  injection E as -> -> ->. exact Hl.
Qed.

Lemma no_ym_by_test s : ym_whole s = None -> forall y m, ~ ym_form s y m.
Proof. intros Hn y m Hf. rewrite (ym_whole_Some _ _ _ Hf) in Hn. discriminate. Qed.

Lemma ym_by_test s y m :
  ym_whole s = Some (s, [(2%nat, m); (1%nat, y)]) -> ym_form s y m.
Proof.
  unfold ym_whole. intros Hh.
  do 7 (destruct s as [|? s]; [discriminate Hh|]).
  destruct s; [|discriminate Hh].
  match type of Hh with (if ?b then _ else _) = _ => destruct b eqn:Hb end;
    [|discriminate Hh].
  injection Hh as <- <-. split_andb. exists n3.
  repeat split; simpl; try assumption;
    repeat match goal with H : isDigit _ = true |- _ => rewrite H; clear H end;
    reflexivity.
Qed.

Lemma coerceIsoDate_spec_witness :
  coerceIsoDate (str " Exp 06.07.2029 lot") = str "2029-07-06" /\
  coerceIsoDate (str "best before 2029/07/06") = str "2029-07-06" /\
  coerceIsoDate (str " 2027-01 ") = str "2027-01-01" /\
  coerceIsoDate (str " June 2029 ") = str "June 2029".
Proof.
  repeat apply conj.
  - destruct (coerceIsoDate_spec (str " Exp 06.07.2029 lot"))
      as (_ & _ & _ & _ & _ & H & _).
    apply (H (str "06") (str "07") (str "2029")).
    + apply not_iso_by_test. vm_compute. reflexivity.
    + apply (leftmost_dmy_by_search _ (str "06.07.2029")). vm_compute. reflexivity.
  - destruct (coerceIsoDate_spec (str "best before 2029/07/06"))
      as (_ & _ & _ & _ & _ & _ & H & _).
    apply (H (str "2029") (str "07") (str "06")).
    + apply not_iso_by_test. vm_compute. reflexivity.
    + apply no_dmy_by_search. vm_compute. reflexivity.
    + apply (leftmost_ymd_by_search _ (str "2029/07/06")). vm_compute. reflexivity.
  - destruct (coerceIsoDate_spec (str " 2027-01 "))
      as (_ & _ & _ & _ & _ & _ & _ & H & _).
    apply (H (str "2027") (str "01")).
    + apply no_dmy_by_search. vm_compute. reflexivity.
    + apply no_ymd_by_search. vm_compute. reflexivity.
    + apply ym_by_test. vm_compute. reflexivity.
  - destruct (coerceIsoDate_spec (str " June 2029 "))
      as (_ & _ & _ & _ & _ & _ & _ & _ & H & _).
    apply H.
    + apply not_iso_by_test. vm_compute. reflexivity.
    + apply no_dmy_by_search. vm_compute. reflexivity.
    + apply no_ymd_by_search. vm_compute. reflexivity.
    + apply no_ym_by_test. vm_compute. reflexivity.
Defined.

(** ** Status derivation *)

Module PageFacts.
Import Page.
Import PageSpec.
Local Open Scope Z_scope.

(** [ceilDiv a b] is the least whole [d] with [a <= d * b]. *)
Lemma ceilDiv_spec a b d :
  0 < b -> (ceilDiv a b = d <-> (d - 1) * b < a <= d * b).
Proof.
  intros Hb. unfold ceilDiv.
  pose proof (Z.div_mod (- a) b ltac:(lia)) as Hdm.
  pose proof (Z.mod_pos_bound (- a) b Hb) as Hmod.
  split.
  - intros <-. nia.
  - intros [H1 H2]. nia.
Qed.

Section StatusFacts.
Context `{DateHost}.

Lemma computeStatus_blank now dateISO :
  trim dateISO = [] -> computeStatus now dateISO = Valid.
Proof. intros E. unfold computeStatus. rewrite E. reflexivity. Qed.

Lemma computeStatus_unparsable now dateISO :
  Date_parse dateISO = None -> computeStatus now dateISO = Valid.
Proof.
  intros E. unfold computeStatus. rewrite E. destruct (trim dateISO); reflexivity.
Qed.

Lemma computeStatus_days now dateISO target d :
  trim dateISO <> [] -> Date_parse dateISO = Some target ->
  (d - 1) * MS_PER_DAY < target - now <= d * MS_PER_DAY ->
  computeStatus now dateISO =
    if d <? 0 then Expired else if d <=? 30 then ExpiringSoon else Valid.
Proof.
  intros Hne Hp Hd. unfold computeStatus. rewrite Hp.
  destruct (trim dateISO); [contradiction|].
  apply ceilDiv_spec in Hd; [|reflexivity]. cbv zeta. rewrite Hd. reflexivity.
Qed.

End StatusFacts.

(** C2. For every expiry-date string and every fixed today: a string that
    is empty (or blank) and a string the host cannot parse give [Valid];
    otherwise, with [d] the ceiling of the difference between expiry and
    today in days, [d < 0] gives [Expired], [0 <= d <= 30] gives
    [ExpiringSoon] and [d > 30] gives [Valid]. In particular an expiry 45
    days out is [Valid], 10 days out is [ExpiringSoon], one day past is
    [Expired], and the empty string is [Valid]. *)
Theorem computeStatus_spec `{DateHost} (now : Z) (dateISO : jsstring) :
  (trim dateISO = [] -> computeStatus now dateISO = Valid) /\
  (Date_parse dateISO = None -> computeStatus now dateISO = Valid) /\
  (forall target d,
     trim dateISO <> [] -> Date_parse dateISO = Some target ->
     (d - 1) * MS_PER_DAY < target - now <= d * MS_PER_DAY ->
     (d < 0 -> computeStatus now dateISO = Expired) /\
     (0 <= d <= 30 -> computeStatus now dateISO = ExpiringSoon) /\
     (30 < d -> computeStatus now dateISO = Valid)) /\
  (trim dateISO <> [] ->
     (Date_parse dateISO = Some (now + 45 * MS_PER_DAY) ->
        computeStatus now dateISO = Valid) /\
     (Date_parse dateISO = Some (now + 10 * MS_PER_DAY) ->
        computeStatus now dateISO = ExpiringSoon) /\
     (Date_parse dateISO = Some (now - 1 * MS_PER_DAY) ->
        computeStatus now dateISO = Expired)) /\
  computeStatus now [] = Valid.
Proof.
  split; [apply computeStatus_blank|].
  split; [apply computeStatus_unparsable|].
  split; [|split].
  - intros target d Hne Hp Hd.
    rewrite (computeStatus_days now dateISO target d Hne Hp Hd).
    repeat split; intros Hc.
    + destruct (Z.ltb_spec d 0); [reflexivity|lia].
    + destruct (Z.ltb_spec d 0); [lia|].
      destruct (Z.leb_spec d 30); [reflexivity|lia].
    + destruct (Z.ltb_spec d 0); [lia|].
      destruct (Z.leb_spec d 30); [lia|reflexivity].
  - intros Hne. repeat split; intros Hp.
    + rewrite (computeStatus_days now dateISO _ 45 Hne Hp); [reflexivity|].
      unfold MS_PER_DAY. lia.
    + rewrite (computeStatus_days now dateISO _ 10 Hne Hp); [reflexivity|].
      unfold MS_PER_DAY. lia.
    + rewrite (computeStatus_days now dateISO _ (-1) Hne Hp); [reflexivity|].
      unfold MS_PER_DAY. lia.
  - reflexivity.
Qed.

Lemma computeStatus_spec_witness :
  @computeStatus isoHost newYear2025 (str "2025-02-15") = Valid /\
  @computeStatus isoHost newYear2025 (str "2025-01-11") = ExpiringSoon /\
  @computeStatus isoHost newYear2025 (str "2024-12-31") = Expired /\
  @computeStatus isoHost newYear2025 (str "   ") = Valid /\
  @computeStatus isoHost newYear2025 (str "next June") = Valid /\
  @computeStatus isoHost (newYear2025 + 1) (str "2025-01-31") = ExpiringSoon.
Proof.
  repeat apply conj.
  - destruct (@computeStatus_spec isoHost newYear2025 (str "2025-02-15"))
      as (_ & _ & _ & H & _).
    apply H; [vm_compute; discriminate|vm_compute; reflexivity].
  - destruct (@computeStatus_spec isoHost newYear2025 (str "2025-01-11"))
      as (_ & _ & _ & H & _).
    apply H; [vm_compute; discriminate|vm_compute; reflexivity].
  - destruct (@computeStatus_spec isoHost newYear2025 (str "2024-12-31"))
      as (_ & _ & _ & H & _).
    apply H; [vm_compute; discriminate|vm_compute; reflexivity].
  - destruct (@computeStatus_spec isoHost newYear2025 (str "   "))
      as (H & _).
    apply H. vm_compute. reflexivity.
  - destruct (@computeStatus_spec isoHost newYear2025 (str "next June"))
      as (_ & H & _).
    apply H. vm_compute. reflexivity.
  - destruct (@computeStatus_spec isoHost (newYear2025 + 1) (str "2025-01-31"))
      as (_ & _ & H & _).
    apply (H (30 * MS_PER_DAY + newYear2025) 30);
      [vm_compute; discriminate|vm_compute; reflexivity|vm_compute; split; [reflexivity|discriminate]|lia].
Defined.

End PageFacts.

(** ** The session relay *)

Module SessionFacts.
Import Session.
Import SessionSpec.

Lemma getOrCreate_current sid sessions :
  getOrCreate sid sessions =
  (current sid sessions, <[sid := current sid sessions]> sessions).
Proof.
  unfold getOrCreate, current. destruct (sessions !! sid) as [st|] eqn:E.
  - rewrite insert_id by exact E. reflexivity.
  - reflexivity.
Qed.

Lemma GET_ok c sid sessions :
  GET (Some (c :: sid)) sessions =
  (Json200 (current (c :: sid) sessions),
   <[c :: sid := current (c :: sid) sessions]> sessions).
Proof. unfold GET. rewrite getOrCreate_current. reflexivity. Qed.

Lemma current_insert (sid : jsstring) (st : SessionState) (sessions : Sessions) : current sid (<[sid := st]> sessions) = st.
Proof. unfold current. rewrite lookup_insert_eq. reflexivity. Qed.

Lemma current_insert_ne (sid sid' : jsstring) (st : SessionState) (sessions : Sessions) :
  sid <> sid' -> current sid' (<[sid := st]> sessions) = current sid' sessions.
Proof. intros Hne. unfold current. rewrite lookup_insert_ne by exact Hne. reflexivity. Qed.

Section Post.
Context `{NumberOps}.

Lemma POST_ok now c sid req sessions :
  let st := current (c :: sid) sessions in
  let st' := if multipart req then postMultipart now req st
             else postJson now req st in
  POST now (Some (c :: sid)) req sessions =
  (Json200 st', <[c :: sid := st']> sessions).
Proof.
  cbv zeta. unfold POST. rewrite getOrCreate_current.
  rewrite insert_insert_eq. reflexivity.
Qed.

End Post.

(** What the multipart branch does, case by case. *)
Lemma postMultipart_cases now req st :
  (exists file form,
      formData req = Some form /\
      form_get (str "image") form = Some (FFile file) /\
      (0 < file_size file)%nat /\
      postMultipart now req st =
        pushImage now
          (bufferToDataUrl (file_bytes file)
             (match file_type file with [] => str "image/jpeg" | t => t end)) st)
  \/
  ((formData req = None \/
    exists form, formData req = Some form /\
      (form_get (str "image") form = None \/
       (exists s, form_get (str "image") form = Some (FText s)) \/
       (exists file, form_get (str "image") form = Some (FFile file) /\
                     file_size file = 0%nat)))
   /\ postMultipart now req st = st).
Proof.
  unfold postMultipart. destruct (formData req) as [form|]; [|right; split; [left|]; reflexivity].
  destruct (form_get (str "image") form) as [[s|file]|] eqn:Eg.
  - right. split; [|reflexivity]. right. exists form. split; [reflexivity|].
    right. left. exists s. exact Eg.
  - destruct (file_size file) as [|n] eqn:Es.
    + right. split; [|reflexivity]. right. exists form. split; [reflexivity|].
      right. right. exists file. split; [exact Eg|exact Es].
    + left. exists file, form. repeat split; [exact Eg|lia].
  - right. split; [|reflexivity]. right. exists form. split; [reflexivity|].
    left. exact Eg.
Qed.

(** C7. For a non-empty session identifier that has not been referenced,
    GET answers the default session (both flags false, no command, no
    images) and stores it; a second GET right after the first answers the
    same state and leaves the store as it is; and GET answers the client
    error exactly when the identifier is missing or empty. *)
Theorem GET_spec (sessionId : option jsstring) (sessions : Sessions) :
  (forall sid, sessionId = Some sid -> sid <> [] -> sessions !! sid = None ->
     GET sessionId sessions =
       (Json200 {| mobileConnected := false; webConnected := false;
                   command := None; images := [] |},
        <[sid := defaultState]> sessions)) /\
  (forall r1 sessions1, GET sessionId sessions = (r1, sessions1) ->
     GET sessionId sessions1 = (r1, sessions1)) /\
  (fst (GET sessionId sessions) = Json400 <->
     sessionId = None \/ sessionId = Some []).
Proof.
  split; [|split].
  - intros sid -> Hne Hnone. destruct sid as [|c sid]; [contradiction|].
    rewrite GET_ok. unfold current. rewrite Hnone. reflexivity.
  - intros r1 sessions1. destruct sessionId as [[|c sid]|].
    + intros [= <- <-]. reflexivity.
    + rewrite GET_ok. intros [= <- <-]. rewrite GET_ok.
      rewrite current_insert, insert_insert_eq. reflexivity.
    + intros [= <- <-]. reflexivity.
  - destruct sessionId as [[|c sid]|].
    + split; [intros _; right|]; reflexivity.
    + rewrite GET_ok. split; [discriminate|intros [|]; discriminate].
    + split; [intros _; left|]; reflexivity.
Qed.

Lemma GET_spec_witness :
  GET (Some (str "s1")) ∅ =
    (Json200 {| mobileConnected := false; webConnected := false;
                command := None; images := [] |},
     <[str "s1" := defaultState]> ∅).
Proof.
  destruct (GET_spec (Some (str "s1")) ∅) as (H & _).
  apply H; [reflexivity|discriminate|apply lookup_empty].
Defined.

(** C10. A multipart POST leaves [mobileConnected], [webConnected] and
    [command] of the session as they were; all it can do to the session is
    append to its images (at most one), and no other session changes. *)
Theorem POST_multipart_frame `{NumberOps} (now : Z) (sid : jsstring)
  (req : Request) (sessions : Sessions) :
  sid <> [] -> multipart req = true ->
  exists st',
    POST now (Some sid) req sessions = (Json200 st', <[sid := st']> sessions) /\
    mobileConnected st' = mobileConnected (current sid sessions) /\
    webConnected st' = webConnected (current sid sessions) /\
    command st' = command (current sid sessions) /\
    (exists added, images st' = images (current sid sessions) ++ added /\
                   (length added <= 1)%nat) /\
    (forall sid', sid' <> sid ->
       snd (POST now (Some sid) req sessions) !! sid' = sessions !! sid').
Proof.
  intros Hne Hm. destruct sid as [|c sid]; [contradiction|].
  rewrite POST_ok. cbv zeta. rewrite Hm.
  exists (postMultipart now req (current (c :: sid) sessions)).
  split; [reflexivity|].
  destruct (postMultipart_cases now req (current (c :: sid) sessions))
    as [(file & form & _ & _ & _ & ->)|[_ ->]].
  - simpl. repeat split.
    + eexists. split; [reflexivity|]. simpl. lia.
    + intros sid' Hs. rewrite lookup_insert_ne by congruence. reflexivity.
  - repeat split.
    + exists []. rewrite app_nil_r. split; [reflexivity|]. simpl. lia.
    + intros sid' Hs. simpl. rewrite lookup_insert_ne by congruence. reflexivity.
Qed.

Lemma POST_multipart_frame_witness :
  exists st',
    @POST literalNumbers 1700000000000 (Some (str "s1")) pngUpload ∅ =
      (Json200 st', <[str "s1" := st']> ∅) /\
    mobileConnected st' = false /\ webConnected st' = false /\
    command st' = None.
Proof.
  destruct (@POST_multipart_frame literalNumbers 1700000000000 (str "s1")
              pngUpload ∅) as (st' & HP & Hm & Hw & Hc & _).
  - discriminate.
  - vm_compute. reflexivity.
  - exists st'. repeat split; assumption.
Defined.

Lemma startsWith_app a b : startsWith a (a ++ b) = true.
Proof.
  induction a as [|x a IH]; simpl; [reflexivity|].
  rewrite N.eqb_refl. exact IH.
Qed.

Lemma startsWith_app_inv a b s :
  startsWith (a ++ b) (a ++ s) = startsWith b s.
Proof.
  induction a as [|x a IH]; simpl; [reflexivity|].
  rewrite N.eqb_refl. exact IH.
Qed.

Lemma bufferToDataUrl_upload file :
  bufferToDataUrl (file_bytes file)
    (match file_type file with [] => str "image/jpeg" | t => t end)
  = uploadUrl file.
Proof.
  unfold bufferToDataUrl, uploadUrl. destruct (file_type file); reflexivity.
Qed.

Lemma startsWith_more p t rest :
  startsWith p t = true -> startsWith p (t ++ rest) = true.
Proof.
  revert t. induction p as [|x p IH]; intros t; [reflexivity|].
  destruct t as [|y t]; [discriminate|]. simpl.
  intros Hxy. apply andb_true_iff in Hxy as [-> Hxy]. simpl. apply IH, Hxy.
Qed.

Lemma uploadUrl_image file :
  file_type file = [] \/ startsWith (str "image/") (file_type file) = true ->
  startsWith (str "data:image/") (uploadUrl file) = true.
Proof.
  unfold uploadUrl. intros [->|Hs].
  - reflexivity.
  - destruct (file_type file) as [|c t] eqn:E; [discriminate Hs|].
    change (str "data:image/") with (str "data:" ++ str "image/").
    rewrite startsWith_app_inv. apply startsWith_more, Hs.
Qed.

(** C6, as the specification states it, fails: the data URL of an appended
    upload starts with [data:image/] only when the file declares an image
    type (or none). The handler does not look at the type, so a file
    declared [application/pdf] is appended with a [data:application/pdf]
    URL. *)
Lemma POST_multipart_dataUrl_not_image :
  exists img,
    fst (@POST literalNumbers 1700000000000 (Some (str "s1")) pdfUpload ∅) =
      Json200 {| mobileConnected := false; webConnected := false;
                 command := None; images := [img] |} /\
    dataUrl img = str "data:application/pdf;base64,TWFu" /\
    startsWith (str "data:image/") (dataUrl img) = false.
Proof.
  eexists. split; [vm_compute; reflexivity|]. split; reflexivity.
Qed.

(** C6 (amended). A multipart POST carrying a non-empty file under the name
    [image] makes the images of the session exactly one longer; the
    appended entry has the generated identifier [mobile-<now>-<position>],
    empty product and expiry date, and a non-empty data URL made of
    [data:], the declared type of the file ([image/jpeg] when it declares
    none), [;base64,] and the content in base 64; that URL starts with
    [data:image/] when the file declares no type or an image type. A
    multipart POST whose form cannot be read, has no [image] entry, has a
    text entry there, or has an empty file, leaves the session as it was
    and still answers with the session state. *)
Theorem POST_multipart_spec `{NumberOps} (now : Z) (sid : jsstring)
  (req : Request) (sessions : Sessions) :
  sid <> [] -> multipart req = true ->
  (forall form file,
     formData req = Some form ->
     form_get (str "image") form = Some (FFile file) ->
     (0 < file_size file)%nat ->
     exists st' img,
       POST now (Some sid) req sessions = (Json200 st', <[sid := st']> sessions) /\
       images st' = images (current sid sessions) ++ [img] /\
       length (images st') = S (length (images (current sid sessions))) /\
       id img = imageId now (length (images (current sid sessions))) /\
       product img = [] /\ expiryDate img = [] /\
       dataUrl img = uploadUrl file /\ dataUrl img <> [] /\
       (file_type file = [] \/ startsWith (str "image/") (file_type file) = true ->
        startsWith (str "data:image/") (dataUrl img) = true)) /\
  ((formData req = None \/
    exists form, formData req = Some form /\
      (form_get (str "image") form = None \/
       (exists s, form_get (str "image") form = Some (FText s)) \/
       (exists file, form_get (str "image") form = Some (FFile file) /\
                     file_size file = 0%nat))) ->
   POST now (Some sid) req sessions =
     (Json200 (current sid sessions), <[sid := current sid sessions]> sessions)).
Proof.
  intros Hne Hm. destruct sid as [|c sid]; [contradiction|].
  rewrite POST_ok. cbv zeta. rewrite Hm. split.
  - intros form file Hf Hg Hs.
    exists (postMultipart now req (current (c :: sid) sessions)).
    unfold postMultipart. rewrite Hf, Hg.
    destruct (file_size file) as [|n] eqn:Es; [lia|]. simpl (0 <? S n)%nat.
    cbv iota. rewrite bufferToDataUrl_upload.
    eexists. split; [reflexivity|]. split; [reflexivity|].
    split; [simpl; rewrite length_app; simpl; lia|].
    split; [reflexivity|]. split; [reflexivity|]. split; [reflexivity|].
    split; [reflexivity|]. split; [discriminate|].
    apply uploadUrl_image.
  - intros Hcase. unfold postMultipart.
    destruct Hcase as [->|(form & -> & [->|[(s & ->)|(file & -> & Hz)]])];
      try reflexivity.
    rewrite Hz. reflexivity.
Qed.

Lemma POST_multipart_spec_witness :
  exists st' img,
    @POST literalNumbers 1700000000000 (Some (str "s1")) pngUpload ∅ =
      (Json200 st', <[str "s1" := st']> ∅) /\
    images st' = [img] /\
    id img = str "mobile-1700000000000-0" /\
    dataUrl img = str "data:image/png;base64,TWFu" /\
    startsWith (str "data:image/") (dataUrl img) = true.
Proof.
  destruct (@POST_multipart_spec literalNumbers 1700000000000 (str "s1")
              pngUpload ∅) as (Happend & _).
  - discriminate.
  - vm_compute. reflexivity.
  - destruct (Happend _ _ eq_refl eq_refl)
      as (st' & img & HP & Hi & _ & Hid & _ & _ & Hu & _ & Himg).
    + vm_compute. lia.
    + exists st', img. repeat split.
      * exact HP.
      * exact Hi.
      * rewrite Hid. vm_compute. reflexivity.
      * rewrite Hu. vm_compute. reflexivity.
      * apply Himg. right. vm_compute. reflexivity.
Defined.

(** *** Image identifiers *)

Lemma str_inj s1 s2 : str s1 = str s2 -> s1 = s2.
Proof.
  revert s2. induction s1 as [|a s1 IH]; intros [|b s2]; simpl; try discriminate.
  - reflexivity.
  - intros [= Hab Hs]. f_equal; [|apply IH, Hs].
    rewrite <- (ascii_N_embedding a), <- (ascii_N_embedding b), Hab. reflexivity.
Qed.

Lemma pretty_N_char_digit x : isDigit (N_of_ascii (pretty_N_char x)) = true.
Proof. unfold pretty_N_char. repeat case_match; reflexivity. Qed.

Lemma pretty_N_go_digits x s : allDigits (str s) -> allDigits (str (pretty_N_go x s)).
Proof.
  revert s. induction (N.lt_wf_0 x) as [x _ IH]; intros s Hs.
  destruct (N.eq_dec x 0) as [->|Hx].
  - rewrite pretty_N_go_0. exact Hs.
  - rewrite pretty_N_go_step by lia. apply IH.
    + apply N.div_lt; lia.
    + simpl. constructor; [apply pretty_N_char_digit|exact Hs].
Qed.

Lemma decNat_digits n : allDigits (decNat n).
Proof.
  unfold decNat, pretty, pretty_nat, pretty, pretty_N.
  case_decide.
  - repeat constructor.
  - apply pretty_N_go_digits. constructor.
Qed.

Lemma decNat_inj n m : decNat n = decNat m -> n = m.
Proof. intros E. apply str_inj in E. apply (inj pretty) in E. exact E. Qed.

Lemma afterLast_absent c s : Forall (fun x => x <> c) s -> afterLast c s = None.
Proof.
  induction 1 as [|x s Hx _ IH]; simpl; [reflexivity|].
  rewrite IH. apply N.eqb_neq in Hx. rewrite Hx. reflexivity.
Qed.

Lemma afterLast_app c a s :
  Forall (fun x => x <> c) s -> afterLast c (a ++ c :: s) = Some s.
Proof.
  intros Hs. induction a as [|x a IH]; simpl.
  - rewrite (afterLast_absent c s Hs), N.eqb_refl. reflexivity.
  - rewrite IH. reflexivity.
Qed.

Lemma digits_no_dash s : allDigits s -> Forall (fun x => x <> 45%N) s.
Proof.
  unfold allDigits. intros Hs. induction Hs as [|c s Hc _ IH]; constructor.
  - intros ->. discriminate Hc.
  - exact IH.
Qed.

(** An identifier determines the position it was made for. *)
Lemma imageId_position t k t' k' : imageId t k = imageId t' k' -> k = k'.
Proof.
  assert (Hshape : forall t k,
            imageId t k = (str "mobile-" ++ decZ t) ++ 45%N :: decNat k).
  { intros. unfold imageId. rewrite <- app_assoc. reflexivity. }
  rewrite !Hshape. intros E.
  apply (f_equal (afterLast 45)) in E.
  rewrite !afterLast_app in E by (apply digits_no_dash, decNat_digits).
  injection E as E. apply decNat_inj, E.
Qed.

Lemma positional_distinct st i j a b :
  positional st -> images st !! i = Some a -> images st !! j = Some b ->
  i <> j -> id a <> id b.
Proof.
  intros Hp Ha Hb Hij E.
  destruct (Hp i a Ha) as [t Ea]. destruct (Hp j b Hb) as [t' Eb].
  rewrite Ea, Eb in E. apply imageId_position in E. contradiction.
Qed.

Lemma positional_NoDup st : positional st -> NoDup (map id (images st)).
Proof.
  intros Hp. apply NoDup_alt. intros i j x Hi Hj.
  rewrite list_lookup_fmap in Hi, Hj.
  destruct (images st !! i) as [a|] eqn:Ea; [|discriminate].
  destruct (images st !! j) as [b|] eqn:Eb; [|discriminate].
  simpl in Hi, Hj. injection Hi as <-. injection Hj as E.
  destruct (decide (i = j)) as [Hij|Hij]; [exact Hij|].
  exfalso. exact (positional_distinct st i j a b Hp Ea Eb Hij (eq_sym E)).
Qed.

Lemma positional_default : positional defaultState.
Proof. intros k img Hk. simpl in Hk. rewrite lookup_nil in Hk. discriminate. Qed.

Lemma positional_push now url st : positional st -> positional (pushImage now url st).
Proof.
  intros Hp k img. simpl. intros Hk.
  apply lookup_app_Some in Hk as [Hk|[Hlen Hk]].
  - apply Hp, Hk.
  - destruct (k - length (images st))%nat as [|n] eqn:Ek; simpl in Hk; [|discriminate].
    injection Hk as <-. exists now. simpl. unfold imageId.
    replace k with (length (images st)) by lia. reflexivity.
Qed.

Lemma positional_images st st' :
  images st' = images st -> positional st -> positional st'.
Proof. unfold positional. intros ->. trivial. Qed.

Lemma positional_postMultipart now req st :
  positional st -> positional (postMultipart now req st).
Proof.
  intros Hp.
  destruct (postMultipart_cases now req st) as [(file & form & _ & _ & _ & ->)|[_ ->]].
  - apply positional_push, Hp.
  - exact Hp.
Qed.

Section JsonFacts.
Context `{NumberOps}.

Lemma positional_postImage now body st :
  positional st -> positional (postImage now body st).
Proof.
  intros Hp. unfold postImage.
  destruct (asString (getProp body (str "image"))) as [[|c image]|]; try exact Hp.
  apply positional_push, Hp.
Qed.

Lemma positional_postFields now body st :
  positional st -> positional (postFields now body st).
Proof.
  intros Hp. unfold postFields. cbv zeta.
  assert (Hp2 : positional
            match asBoolean (getProp body (str "webConnected")) with
            | Some b =>
                setWebConnected b
                  match asBoolean (getProp body (str "mobileConnected")) with
                  | Some b0 => setMobileConnected b0 st
                  | None => st
                  end
            | None =>
                match asBoolean (getProp body (str "mobileConnected")) with
                | Some b0 => setMobileConnected b0 st
                | None => st
                end
            end).
  { destruct (asBoolean (getProp body (str "webConnected")));
      destruct (asBoolean (getProp body (str "mobileConnected")));
      (eapply positional_images; [|exact Hp]); reflexivity. }
  destruct (getProp body (str "command")) as [v|].
  - destruct (isNull v).
    + apply positional_postImage. eapply positional_images; [|exact Hp2]. reflexivity.
    + destruct (toStr v); [|exact Hp2].
      apply positional_postImage. eapply positional_images; [|exact Hp2]. reflexivity.
  - apply positional_postImage, Hp2.
Qed.

Lemma positional_postJson now req st :
  positional st -> positional (postJson now req st).
Proof.
  intros Hp. unfold postJson.
  destruct (JSON_parse (bodyText req)) as [body|]; [|exact Hp].
  destruct (isNull body); [exact Hp|]. apply positional_postFields, Hp.
Qed.

Lemma positional_current sid sessions :
  store_positional sessions -> positional (current sid sessions).
Proof.
  intros Hs. unfold current. destruct (sessions !! sid) as [st|] eqn:E.
  - apply (Hs sid st E).
  - apply positional_default.
Qed.

Lemma store_positional_insert sid st sessions :
  store_positional sessions -> positional st ->
  store_positional (<[sid := st]> sessions).
Proof.
  intros Hs Hp sid' st' Hl. destruct (decide (sid = sid')) as [<-|Hne].
  - rewrite lookup_insert_eq in Hl. injection Hl as <-. exact Hp.
  - rewrite lookup_insert_ne in Hl by exact Hne. apply (Hs sid' st' Hl).
Qed.

Lemma reachable_positional sessions : reachable sessions -> store_positional sessions.
Proof.
  induction 1 as [|sessionId sessions _ IH|now sessionId req sessions _ IH].
  - intros sid st Hl. rewrite lookup_empty in Hl. discriminate.
  - destruct sessionId as [[|c sid]|]; try exact IH.
    rewrite GET_ok. simpl. apply store_positional_insert; [exact IH|].
    apply positional_current, IH.
  - destruct sessionId as [[|c sid]|]; try exact IH.
    rewrite POST_ok. simpl. apply store_positional_insert; [exact IH|].
    destruct (multipart req).
    + apply positional_postMultipart, positional_current, IH.
    + apply positional_postJson, positional_current, IH.
Qed.

End JsonFacts.

(** C9. In every store the handlers can produce from the empty map, by any
    sequence of GET and POST requests, the identifiers of the images of a
    session are pairwise distinct: the image at position [k] carries an
    identifier [mobile-<time>-<k>], and the decimal position can be read
    back from it. *)
Theorem image_ids_distinct `{NumberOps} (sessions : Sessions) (sid : jsstring)
  (st : SessionState) :
  reachable sessions -> sessions !! sid = Some st ->
  NoDup (map id (images st)) /\
  (forall i j a b, images st !! i = Some a -> images st !! j = Some b ->
     i <> j -> id a <> id b) /\
  (forall k img, images st !! k = Some img -> exists t, id img = imageId t k).
Proof.
  intros Hr Hl. pose proof (reachable_positional sessions Hr sid st Hl) as Hp.
  split; [apply positional_NoDup, Hp|]. split; [|exact Hp].
  intros i j a b. apply positional_distinct, Hp.
Qed.

Lemma POST_at `{NumberOps} now sid req sessions :
  sid <> [] ->
  POST now (Some sid) req sessions =
  (Json200 (if multipart req then postMultipart now req (current sid sessions)
            else postJson now req (current sid sessions)),
   <[sid := if multipart req then postMultipart now req (current sid sessions)
            else postJson now req (current sid sessions)]> sessions).
Proof. intros Hne. destruct sid; [contradiction|]. apply POST_ok. Qed.

Lemma image_ids_distinct_witness :
  exists st, twoUploads !! str "s1" = Some st /\
    map id (images st) = [str "mobile-1700000000000-0"; str "mobile-1700000000000-1"] /\
    NoDup (map id (images st)).
Proof.
  eexists. split; [|split].
  - unfold twoUploads. rewrite (@POST_at literalNumbers) by discriminate.
    apply lookup_insert_eq.
  - vm_compute. reflexivity.
  - eapply (@image_ids_distinct literalNumbers twoUploads (str "s1")).
    + unfold twoUploads. apply reach_POST, reach_POST, reach_empty.
    + unfold twoUploads. rewrite (@POST_at literalNumbers) by discriminate.
      apply lookup_insert_eq.
Defined.

(** *** The JSON branch, field by field *)

Section JsonFields.
Context `{NumberOps}.

Lemma postImage_frame now body st :
  mobileConnected (postImage now body st) = mobileConnected st /\
  webConnected (postImage now body st) = webConnected st /\
  command (postImage now body st) = command st /\
  images (postImage now body st) = images st ++ appended now body st.
Proof.
  unfold postImage, appended.
  destruct (asString (getProp body (str "image"))) as [[|c image]|]; simpl;
    rewrite ?app_nil_r; repeat split; reflexivity.
Qed.

Ltac fields_cases body :=
  unfold postFields; cbv zeta;
  destruct (getProp body (str "command")) as [v|];
    [destruct (isNull v); [|destruct (toStr v)]|];
  repeat match goal with
    | |- context [postImage ?n ?b ?s] =>
        let Hm := fresh in let Hw := fresh in let Hc := fresh in let Hi := fresh in
        destruct (postImage_frame n b s) as (Hm & Hw & Hc & Hi);
        rewrite ?Hm, ?Hw, ?Hc, ?Hi; clear Hm Hw Hc Hi
    end;
  unfold appended;
  destruct (asBoolean (getProp body (str "mobileConnected")));
  destruct (asBoolean (getProp body (str "webConnected")));
  try reflexivity.

Lemma postFields_mobile now body st :
  mobileConnected (postFields now body st) =
    match asBoolean (getProp body (str "mobileConnected")) with
    | Some b => b
    | None => mobileConnected st
    end.
Proof. fields_cases body. Qed.

Lemma postFields_web now body st :
  webConnected (postFields now body st) =
    match asBoolean (getProp body (str "webConnected")) with
    | Some b => b
    | None => webConnected st
    end.
Proof. fields_cases body. Qed.

Lemma postFields_command now body st :
  command (postFields now body st) =
    match getProp body (str "command") with
    | None => command st
    | Some v =>
        if isNull v then None
        else match toStr v with Some s => Some s | None => command st end
    end.
Proof. fields_cases body. Qed.

Lemma postFields_images now body st :
  images (postFields now body st) =
    match getProp body (str "command") with
    | None => images st ++ appended now body st
    | Some v =>
        if isNull v then images st ++ appended now body st
        else match toStr v with
             | Some _ => images st ++ appended now body st
             | None => images st
             end
    end.
Proof. fields_cases body. Qed.

Lemma getProp_null name : getProp JNull name = None.
Proof. reflexivity. Qed.

Lemma postJson_fields now req st body :
  JSON_parse (bodyText req) = Some body ->
  postJson now req st = if isNull body then st else postFields now body st.
Proof. intros E. unfold postJson. rewrite E. reflexivity. Qed.

Lemma asBoolean_none (o : option jsvalue) :
  (forall b, o <> Some (JBool b)) -> asBoolean o = None.
Proof. destruct o as [[]|]; try reflexivity. intros Hb. exfalso. eapply Hb. reflexivity. Qed.

Lemma appended_none now body st :
  (forall image, getProp body (str "image") = Some (JString image) -> image = []) ->
  appended now body st = [].
Proof.
  unfold appended. intros Hi.
  destruct (getProp body (str "image")) as [[]|]; try reflexivity. simpl.
  rewrite (Hi s eq_refl). reflexivity.
Qed.

Lemma appended_one now body st image :
  getProp body (str "image") = Some (JString image) -> image <> [] ->
  appended now body st =
    [{| id := imageId now (length (images st)); dataUrl := image;
        product := []; expiryDate := [] |}].
Proof.
  unfold appended. intros -> Hne. simpl. destruct image; [contradiction|reflexivity].
Qed.

End JsonFields.

(** C5, as the specification states it, fails: a body with a non-empty
    string under [image] does not always append an image. When
    [command] holds an object that has a member called [toString],
    [String(body.command)] throws, the [catch] swallows it, and the
    statement that appends the image is never reached. *)
Lemma POST_json_image_not_appended :
  exists body,
    JSON_parse (js "{'command':{'toString':0},'image':'x'}") = Some body /\
    getProp body (str "image") = Some (JString (str "x")) /\
    fst (@POST literalNumbers 1700000000000 (Some (str "s1"))
           (jsonRequest "{'command':{'toString':0},'image':'x'}") ∅) =
      Json200 {| mobileConnected := false; webConnected := false;
                 command := None; images := [] |}.
Proof.
  eexists. split; [vm_compute; reflexivity|]. split; vm_compute; reflexivity.
Qed.

(** C5 (amended). A POST that is not multipart answers with the resulting
    state of the session and stores it. A body that is not JSON leaves the
    session as it was. Otherwise a boolean [mobileConnected] or
    [webConnected] becomes the flag of that name and a flag without a
    boolean in the body is kept; [command] set to [null] or to a string
    becomes the command and an absent [command] keeps it; a non-empty
    string under [image] appends exactly one image, with the generated
    identifier, that string as data URL and empty product and expiry date,
    provided [command], when present, can be converted to a string; without
    such an [image] the images are kept. When the conversion of [command]
    throws, command and images stay as they were. *)
Theorem POST_json_spec `{NumberOps} (now : Z) (sid : jsstring) (req : Request)
  (sessions : Sessions) :
  sid <> [] -> multipart req = false ->
  exists st',
    POST now (Some sid) req sessions = (Json200 st', <[sid := st']> sessions) /\
    (JSON_parse (bodyText req) = None -> st' = current sid sessions) /\
    (forall body, JSON_parse (bodyText req) = Some body ->
       (forall b, getProp body (str "mobileConnected") = Some (JBool b) ->
          mobileConnected st' = b) /\
       ((forall b, getProp body (str "mobileConnected") <> Some (JBool b)) ->
          mobileConnected st' = mobileConnected (current sid sessions)) /\
       (forall b, getProp body (str "webConnected") = Some (JBool b) ->
          webConnected st' = b) /\
       ((forall b, getProp body (str "webConnected") <> Some (JBool b)) ->
          webConnected st' = webConnected (current sid sessions)) /\
       (getProp body (str "command") = Some JNull -> command st' = None) /\
       (forall s, getProp body (str "command") = Some (JString s) ->
          command st' = Some s) /\
       (getProp body (str "command") = None ->
          command st' = command (current sid sessions)) /\
       (forall image,
          getProp body (str "image") = Some (JString image) -> image <> [] ->
          (forall v, getProp body (str "command") = Some v -> toStr v <> None) ->
          images st' =
            images (current sid sessions) ++
            [{| id := imageId now (length (images (current sid sessions)));
                dataUrl := image; product := []; expiryDate := [] |}]) /\
       ((forall image, getProp body (str "image") = Some (JString image) ->
           image = []) ->
          images st' = images (current sid sessions)) /\
       (forall v, getProp body (str "command") = Some v -> toStr v = None ->
          command st' = command (current sid sessions) /\
          images st' = images (current sid sessions))).
Proof.
  intros Hne Hm. rewrite (POST_at now sid req sessions Hne), Hm.
  set (st := current sid sessions).
  exists (postJson now req st). split; [reflexivity|].
  split.
  { intros E. unfold postJson. rewrite E. reflexivity. }
  intros body E. rewrite (postJson_fields now req st body E).
  destruct (isNull body) eqn:Hnull.
  - destruct body; try discriminate Hnull. simpl.
    repeat split; try reflexivity; try discriminate.
  - repeat match goal with |- _ /\ _ => split end.
    + intros b Hb. rewrite postFields_mobile, Hb. reflexivity.
    + intros Hb. rewrite postFields_mobile, (asBoolean_none _ Hb). reflexivity.
    + intros b Hb. rewrite postFields_web, Hb. reflexivity.
    + intros Hb. rewrite postFields_web, (asBoolean_none _ Hb). reflexivity.
    + intros Hc. rewrite postFields_command, Hc. reflexivity.
    + intros s Hc. rewrite postFields_command, Hc. reflexivity.
    + intros Hc. rewrite postFields_command, Hc. reflexivity.
    + intros image Hi Hn Hc. rewrite postFields_images.
      rewrite (appended_one now body st image Hi Hn).
      destruct (getProp body (str "command")) as [v|]; [|reflexivity].
      destruct (isNull v); [reflexivity|].
      destruct (toStr v) eqn:Ev; [reflexivity|].
      exfalso. exact (Hc v eq_refl Ev).
    + intros Hi. rewrite postFields_images, (appended_none now body st Hi).
      rewrite app_nil_r.
      destruct (getProp body (str "command")) as [v|]; [|reflexivity].
      destruct (isNull v); [reflexivity|]. destruct (toStr v); reflexivity.
    + intros v Hc Ev. rewrite postFields_command, postFields_images, Hc.
      destruct (isNull v) eqn:Hv; [destruct v; discriminate|].
      rewrite Ev. split; reflexivity.
Qed.

Lemma POST_json_spec_witness :
  exists st',
    @POST literalNumbers 1700000000000 (Some (str "s1"))
      (jsonRequest "{'mobileConnected':true,'command':'open_camera','image':'data:image/png;base64,TWFu'}")
      ∅ = (Json200 st', <[str "s1" := st']> ∅) /\
    mobileConnected st' = true /\ webConnected st' = false /\
    command st' = Some (str "open_camera") /\
    images st' =
      [{| id := str "mobile-1700000000000-0";
          dataUrl := str "data:image/png;base64,TWFu";
          product := []; expiryDate := [] |}].
Proof.
  destruct (@POST_json_spec literalNumbers 1700000000000 (str "s1")
              (jsonRequest "{'mobileConnected':true,'command':'open_camera','image':'data:image/png;base64,TWFu'}")
              ∅) as (st' & HP & _ & Hbody).
  - discriminate.
  - vm_compute. reflexivity.
  - destruct (Hbody _ ltac:(vm_compute; reflexivity))
      as (Hm & _ & _ & Hw & _ & Hc & _ & Hi & _).
    exists st'. split; [exact HP|]. split; [|split; [|split]].
    + apply Hm. vm_compute. reflexivity.
    + rewrite Hw; [reflexivity|]. intros b. vm_compute. discriminate.
    + apply Hc. vm_compute. reflexivity.
    + rewrite (Hi (str "data:image/png;base64,TWFu")).
      * vm_compute. reflexivity.
      * vm_compute. reflexivity.
      * discriminate.
      * intros v. vm_compute. intros [= <-]. discriminate.
Defined.

End SessionFacts.

(** ** The extraction client *)

Module AnalyzeFacts.
Import Analyze.
Import AnalyzeSpec.

(** *** The placeholder pattern *)

(** A greedy star over a class, followed by something that only accepts at
    the end of the input, matches exactly when the class holds of all that
    is left: giving back code units never helps. *)
Lemma star_class_to_end (p : N -> bool) ma (k : cont) :
  (forall i rest c k', ma i rest c k' = rmatch (Class p) i rest c k') ->
  (forall m i x r c, k m i (x :: r) c = None) ->
  forall rest n acc i c, (length rest <= n)%nat ->
    star_loop ma k n acc i rest c =
    if forallb p rest then k (acc ++ rest) (i + length rest)%nat [] c else None.
Proof.
  intros Hma Hk. induction rest as [|x rest IH]; intros n acc i c Hn.
  - simpl. rewrite app_nil_r, Nat.add_0_r. destruct n; [reflexivity|].
    cbn [star_loop]. rewrite Hma. reflexivity.
  - destruct n as [|n]; [simpl in Hn; lia|]. simpl in Hn.
    cbn [star_loop]. rewrite Hma.
    cbn [rmatch forallb length]. destruct (p x); cbn [andb].
    + rewrite IH by lia. rewrite <- app_assoc. cbn [app].
      replace (S i + length rest)%nat with (i + S (length rest))%nat by lia.
      destruct (forallb p rest); [|apply Hk].
      match goal with |- match ?t with _ => _ end = _ => destruct t end;
        [reflexivity|apply Hk].
    + apply Hk.
Qed.

Lemma test_placeholder s : test re_placeholder s = placeholder_whole s.
Proof.
  unfold test, exec, re_placeholder. rewrite search_Bol.
  unfold placeholder_whole, Plus, digit.
  change (Lit (str "product_")) with
    (Seq (Class (N.eqb 112)) (Seq (Class (N.eqb 114)) (Seq (Class (N.eqb 111))
      (Seq (Class (N.eqb 100)) (Seq (Class (N.eqb 117)) (Seq (Class (N.eqb 99))
        (Seq (Class (N.eqb 116)) (Seq (Class (N.eqb 95)) Eps)))))))).
  cbn [rmatch Nat.eqb app].
  repeat first
    [ reflexivity
    | rewrite (star_class_to_end isDigit);
        [|intros; reflexivity|intros; reflexivity|lia]
    | match goal with
      | |- context [match ?l with [] => _ | _ :: _ => _ end] =>
          is_var l; destruct l; cbn [rmatch Nat.eqb app andb]
      | |- context [if ?b then _ else _] =>
          match type of b with bool => idtac end;
          destruct b; cbn [rmatch Nat.eqb app andb]
      end ].
Qed.

Lemma placeholder_whole_iff s : placeholder_whole s = true <-> placeholder_form s.
Proof.
  split.
  - unfold placeholder_whole. intros Hh.
    do 9 (destruct s as [|? s]; [discriminate Hh|]).
    split_andb.
    repeat match goal with H : (_ =? _) = true |- _ => apply N.eqb_eq in H; subst end.
    exists (n7 :: s). repeat split; [discriminate|]. simpl.
    apply andb_true_iff. split; assumption.
  - intros (ds & -> & Hne & Hd). destruct ds as [|d ds]; [contradiction|].
    simpl in Hd. simpl. exact Hd.
Qed.

(** *** Manual overrides *)

Lemma not_placeholder_test s : ~ placeholder_form s -> test re_placeholder s = false.
Proof.
  intros Hn. rewrite test_placeholder.
  destruct (placeholder_whole s) eqn:E; [|reflexivity].
  exfalso. apply Hn, placeholder_whole_iff, E.
Qed.

Lemma placeholder_test s : placeholder_form s -> test re_placeholder s = true.
Proof. intros Hp. rewrite test_placeholder. apply placeholder_whole_iff, Hp. Qed.

Lemma applyManual_product mp md e :
  product (applyManual mp md e) =
    match mp with
    | Some (FText s) =>
        match trim s with
        | [] => product e
        | _ => if test re_placeholder (trim s) then product e
               else slice0 120 (trim s)
        end
    | _ => product e
    end.
Proof.
  unfold applyManual.
  destruct md as [[d|f]|]; [destruct (trim d)|..];
    destruct mp as [[s|f']|]; try reflexivity;
    destruct (trim s); try reflexivity;
    destruct (test re_placeholder _); reflexivity.
Qed.

Lemma applyManual_expiryDate mp md e :
  expiryDate (applyManual mp md e) =
    match md with
    | Some (FText s) =>
        match trim s with
        | [] => expiryDate e
        | _ => coerceIsoDate s
        end
    | _ => expiryDate e
    end.
Proof.
  unfold applyManual.
  destruct md as [[d|f]|]; [destruct (trim d)|..];
    destruct mp as [[s|f']|]; try reflexivity;
    destruct (trim s); try reflexivity;
    destruct (test re_placeholder _); reflexivity.
Qed.

Lemma slice0_length n s : (length (slice0 n s) <= n)%nat.
Proof. unfold slice0. rewrite length_take. lia. Qed.

(** C8, as the specification states it, fails: a manual product that is
    not empty and is not a placeholder does not always replace the
    extracted name, and when it does it is not the supplied text that is
    stored. The handler trims the override first: a blank override is
    dropped, a placeholder with spaces around it is recognised as one, and
    a name is stored without its surrounding spaces. *)
Lemma applyManual_untrimmed_differs :
  let e := {| product := str "MILK"; expiryDate := [] |} in
  (str " " <> [] /\ ~ placeholder_form (str " ") /\
   product (applyManual (Some (FText (str " "))) None e) = str "MILK") /\
  (~ placeholder_form (str " product_3 ") /\
   product (applyManual (Some (FText (str " product_3 "))) None e) = str "MILK") /\
  (product (applyManual (Some (FText (str " Oat milk "))) None e) = str "Oat milk" /\
   slice0 120 (str " Oat milk ") <> str "Oat milk").
Proof.
  cbv zeta. repeat split; try (vm_compute; reflexivity); try discriminate.
  - intros Hp. apply placeholder_whole_iff in Hp. discriminate Hp.
  - intros Hp. apply placeholder_whole_iff in Hp. discriminate Hp.
Qed.

(** C8 (amended). A manual product override that is a text replaces the
    extracted product name by its trimmed text cut to 120 code units
    exactly when that trimmed text is not empty and is not [product_]
    followed by digits; in every other case the extracted name stays. A
    manual date override that is a text and is not blank replaces the
    extracted date by its normalized form; otherwise the extracted date
    stays. *)
Theorem applyManual_spec (manualProduct manualDate : option FormValue)
  (extracted : AnalyzeResponse) :
  (forall s, manualProduct = Some (FText s) ->
     trim s <> [] -> ~ placeholder_form (trim s) ->
     product (applyManual manualProduct manualDate extracted) =
       slice0 120 (trim s) /\
     (length (product (applyManual manualProduct manualDate extracted)) <= 120)%nat) /\
  (forall s, manualProduct = Some (FText s) ->
     trim s = [] \/ placeholder_form (trim s) ->
     product (applyManual manualProduct manualDate extracted) = product extracted) /\
  ((forall s, manualProduct <> Some (FText s)) ->
     product (applyManual manualProduct manualDate extracted) = product extracted) /\
  (forall s, manualDate = Some (FText s) -> trim s <> [] ->
     expiryDate (applyManual manualProduct manualDate extracted) = coerceIsoDate s) /\
  (forall s, manualDate = Some (FText s) -> trim s = [] ->
     expiryDate (applyManual manualProduct manualDate extracted) =
       expiryDate extracted) /\
  ((forall s, manualDate <> Some (FText s)) ->
     expiryDate (applyManual manualProduct manualDate extracted) =
       expiryDate extracted).
Proof.
  repeat match goal with |- _ /\ _ => split end.
  - intros s -> Hne Hnp. rewrite applyManual_product.
    rewrite (not_placeholder_test _ Hnp).
    destruct (trim s) eqn:E; [contradiction|].
    split; [reflexivity|apply slice0_length].
  - intros s -> [Ht|Hp]; rewrite applyManual_product.
    + rewrite Ht. reflexivity.
    + rewrite (placeholder_test _ Hp). destruct (trim s); reflexivity.
  - intros Hn. rewrite applyManual_product.
    destruct manualProduct as [[s|f]|]; try reflexivity.
    exfalso. apply (Hn s). reflexivity.
  - intros s -> Hne. rewrite applyManual_expiryDate.
    destruct (trim s); [contradiction|reflexivity].
  - intros s -> Ht. rewrite applyManual_expiryDate, Ht. reflexivity.
  - intros Hn. rewrite applyManual_expiryDate.
    destruct manualDate as [[s|f]|]; try reflexivity.
    exfalso. apply (Hn s). reflexivity.
Qed.

Lemma applyManual_spec_witness :
  let e := {| product := str "MILK"; expiryDate := str "2027-01-01" |} in
  product (applyManual (Some (FText (str " Oat milk "))) (Some (FText (str "06/07/2029"))) e)
    = str "Oat milk" /\
  expiryDate (applyManual (Some (FText (str " Oat milk "))) (Some (FText (str "06/07/2029"))) e)
    = str "2029-07-06" /\
  product (applyManual (Some (FText (str "product_12"))) (Some (FText (str "  "))) e)
    = str "MILK" /\
  expiryDate (applyManual (Some (FText (str "product_12"))) (Some (FText (str "  "))) e)
    = str "2027-01-01".
Proof.
  cbv zeta. repeat match goal with |- _ /\ _ => split end.
  - destruct (applyManual_spec (Some (FText (str " Oat milk ")))
                (Some (FText (str "06/07/2029")))
                {| product := str "MILK"; expiryDate := str "2027-01-01" |})
      as (H & _).
    destruct (H (str " Oat milk ") eq_refl) as [Hp _].
    + vm_compute. discriminate.
    + intros Hc. apply placeholder_whole_iff in Hc. discriminate Hc.
    + rewrite Hp. vm_compute. reflexivity.
  - destruct (applyManual_spec (Some (FText (str " Oat milk ")))
                (Some (FText (str "06/07/2029")))
                {| product := str "MILK"; expiryDate := str "2027-01-01" |})
      as (_ & _ & _ & H & _).
    rewrite (H (str "06/07/2029") eq_refl); [vm_compute; reflexivity|].
    vm_compute. discriminate.
  - destruct (applyManual_spec (Some (FText (str "product_12")))
                (Some (FText (str "  ")))
                {| product := str "MILK"; expiryDate := str "2027-01-01" |})
      as (_ & H & _).
    rewrite (H (str "product_12") eq_refl); [reflexivity|].
    right. apply placeholder_whole_iff. vm_compute. reflexivity.
  - destruct (applyManual_spec (Some (FText (str "product_12")))
                (Some (FText (str "  ")))
                {| product := str "MILK"; expiryDate := str "2027-01-01" |})
      as (_ & _ & _ & _ & H & _).
    rewrite (H (str "  ") eq_refl); [reflexivity|].
    vm_compute. reflexivity.
Defined.

(** *** The reply parser *)








Section ReplyFacts.
Context `{NumberOps}.



Lemma fallback_product rawText e :
  product (fallback rawText e) =
    match exec re_product rawText with
    | Some (_, p) => unescapeQuotes (cap 1 p)
    | None => product e
    end.
Proof.
  unfold fallback.
  destruct (exec re_expiryDate rawText) as [[w d]|];
    destruct (exec re_product rawText) as [[w' p]|]; reflexivity.
Qed.

Lemma fallback_expiryDate rawText e :
  expiryDate (fallback rawText e) =
    match exec re_expiryDate rawText with
    | Some (_, d) => coerceIsoDate (unescapeQuotes (cap 1 d))
    | None => expiryDate e
    end.
Proof.
  unfold fallback.
  destruct (exec re_expiryDate rawText) as [[w d]|];
    destruct (exec re_product rawText) as [[w' p]|]; reflexivity.
Qed.



End ReplyFacts.

(** *** The fallback expressions *)

Lemma rmatch_Lit l i rest c k :
  rmatch (Lit l) i rest c k =
  match stripPrefix l rest with
  | Some r => k l (i + length l)%nat r c
  | None => None
  end.
Proof.
  revert i rest k. induction l as [|a l IH]; intros i rest k.
  - simpl. rewrite Nat.add_0_r. reflexivity.
  - destruct rest as [|b rest]; [reflexivity|].
    cbn [Lit rmatch stripPrefix]. destruct (N.eqb_spec a b) as [<-|Hne]; [|reflexivity].
    rewrite IH. destruct (stripPrefix l rest); [|reflexivity].
    cbn [app length]. f_equal. lia.
Qed.

(** A greedy star over a class, followed by something that refuses to
    start on a code unit of the class, takes the longest run. *)
Lemma star_class_run (p : N -> bool) ma (k : cont) :
  (forall i rest c k', ma i rest c k' = rmatch (Class p) i rest c k') ->
  (forall m i x r c, p x = true -> k m i (x :: r) c = None) ->
  forall rest n acc i c, (length rest <= n)%nat ->
    star_loop ma k n acc i rest c =
    k (acc ++ run p rest) (i + length (run p rest))%nat (after_run p rest) c.
Proof.
  intros Hma Hk. induction rest as [|x rest IH]; intros n acc i c Hn.
  - simpl. rewrite app_nil_r, Nat.add_0_r. destruct n; [reflexivity|].
    cbn [star_loop]. rewrite Hma. reflexivity.
  - destruct n as [|n]; [simpl in Hn; lia|]. simpl in Hn.
    cbn [star_loop]. rewrite Hma.
    cbn [rmatch run after_run]. destruct (p x) eqn:Hx.
    + rewrite IH by lia. rewrite <- app_assoc. cbn [app length].
      replace (S i + length (run p rest))%nat
        with (i + S (length (run p rest)))%nat by lia.
      match goal with |- match ?t with _ => _ end = _ => destruct t end;
        [reflexivity|apply Hk, Hx].
    + rewrite app_nil_r. cbn [length]. rewrite Nat.add_0_r. reflexivity.
Qed.


Lemma content_nonquote_fail (k : cont) :
  (forall m i x r c, (quote =? x) = false -> k m i (x :: r) c = None) ->
  forall x, notQuoteNorBackslash x = true \/ (backslash =? x) = true ->
  forall m i r c, k m i (x :: r) c = None.
Proof.
  intros Hk x Hx m i r c. apply Hk. unfold notQuoteNorBackslash in Hx.
  destruct Hx as [Hx|Hx].
  - apply andb_true_iff in Hx as [Hx _]. apply negb_true_iff in Hx.
    rewrite N.eqb_sym. exact Hx.
  - apply N.eqb_eq in Hx. subst x. reflexivity.
Qed.

(** The greedy star of the quoted value, followed by something that only
    starts on a quote, takes the longest run of items. *)
Lemma star_content ma (k : cont) :
  (forall i rest c k',
     ma i rest c k' =
     rmatch (Alt (Class notQuoteNorBackslash)
                 (Seq (Class (N.eqb backslash)) (Class dot))) i rest c k') ->
  (forall m i x r c, (quote =? x) = false -> k m i (x :: r) c = None) ->
  forall n rest acc i c, (length rest <= n)%nat ->
    star_loop ma k n acc i rest c =
    k (acc ++ content rest) (i + length (content rest))%nat (after_content rest) c.
Proof.
  intros Hma Hk. induction n as [|n IH]; intros rest acc i c Hn.
  - destruct rest; [|simpl in Hn; lia]. simpl.
    rewrite app_nil_r, Nat.add_0_r. reflexivity.
  - cbn [star_loop]. rewrite Hma. destruct rest as [|x rest].
    + simpl. rewrite app_nil_r, Nat.add_0_r. reflexivity.
    + simpl in Hn. cbn [rmatch content after_content].
      destruct (notQuoteNorBackslash x) eqn:Hx.
      * rewrite IH by lia. rewrite <- app_assoc. cbn [app length].
        replace (S i + length (content rest))%nat
          with (i + S (length (content rest)))%nat by lia.
        match goal with |- match match ?t with _ => _ end with _ => _ end = _ =>
          destruct t end; [reflexivity|].
        assert (Hb : (backslash =? x) = false).
        { unfold notQuoteNorBackslash in Hx. apply andb_true_iff in Hx as [_ Hx].
          apply negb_true_iff in Hx. rewrite N.eqb_sym. exact Hx. }
        rewrite Hb. apply (content_nonquote_fail k Hk x). left. exact Hx.
      * destruct (backslash =? x) eqn:Hb.
        -- destruct rest as [|y rest].
           ++ rewrite app_nil_r. cbn [length]. rewrite Nat.add_0_r. reflexivity.
           ++ destruct (dot y) eqn:Hy.
              ** simpl in Hn. rewrite IH by lia.
                 cbn [app length]. rewrite <- app_assoc. cbn [app].
                 replace (S (S i) + length (content rest))%nat
                   with (i + S (S (length (content rest))))%nat by lia.
                 match goal with |- match ?t with _ => _ end = _ => destruct t end;
                   [reflexivity|].
                 apply (content_nonquote_fail k Hk x). right. exact Hb.
              ** rewrite app_nil_r. cbn [length]. rewrite Nat.add_0_r. reflexivity.
        -- rewrite app_nil_r. cbn [length]. rewrite Nat.add_0_r. reflexivity.
Qed.

Lemma space_not_colon x : isWhiteSpace x = true -> (58 =? x) = false.
Proof. intros Hx. destruct (N.eqb_spec 58 x) as [<-|]; [discriminate Hx|reflexivity]. Qed.

Lemma space_not_quote x : isWhiteSpace x = true -> (quote =? x) = false.
Proof. intros Hx. destruct (N.eqb_spec quote x) as [<-|]; [discriminate Hx|reflexivity]. Qed.

Lemma rmatch_field name i u :
  rmatch (re_field name) i u [] accept = field_here name u.
Proof.
  unfold re_field, re_quoted, field_here. cbv zeta.
  change (Lit (str ":")) with (Seq (Class (N.eqb 58)) Eps).
  cbn [rmatch]. rewrite rmatch_Lit.
  destruct (stripPrefix (quote :: str name ++ [quote]) u) as [r1|]; [|reflexivity].
  rewrite (star_class_run isWhiteSpace);
    [|intros; reflexivity
     |intros m j x r c Hx; rewrite (space_not_colon x Hx); reflexivity
     |lia].
  destruct (after_run isWhiteSpace r1) as [|x r3]; [reflexivity|].
  destruct (58 =? x); [|reflexivity].
  rewrite (star_class_run isWhiteSpace);
    [|intros; reflexivity
     |intros m j y r c Hy; rewrite (space_not_quote y Hy); reflexivity
     |lia].
  destruct (after_run isWhiteSpace r3) as [|y r5]; [reflexivity|].
  destruct (quote =? y); [|reflexivity].
  rewrite star_content;
    [|intros; reflexivity
     |intros m j z r c Hz; rewrite Hz; reflexivity
     |lia].
  destruct (after_content r5) as [|z r6]; [reflexivity|].
  destruct (quote =? z); [|reflexivity].
  reflexivity.
Qed.


Lemma exec_field name s : exec (re_field name) s = first_suffix (field_here name) s.
Proof. apply search_first. intros; apply rmatch_field. Qed.

Lemma stripPrefix_Some l s r : stripPrefix l s = Some r -> s = l ++ r.
Proof.
  revert s. induction l as [|a l IH]; intros s; simpl.
  - intros [= ->]. reflexivity.
  - destruct s as [|b s]; [discriminate|].
    destruct (N.eqb_spec a b) as [<-|]; [|discriminate].
    intros E. rewrite (IH _ E). reflexivity.
Qed.

Lemma stripPrefix_app l r : stripPrefix l (l ++ r) = Some r.
Proof.
  induction l as [|a l IH]; simpl; [reflexivity|].
  rewrite N.eqb_refl. exact IH.
Qed.

Lemma run_split p s : s = run p s ++ after_run p s /\ forallb p (run p s) = true.
Proof.
  induction s as [|x s [IH1 IH2]]; simpl; [split; reflexivity|].
  destruct (p x) eqn:Hx; simpl.
  - rewrite Hx, IH2. split; [f_equal; exact IH1|reflexivity].
  - split; reflexivity.
Qed.

Lemma run_app p a x r :
  forallb p a = true -> p x = false ->
  run p (a ++ x :: r) = a /\ after_run p (a ++ x :: r) = x :: r.
Proof.
  intros Ha Hx. induction a as [|y a IH]; simpl.
  - rewrite Hx. split; reflexivity.
  - simpl in Ha. apply andb_true_iff in Ha as [Hy Ha]. rewrite Hy.
    destruct (IH Ha) as [-> ->]. split; reflexivity.
Qed.

Lemma content_split s : s = content s ++ after_content s /\ quoted_content (content s).
Proof.
  assert (Hgen : forall n s, (length s <= n)%nat ->
            s = content s ++ after_content s /\ quoted_content (content s)).
  { induction n as [|n IH]; intros [|x t] Hn; simpl in Hn; try lia;
      try (split; [reflexivity|constructor]).
    cbn [content after_content]. destruct (notQuoteNorBackslash x) eqn:Hx.
    - destruct (IH t ltac:(lia)) as [E Q]. split.
      + cbn [app]. f_equal. exact E.
      + constructor; assumption.
    - destruct (backslash =? x) eqn:Hb; [|split; [reflexivity|constructor]].
      apply N.eqb_eq in Hb. subst x.
      destruct t as [|y t]; [split; [reflexivity|constructor]|].
      destruct (dot y) eqn:Hy; [|split; [reflexivity|constructor]].
      simpl in Hn. destruct (IH t ltac:(lia)) as [E Q]. split.
      + cbn [app]. do 2 f_equal. exact E.
      + constructor; assumption. }
  apply (Hgen (length s)). lia.
Qed.

Lemma content_app v r :
  quoted_content v ->
  content (v ++ quote :: r) = v /\ after_content (v ++ quote :: r) = quote :: r.
Proof.
  induction 1 as [|x v Hx _ [IH1 IH2]|y v Hy _ [IH1 IH2]].
  - split; reflexivity.
  - simpl. rewrite Hx, IH1, IH2. split; reflexivity.
  - cbn [app content after_content].
    change (notQuoteNorBackslash backslash) with false. cbv iota.
    rewrite N.eqb_refl, Hy, IH1, IH2. split; reflexivity.
Qed.

Lemma field_here_Some name u w c :
  field_here name u = Some (w, c) <->
  exists v (q r : jsstring) post,
    u = w ++ post /\ field_form name w v /\ c = [(1%nat, v)].
Proof.
  split.
  - unfold field_here. cbv zeta.
    destruct (stripPrefix _ u) as [r1|] eqn:E1; [|discriminate].
    apply stripPrefix_Some in E1.
    destruct (run_split isWhiteSpace r1) as [S1 W1].
    destruct (after_run isWhiteSpace r1) as [|x r3]; [discriminate|].
    destruct (N.eqb_spec 58 x) as [<-|]; [|discriminate].
    destruct (run_split isWhiteSpace r3) as [S3 W3].
    destruct (after_run isWhiteSpace r3) as [|y r5]; [discriminate|].
    destruct (N.eqb_spec quote y) as [<-|]; [|discriminate].
    destruct (content_split r5) as [S5 Q5].
    destruct (after_content r5) as [|z r6]; [discriminate|].
    destruct (N.eqb_spec quote z) as [<-|]; [|discriminate].
    intros [= <- <-]. exists (content r5), [], [], r6. split; [|split; [|reflexivity]].
    + rewrite E1, S1 at 1. rewrite S3 at 1. rewrite S5 at 1.
      cbn [app]. repeat (rewrite <- app_assoc; cbn [app]). reflexivity.
    + exists (run isWhiteSpace r1), (run isWhiteSpace r3). repeat split; assumption.
  - intros (v & _ & _ & post & -> & (ws1 & ws2 & W1 & W2 & Q & ->) & ->).
    unfold field_here. cbv zeta. rewrite <- !app_assoc.
    rewrite stripPrefix_app.
    destruct (run_app isWhiteSpace ws1 58
                (ws2 ++ [quote] ++ v ++ [quote] ++ post) W1 eq_refl) as [R1 A1].
    cbn [app] in *. rewrite R1, A1. cbn [N.eqb Pos.eqb].
    destruct (run_app isWhiteSpace ws2 quote (v ++ quote :: post) W2 eq_refl)
      as [R2 A2].
    rewrite R2, A2. cbn [N.eqb Pos.eqb quote].
    destruct (content_app v post Q) as [R3 A3]. rewrite R3, A3.
    cbn [N.eqb Pos.eqb quote]. reflexivity.
Qed.






(** *** Escaped quotes *)

Lemma unescapeQuotes_two a b s :
  unescapeQuotes (a :: b :: s) =
    if (a =? backslash) && (b =? quote) then quote :: unescapeQuotes s
    else a :: unescapeQuotes (b :: s).
Proof. reflexivity. Qed.

Lemma unescapeQuotes_head y v :
  quoted_content v -> unescapeQuotes (y :: v) = y :: unescapeQuotes v.
Proof.
  intros Hv. destruct Hv as [|x v Hx Hv|z v Hz Hv]; [reflexivity| |].
  - rewrite unescapeQuotes_two. unfold notQuoteNorBackslash in Hx.
    apply andb_true_iff in Hx as [Hq _]. apply negb_true_iff in Hq.
    rewrite Hq, andb_false_r. reflexivity.
  - rewrite unescapeQuotes_two. change (backslash =? quote) with false.
    rewrite andb_false_r. reflexivity.
Qed.

(** On the value texts the fallback accepts, the replace of the handler
    undoes the escaped quotes and nothing else. *)
Lemma unescaped_content v : quoted_content v -> unescaped v (unescapeQuotes v).
Proof.
  induction 1 as [|x v Hx Hv IH|y v Hy Hv IH]; [constructor| |].
  - rewrite (unescapeQuotes_head x v Hv). constructor; assumption.
  - rewrite unescapeQuotes_two, N.eqb_refl. cbn [andb].
    destruct (N.eqb_spec y quote) as [->|Hne].
    + constructor. exact IH.
    + rewrite (unescapeQuotes_head y v Hv). constructor; assumption.
Qed.


Lemma field_first_content name s v : field_first name s v -> quoted_content v.
Proof.
  intros (pre & w & post & _ & (ws1 & ws2 & _ & _ & Hq & _) & _). exact Hq.
Qed.

(** What the search of a fallback expression reports is the leftmost
    field of its name. *)
Lemma exec_field_first name s w c :
  exec (re_field name) s = Some (w, c) ->
  exists v, c = [(1%nat, v)] /\ field_first name s v.
Proof.
  rewrite exec_field. intros Hs.
  apply (leftmost_by_search (field_here name)
           (fun w v' _ _ => field_form name w v') (fun v' _ _ => [(1%nat, v')])
           (field_here_Some name)) in Hs as (p & q & r & E & Hl).
  exists p. split; [exact E|exact Hl].
Qed.

Lemma field_first_not_absent name s v : field_first name s v -> ~ field_absent name s.
Proof.
  intros (pre & w & post & E & Hf & _) Hn. apply Hn.
  exists pre, w, post, v, [], []. split; assumption.
Qed.

(** *** A JSON object of two strings *)









Lemma noUnit_by_test c s : forallb (fun x => negb (x =? c)) s = true -> noUnit c s.
Proof.
  induction s as [|x s IH]; simpl; intros Hs; constructor.
  - apply andb_true_iff in Hs as [Hx _]. apply negb_true_iff, N.eqb_neq in Hx. exact Hx.
  - apply IH. apply andb_true_iff in Hs as [_ Hs]. exact Hs.
Qed.



(** *** The length of the product *)

(** On the two paths that cut the product it is at most 120 code units
    long: when the reply is read as JSON, and when a manual product
    replaces it. *)
Lemma tryJson_product_bounded `{NumberOps} raw e :
  tryJson raw nothing = Normal e -> (length (product e) <= 120)%nat.
Proof.
  unfold tryJson. destruct (JSON_parse raw) as [parsed|]; [|discriminate].
  destruct (isNull parsed); [discriminate|].
  destruct (toStr _) as [p|]; [|discriminate]. cbv zeta.
  pose proof (slice0_length 120 (trim p)) as Hl.
  revert Hl. generalize (slice0 120 (trim p)). intros cut Hl.
  destruct (truthy _); [destruct (toStr _); [|discriminate]|];
    intros [= <-]; exact Hl.
Qed.

(** C4: the code breaks the bound. When the reply is not valid JSON the
    fallback stores what its expression captures without cutting it, so a
    product of 121 code units is returned. The other two paths, reading the
    reply as JSON and the manual override, both cut to 120. *)
Theorem POST_product_exceeds_120 `{NumberOps} :
  JSON_parse (braced longReply) = None /\
  exists e,
    POST (Some imageOnly) (Some (str "key")) (Reply longReply) = Json200 e /\
    product e = repeat 65 121 /\ length (product e) = 121%nat.
Proof.
  split; [vm_compute; reflexivity|].
  eexists. split; [|split].
  - vm_compute. reflexivity.
  - reflexivity.
  - reflexivity.
Qed.

End AnalyzeFacts.

(** ** The relay across requests *)

Module RelayFacts.
Import Session SessionSpec SessionFacts RelaySpec.

Section Relay.
Context `{NumberOps}.

(** X1. What a POST answers is what a GET right after it answers, and that
    GET leaves the store as the POST left it. *)
Theorem POST_then_GET (now : Z) (sid : jsstring) (req : Request)
  (sessions sessions' : Sessions) (r : Response) :
  sid <> [] ->
  POST now (Some sid) req sessions = (r, sessions') ->
  GET (Some sid) sessions' = (r, sessions').
Proof.
  intros Hne. rewrite (POST_at now sid req sessions Hne). intros [= <- <-].
  destruct sid as [|c sid]; [contradiction|].
  rewrite GET_ok, current_insert, insert_insert_eq. reflexivity.
Qed.

Lemma GET_store (sessionId : option jsstring) (sessions : Sessions) :
  snd (GET sessionId sessions) = sessions \/
  exists sid, sessionId = Some sid /\ sid <> [] /\
    snd (GET sessionId sessions) = <[sid := current sid sessions]> sessions.
Proof.
  destruct sessionId as [[|c sid]|]; [left; reflexivity| |left; reflexivity].
  right. exists (c :: sid). rewrite GET_ok. repeat split. discriminate.
Qed.

Lemma POST_store (now : Z) (sessionId : option jsstring) (req : Request)
  (sessions : Sessions) :
  snd (POST now sessionId req sessions) = sessions \/
  exists sid st', sessionId = Some sid /\ sid <> [] /\
    snd (POST now sessionId req sessions) = <[sid := st']> sessions /\
    exists added, images st' = images (current sid sessions) ++ added /\
                  (length added <= 1)%nat.
Proof.
  destruct sessionId as [[|c sid]|]; [left; reflexivity| |left; reflexivity].
  right. exists (c :: sid). rewrite POST_ok. cbv zeta. eexists.
  split; [reflexivity|]. split; [discriminate|]. split; [reflexivity|].
  destruct (multipart req).
  - destruct (postMultipart_cases now req (current (c :: sid) sessions))
      as [(file & form & _ & _ & _ & ->)|[_ ->]].
    + eexists. split; [reflexivity|]. simpl. lia.
    + exists []. rewrite app_nil_r. split; [reflexivity|]. simpl. lia.
  - unfold postJson. destruct (JSON_parse (bodyText req)) as [body|].
    2:{ exists []. rewrite app_nil_r. split; [reflexivity|]. simpl. lia. }
    destruct (isNull body).
    { exists []. rewrite app_nil_r. split; [reflexivity|]. simpl. lia. }
    rewrite postFields_images.
    assert (Ha : (length (appended now body (current (c :: sid) sessions)) <= 1)%nat).
    { unfold appended. destruct (asString _) as [[|x s]|]; simpl; lia. }
    destruct (getProp body (str "command")) as [v|].
    + destruct (isNull v); [eexists; split; [reflexivity|exact Ha]|].
      destruct (toStr v); [eexists; split; [reflexivity|exact Ha]|].
      exists []. rewrite app_nil_r. split; [reflexivity|]. simpl. lia.
    + eexists; split; [reflexivity|exact Ha].
Qed.

(** X2. A request leaves every session other than the one it names as it
    was, stored or not; a request without a session identifier leaves them
    all. *)
Theorem other_sessions_untouched (now : Z) (sessionId : option jsstring)
  (req : Request) (sessions : Sessions) (other : jsstring) :
  sessionId <> Some other ->
  snd (GET sessionId sessions) !! other = sessions !! other /\
  snd (POST now sessionId req sessions) !! other = sessions !! other.
Proof.
  intros Hne. split.
  - destruct (GET_store sessionId sessions) as [->|(sid & -> & _ & ->)];
      [reflexivity|].
    apply lookup_insert_ne. congruence.
  - destruct (POST_store now sessionId req sessions)
      as [->|(sid & st' & -> & _ & -> & _)]; [reflexivity|].
    apply lookup_insert_ne. congruence.
Qed.

Lemma request_grows (sessions sessions' : Sessions) (sid : jsstring) :
  request sessions sessions' ->
  (is_Some (sessions !! sid) -> is_Some (sessions' !! sid)) /\
  images (current sid sessions) `prefix_of` images (current sid sessions').
Proof.
  intros [sessionId ss|now sessionId req ss].
  - destruct (GET_store sessionId ss) as [->|(sid' & -> & _ & ->)];
      [split; [tauto|reflexivity]|].
    destruct (decide (sid' = sid)) as [->|Hne].
    + rewrite current_insert, lookup_insert_eq. split; [eauto|reflexivity].
    + rewrite current_insert_ne, lookup_insert_ne by exact Hne.
      split; [tauto|reflexivity].
  - destruct (POST_store now sessionId req ss)
      as [->|(sid' & st' & -> & _ & -> & added & Hi & _)];
      [split; [tauto|reflexivity]|].
    destruct (decide (sid' = sid)) as [->|Hne].
    + rewrite current_insert, lookup_insert_eq. split; [eauto|].
      rewrite Hi. apply prefix_app_r. reflexivity.
    + rewrite current_insert_ne, lookup_insert_ne by exact Hne.
      split; [tauto|reflexivity].
Qed.

(** X3. Over any sequence of requests a session that is stored stays
    stored, and the images of every session only grow at the end: what was
    there before is still there, in the same places and unchanged. *)
Theorem images_append_only (sessions sessions' : Sessions) (sid : jsstring) :
  requests sessions sessions' ->
  (is_Some (sessions !! sid) -> is_Some (sessions' !! sid)) /\
  (exists added,
     images (current sid sessions') = images (current sid sessions) ++ added) /\
  (forall k img, images (current sid sessions) !! k = Some img ->
     images (current sid sessions') !! k = Some img).
Proof.
  intros Hr.
  assert (Hg : (is_Some (sessions !! sid) -> is_Some (sessions' !! sid)) /\
               images (current sid sessions) `prefix_of` images (current sid sessions')).
  { induction Hr as [ss|ss ss1 ss2 _ [IH1 IH2] Hstep].
    - split; [tauto|reflexivity].
    - destruct (request_grows ss1 ss2 sid Hstep) as [H1 H2].
      split; [tauto|]. etransitivity; eassumption. }
  destruct Hg as [Hs [added Ha]]. split; [exact Hs|]. split; [exists added; exact Ha|].
  intros k img Hk. rewrite Ha. apply lookup_app_l_Some, Hk.
Qed.

(** X4. A JSON body that has none of the four keys the handler reads, such
    as an empty object or any JSON value that is not an object, changes
    nothing in the session. *)
Theorem POST_json_unknown_keys (now : Z) (sid : jsstring) (req : Request)
  (sessions : Sessions) (body : jsvalue) :
  sid <> [] -> multipart req = false ->
  JSON_parse (bodyText req) = Some body ->
  (forall key, In key knownKeys -> getProp body key = None) ->
  POST now (Some sid) req sessions =
    (Json200 (current sid sessions), <[sid := current sid sessions]> sessions).
Proof.
  intros Hne Hm E Hk. rewrite (POST_at now sid req sessions Hne), Hm.
  assert (Hs : postJson now req (current sid sessions) = current sid sessions).
  { unfold postJson. rewrite E. destruct (isNull body); [reflexivity|].
    unfold postFields, postImage. cbv zeta.
    rewrite !Hk by (simpl; tauto). reflexivity. }
  rewrite Hs. reflexivity.
Qed.

End Relay.

Lemma POST_then_GET_witness :
  GET (Some (str "s1"))
    (snd (@POST literalNumbers 5 (Some (str "s1"))
            (jsonRequest "{'mobileConnected':true}") ∅)) =
  @POST literalNumbers 5 (Some (str "s1")) (jsonRequest "{'mobileConnected':true}") ∅.
Proof.
  rewrite (surjective_pairing (@POST literalNumbers 5 (Some (str "s1"))
             (jsonRequest "{'mobileConnected':true}") ∅)) at 2.
  apply (@POST_then_GET literalNumbers 5 (str "s1")
           (jsonRequest "{'mobileConnected':true}") ∅).
  - discriminate.
  - apply surjective_pairing.
Defined.

Lemma other_sessions_untouched_witness :
  snd (@POST literalNumbers 5 (Some (str "s1")) pngUpload twoUploads) !! str "s2"
    = twoUploads !! str "s2".
Proof.
  apply (@other_sessions_untouched literalNumbers 5 (Some (str "s1")) pngUpload
           twoUploads (str "s2")).
  discriminate.
Defined.

Lemma images_append_only_witness :
  exists added,
    images (current (str "s1") twoUploads) = images (current (str "s1") ∅) ++ added.
Proof.
  apply (@images_append_only literalNumbers ∅ twoUploads (str "s1")).
  unfold twoUploads.
  eapply requests_more; [eapply requests_more; [apply requests_none|]|];
    apply request_POST.
Defined.

Lemma POST_json_unknown_keys_witness :
  @POST literalNumbers 5 (Some (str "s1")) (jsonRequest "[true,{'image':'x'}]")
    twoUploads =
  (Json200 (current (str "s1") twoUploads),
   <[str "s1" := current (str "s1") twoUploads]> twoUploads).
Proof.
  apply (@POST_json_unknown_keys literalNumbers 5 (str "s1")
           (jsonRequest "[true,{'image':'x'}]") twoUploads
           (JArray [JBool true; JObject [(str "image", JString (str "x"))]])).
  - discriminate.
  - vm_compute. reflexivity.
  - vm_compute. reflexivity.
  - intros key _. reflexivity.
Defined.

End RelayFacts.

(** ** Data URLs *)

Module DataUrlFacts.
Import Session SessionSpec SessionFacts AnalyzeSpec AnalyzeFacts DataUrlSpec.

Lemma b64value_char n : n < 64 -> b64value (b64char n) = Some n.
Proof.
  intros Hn. unfold b64char, b64value.
  destruct (N.ltb_spec n 26).
  { replace ((65 <=? 65 + n) && (65 + n <=? 90)) with true
      by (symmetry; apply andb_true_iff; split; apply N.leb_le; lia).
    f_equal. lia. }
  destruct (N.ltb_spec n 52).
  { replace ((65 <=? 97 + (n - 26)) && (97 + (n - 26) <=? 90)) with false
      by (symmetry; apply andb_false_iff; right; apply N.leb_gt; lia).
    replace ((97 <=? 97 + (n - 26)) && (97 + (n - 26) <=? 122)) with true
      by (symmetry; apply andb_true_iff; split; apply N.leb_le; lia).
    f_equal. lia. }
  destruct (N.ltb_spec n 62).
  { replace ((65 <=? 48 + (n - 52)) && (48 + (n - 52) <=? 90)) with false
      by (symmetry; apply andb_false_iff; left; apply N.leb_gt; lia).
    replace ((97 <=? 48 + (n - 52)) && (48 + (n - 52) <=? 122)) with false
      by (symmetry; apply andb_false_iff; left; apply N.leb_gt; lia).
    replace ((48 <=? 48 + (n - 52)) && (48 + (n - 52) <=? 57)) with true
      by (symmetry; apply andb_true_iff; split; apply N.leb_le; lia).
    f_equal. lia. }
  assert (Hc : n = 62 \/ n = 63) by lia. destruct Hc as [-> | ->]; reflexivity.
Qed.

Lemma b64char_not_pad n : n < 64 -> (b64char n =? 61) = false.
Proof.
  intros Hn. apply N.eqb_neq. unfold b64char.
  repeat match goal with
    | |- context [if ?b then _ else _] => destruct b eqn:?
    end;
  repeat match goal with
    | H : (_ <? _) = true |- _ => apply N.ltb_lt in H
    | H : (_ <? _) = false |- _ => apply N.ltb_ge in H
    | H : (_ =? _) = true |- _ => apply N.eqb_eq in H
    | H : (_ =? _) = false |- _ => apply N.eqb_neq in H
    end; lia.
Qed.

Lemma byte_bound b : Byte.to_N b < 256.
Proof. pose proof (Byte.to_N_bounded b). lia. Qed.

Ltac divmod := zify; Z.to_euclidean_division_equations; lia.

Lemma sextets x y z :
  x < 256 -> y < 256 -> z < 256 ->
  x / 4 < 64 /\ (x mod 4) * 16 + y / 16 < 64 /\ (x mod 4) * 16 < 64 /\
  (y mod 16) * 4 + z / 64 < 64 /\ (y mod 16) * 4 < 64 /\ z mod 64 < 64.
Proof. intros. repeat split; divmod. Qed.

Lemma octets x y z :
  x < 256 -> y < 256 -> z < 256 ->
  (x / 4) * 4 + ((x mod 4) * 16) / 16 = x /\
  (x / 4) * 4 + ((x mod 4) * 16 + y / 16) / 16 = x /\
  (((x mod 4) * 16 + y / 16) mod 16) * 16 + ((y mod 16) * 4) / 4 = y /\
  (((x mod 4) * 16 + y / 16) mod 16) * 16 + ((y mod 16) * 4 + z / 64) / 4 = y /\
  (((y mod 16) * 4 + z / 64) mod 4) * 64 + z mod 64 = z.
Proof. intros. repeat split; divmod. Qed.

(** Reading back what [base64] wrote gives the bytes. *)
Lemma base64_roundtrip bytes : base64Decode (base64 bytes) = Some bytes.
Proof.
  assert (Hgen : forall n bytes, (length bytes <= n)%nat ->
            base64Decode (base64 bytes) = Some bytes).
  { induction n as [|n IH]; intros [|a [|b [|c rest]]] Hn; simpl in Hn; try lia;
      try reflexivity.
    - pose proof (byte_bound a) as Ha.
      destruct (sextets _ 0 0 Ha eq_refl eq_refl) as (S1 & _ & S2 & _).
      destruct (octets _ 0 0 Ha eq_refl eq_refl) as (O1 & _).
      cbn [base64 base64Decode]. cbv zeta.
      rewrite !b64value_char by assumption.
      rewrite O1, Byte.of_to_N. reflexivity.
    - pose proof (byte_bound a) as Ha. pose proof (byte_bound b) as Hb.
      destruct (sextets _ _ 0 Ha Hb eq_refl) as (S1 & S2 & _ & _ & S3 & _).
      destruct (octets _ _ 0 Ha Hb eq_refl) as (_ & O1 & O2 & _).
      cbn [base64 base64Decode]. cbv zeta.
      rewrite !b64value_char by assumption.
      rewrite (b64char_not_pad _ S3). cbn [andb N.eqb Pos.eqb].
      rewrite O1, O2, !Byte.of_to_N. reflexivity.
    - pose proof (byte_bound a) as Ha. pose proof (byte_bound b) as Hb.
      pose proof (byte_bound c) as Hc.
      destruct (sextets _ _ _ Ha Hb Hc) as (S1 & S2 & _ & S3 & _ & S4).
      destruct (octets _ _ _ Ha Hb Hc) as (_ & O1 & _ & O2 & O3).
      cbn [base64 base64Decode]. cbv zeta.
      rewrite !b64value_char by assumption.
      rewrite (b64char_not_pad _ S3), (b64char_not_pad _ S4). cbn [andb].
      rewrite IH by lia.
      rewrite O1, O2, O3, !Byte.of_to_N. reflexivity. }
  apply (Hgen (length bytes)). lia.
Qed.

Lemma no_semicolon_run mime :
  noUnit 59 mime -> forallb (fun c => negb (c =? 59)) mime = true.
Proof.
  induction 1 as [|x l Hx _ IH]; [reflexivity|]. simpl.
  apply N.eqb_neq in Hx. rewrite Hx, IH. reflexivity.
Qed.

Lemma bufferToDataUrl_inj buffer buffer' mime :
  bufferToDataUrl buffer mime = bufferToDataUrl buffer' mime -> buffer = buffer'.
Proof.
  intros E. unfold bufferToDataUrl in E. cbv zeta in E.
  rewrite !app_assoc in E. apply app_inv_head in E.
  apply (f_equal base64Decode) in E. rewrite !base64_roundtrip in E.
  injection E as E. exact E.
Qed.

Lemma readDataUrl_written buffer mime :
  noUnit 59 mime ->
  readDataUrl (bufferToDataUrl buffer mime) =
    Some (match mime with [] => str "image/jpeg" | _ => mime end, buffer).
Proof.
  intros Hm. unfold bufferToDataUrl, readDataUrl. cbv zeta.
  rewrite stripPrefix_app.
  assert (Hsplit : str ";base64," ++ base64 buffer
                   = 59 :: (str "base64," ++ base64 buffer)) by reflexivity.
  assert (Hread : forall m, forallb (fun c => negb (c =? 59)) m = true ->
            match
              stripPrefix (str ";base64,")
                (after_run (fun c => negb (c =? 59))
                   (m ++ str ";base64," ++ base64 buffer))
            with
            | Some payload =>
                match base64Decode payload with
                | Some bytes =>
                    Some (run (fun c => negb (c =? 59))
                            (m ++ str ";base64," ++ base64 buffer), bytes)
                | None => None
                end
            | None => None
            end = Some (m, buffer)).
  { intros m Hrun.
    destruct (run_app (fun c => negb (c =? 59)) m 59
                (str "base64," ++ base64 buffer) Hrun eq_refl) as [R A].
    rewrite Hsplit, R, A, <- Hsplit.
    rewrite stripPrefix_app, base64_roundtrip. reflexivity. }
  destruct mime as [|c t].
  - apply (Hread (str "image/jpeg")). reflexivity.
  - apply (Hread (c :: t)). apply no_semicolon_run, Hm.
Qed.

(** X5. The bytes of a file can be read back from the data URL the relay
    stores for it, so two different contents never get the same URL under
    one type; and when the type has no semicolon the type is read back
    too, [image/jpeg] standing for an empty one. *)
Theorem bufferToDataUrl_roundtrip (buffer : list Byte.byte) (mime : jsstring) :
  (forall buffer', bufferToDataUrl buffer mime = bufferToDataUrl buffer' mime ->
     buffer = buffer') /\
  (noUnit 59 mime ->
   readDataUrl (bufferToDataUrl buffer mime) =
     Some (match mime with [] => str "image/jpeg" | _ => mime end, buffer)).
Proof.
  split; [intros buffer'; apply bufferToDataUrl_inj|apply readDataUrl_written].
Qed.

Lemma bufferToDataUrl_roundtrip_witness :
  readDataUrl (bufferToDataUrl [Byte.x4d; Byte.x61] (str "image/png")) =
    Some (str "image/png", [Byte.x4d; Byte.x61]).
Proof.
  destruct (bufferToDataUrl_roundtrip [Byte.x4d; Byte.x61] (str "image/png"))
    as [_ H].
  apply H. apply noUnit_by_test. vm_compute. reflexivity.
Defined.

End DataUrlFacts.

(** ** The normalizer as a whole *)

Module NormalizerFacts.

Lemma trimStart_last l c :
  isWhiteSpace c = false -> trimStart (l ++ [c]) = trimStart l ++ [c].
Proof.
  intros Hc. induction l as [|x l IH]; simpl.
  - rewrite Hc. reflexivity.
  - destruct (isWhiteSpace x); [exact IH|reflexivity].
Qed.

Lemma trimStart_head s :
  trimStart s = [] \/ exists c t, trimStart s = c :: t /\ isWhiteSpace c = false.
Proof.
  induction s as [|x s IH]; simpl; [left; reflexivity|].
  destruct (isWhiteSpace x) eqn:Hx; [exact IH|]. right. eauto.
Qed.

Lemma trimEnd_idem s : trimEnd (trimEnd s) = trimEnd s.
Proof. unfold trimEnd. rewrite rev_involutive, trimStart_idem. reflexivity. Qed.

Lemma trimEnd_head c t :
  isWhiteSpace c = false -> trimEnd (c :: t) = c :: trimEnd t.
Proof.
  intros Hc. unfold trimEnd. simpl. rewrite (trimStart_last _ _ Hc).
  rewrite rev_app_distr. reflexivity.
Qed.

(** Trimming twice is trimming once. *)
Lemma trim_idem s : trim (trim s) = trim s.
Proof.
  unfold trim. destruct (trimStart_head s) as [->|(c & t & -> & Hc)].
  - reflexivity.
  - rewrite (trimEnd_head c t Hc). simpl. rewrite Hc.
    rewrite <- (trimEnd_head c t Hc), trimEnd_idem. reflexivity.
Qed.

Lemma iso_of_digits y m d :
  digits 4 y -> digits 2 m -> digits 2 d -> iso_form (ymd_text y m d).
Proof.
  intros Hy Hm Hd. exists y, m, d.
  split; [exact Hy|]. split; [exact Hm|]. split; [exact Hd|reflexivity].
Qed.

Lemma ym_whole_inv s x : ym_whole s = Some x -> exists y m, ym_form s y m.
Proof.
  unfold ym_whole. intros Hh.
  do 7 (destruct s as [|? s]; [discriminate Hh|]).
  destruct s; [|discriminate Hh].
  match type of Hh with (if ?b then _ else _) = _ => destruct b eqn:Hb end;
    [|discriminate Hh].
  split_andb. exists [n; n0; n1; n2], [n4; n5], n3.
  repeat split; simpl; try assumption;
    repeat match goal with H : isDigit _ = true |- _ => rewrite H; clear H end;
    reflexivity.
Qed.

(** What the normalizer can answer: a date of the form [YYYY-MM-DD], or
    the trimmed input when no date was found in it. *)
Lemma coerce_result text :
  iso_form (coerceIsoDate text) \/
  (coerceIsoDate text = trim text /\ ~ iso_form (trim text) /\
   ~ occurs dmy_form (trim text) /\ ~ occurs ymd_form (trim text) /\
   forall y m, ~ ym_form (trim text) y m).
Proof.
  destruct (iso_whole (trim text)) eqn:Hi.
  { left. apply iso_whole_iff in Hi. rewrite (coerce_iso _ Hi). exact Hi. }
  pose proof (not_iso_by_test _ Hi) as Hni.
  destruct (first_suffix dmy_here (trim text)) as [[w c]|] eqn:Hd.
  { left.
    apply (leftmost_by_search dmy_here dmy_form _ dmy_here_Some) in Hd
      as (d & m & y & _ & Hl).
    rewrite (coerce_dmy text d m y Hni Hl).
    destruct Hl as (pre & w' & post & _ & (a & b & Hdd & Hdm & Hdy & _) & _).
    apply iso_of_digits; assumption. }
  pose proof (no_dmy_by_search _ Hd) as Hnd.
  destruct (first_suffix ymd_here (trim text)) as [[w c]|] eqn:Hy.
  { left.
    apply (leftmost_by_search ymd_here ymd_form _ ymd_here_Some) in Hy
      as (y & m & d & _ & Hl).
    rewrite (coerce_ymd text y m d Hni Hnd Hl).
    destruct Hl as (pre & w' & post & _ & (a & b & Hdy & Hdm & Hdd & _) & _).
    apply iso_of_digits; assumption. }
  pose proof (no_ymd_by_search _ Hy) as Hny.
  destruct (ym_whole (trim text)) as [x|] eqn:Hm.
  { left. destruct (ym_whole_inv _ _ Hm) as (y & m & Hf).
    rewrite (coerce_ym text y m Hnd Hny Hf).
    destruct Hf as (a & Hdy & Hdm & _).
    apply (iso_of_digits y m (str "01")); [assumption|assumption|].
    split; reflexivity. }
  right. pose proof (no_ym_by_test _ Hm) as Hnm.
  rewrite (coerce_other text Hni Hnd Hny Hnm). repeat split; assumption.
Qed.

Lemma coerce_trimmed text : trim (coerceIsoDate text) = coerceIsoDate text.
Proof.
  destruct (coerce_result text) as [Hi|(E & _)].
  - apply trim_iso, Hi.
  - rewrite E. apply trim_idem.
Qed.

Lemma coerce_fixed text : coerceIsoDate (coerceIsoDate text) = coerceIsoDate text.
Proof.
  destruct (coerce_result text) as [Hi|(E & Hni & Hnd & Hny & Hnm)].
  - rewrite coerce_iso; rewrite (trim_iso _ Hi); [reflexivity|exact Hi].
  - rewrite E. rewrite coerce_other; rewrite trim_idem; try assumption. reflexivity.
Qed.

(** X6. Whatever the input, the normalizer answers either a date of the
    form [YYYY-MM-DD] or the input without its surrounding white space, and
    its answer never has white space around it. *)
Theorem coerceIsoDate_result (text : jsstring) :
  (iso_form (coerceIsoDate text) \/ coerceIsoDate text = trim text) /\
  trim (coerceIsoDate text) = coerceIsoDate text.
Proof.
  split; [|apply coerce_trimmed].
  destruct (coerce_result text) as [Hi|(E & _)]; [left; exact Hi|right; exact E].
Qed.

(** X7. Normalizing a normalized date changes nothing, also when the
    first answer was not a date: a text in which the normalizer finds no
    date is left as it is by a second pass. *)
Theorem coerceIsoDate_idempotent (text : jsstring) :
  coerceIsoDate (coerceIsoDate text) = coerceIsoDate text /\
  (coerceIsoDate text = trim text -> coerceIsoDate (trim text) = trim text).
Proof.
  split; [apply coerce_fixed|]. intros E. rewrite <- E at 1. rewrite coerce_fixed. exact E.
Qed.

End NormalizerFacts.

(** ** The analyze route as a whole *)

Module ExtractionFacts.
Import Analyze AnalyzeSpec AnalyzeFacts ExtractionSpec NormalizerFacts.

Lemma includesString_In l t : Mime.includesString l t = true <-> In t l.
Proof.
  unfold Mime.includesString. rewrite existsb_exists. split.
  - intros (x & Hx & Hb). apply bool_decide_eq_true in Hb. subst. exact Hx.
  - intros Hx. exists t. split; [exact Hx|]. apply bool_decide_eq_true. reflexivity.
Qed.

(** X8. The type sent to the model is always one of the four image types
    of the list, whatever the file declares: the declared type in lower
    case when that is in the list, [image/jpeg] otherwise. *)
Theorem getGeminiMimeType_allowed `{CaseHost} (file : File) :
  In (Mime.getGeminiMimeType file) Mime.GEMINI_IMAGE_TYPES /\
  (In (toLowerCase (file_type file)) Mime.GEMINI_IMAGE_TYPES ->
     Mime.getGeminiMimeType file = toLowerCase (file_type file)) /\
  (~ In (toLowerCase (file_type file)) Mime.GEMINI_IMAGE_TYPES ->
     Mime.getGeminiMimeType file = str "image/jpeg").
Proof.
  unfold Mime.getGeminiMimeType. cbv zeta.
  destruct (Mime.includesString Mime.GEMINI_IMAGE_TYPES (toLowerCase (file_type file)))
    eqn:E.
  - apply includesString_In in E. repeat split; [exact E|contradiction].
  - repeat split.
    + left. reflexivity.
    + intros Hin. apply includesString_In in Hin. congruence.
Qed.

Lemma getGeminiMimeType_allowed_witness :
  @Mime.getGeminiMimeType asciiLower
     {| file_type := str "IMAGE/PNG"; file_bytes := [] |} = str "image/png" /\
  @Mime.getGeminiMimeType asciiLower
     {| file_type := str "image/heic"; file_bytes := [] |} = str "image/jpeg".
Proof.
  split.
  - destruct (@getGeminiMimeType_allowed asciiLower
                {| file_type := str "IMAGE/PNG"; file_bytes := [] |}) as (_ & H & _).
    rewrite H; [reflexivity|]. right. left. reflexivity.
  - destruct (@getGeminiMimeType_allowed asciiLower
                {| file_type := str "image/heic"; file_bytes := [] |}) as (_ & _ & H).
    apply H. intros Hin. apply includesString_In in Hin. discriminate Hin.
Defined.

Section Route.
Context `{NumberOps}.

(** X9. The analyze route answers 400 exactly when the form has no file
    under [image], whatever the key and the model; with an image it
    answers 500 when the key is missing or empty or when the call to the
    model fails, carrying the message of the failure; in every other case
    it answers 200, and a reply whose text cannot be read counts as an
    empty reply. *)
Theorem POST_outcomes (form : FormData) (apiKey : option jsstring)
  (model : ModelOutcome) :
  ((forall file, form_get (str "image") form <> Some (FFile file)) <->
     POST (Some form) apiKey model = Json400) /\
  (forall file, form_get (str "image") form = Some (FFile file) ->
     (apiKey = None \/ apiKey = Some [] ->
        POST (Some form) apiKey model =
          Json500 (str "GEMINI_API_KEY not configured") None) /\
     (forall key, apiKey = Some key -> key <> [] ->
        (forall message, model = ModelThrows message ->
           POST (Some form) apiKey model =
             Json500 (str "analysis_failed") (Some message)) /\
        (model = TextThrows ->
           POST (Some form) apiKey model = POST (Some form) apiKey (Reply [])) /\
        (forall rawText, model = Reply rawText ->
           POST (Some form) apiKey model =
             Json200 (applyManual (form_get (str "manualProduct") form)
                        (form_get (str "manualDate") form) (parseReply rawText))))).
Proof.
  split.
  - unfold POST. destruct (form_get (str "image") form) as [[s|f]|] eqn:Ef.
    + split; [reflexivity|discriminate].
    + split.
      * intros Hn. exfalso. apply (Hn f). reflexivity.
      * destruct apiKey as [[|c k]|]; [discriminate|destruct model; discriminate|discriminate].
    + split; [reflexivity|discriminate].
  - intros file Hf. unfold POST. rewrite Hf. split.
    + intros [->| ->]; reflexivity.
    + intros key -> Hk. destruct key as [|c k]; [contradiction|].
      repeat split.
      * intros message ->. reflexivity.
      * intros ->. reflexivity.
      * intros rawText ->. reflexivity.
Qed.

Lemma applyManual_product_bound mp md e :
  (length (product e) <= 120)%nat ->
  (length (product (applyManual mp md e)) <= 120)%nat.
Proof.
  intros He. rewrite applyManual_product.
  destruct mp as [[s|f]|]; try exact He.
  destruct (trim s) eqn:Et; [exact He|].
  destruct (test re_placeholder _); [exact He|]. apply slice0_length.
Qed.

(** When the [try] throws, the product it leaves is empty or already cut. *)
Lemma tryJson_thrown_bounded raw e :
  tryJson raw nothing = Thrown e -> (length (product e) <= 120)%nat.
Proof.
  unfold tryJson. destruct (JSON_parse raw) as [parsed|].
  2:{ intros [= <-]. simpl. lia. }
  destruct (isNull parsed); [intros [= <-]; simpl; lia|].
  destruct (toStr _) as [p|]; [|intros [= <-]; simpl; lia]. cbv zeta.
  pose proof (slice0_length 120 (trim p)) as Hl.
  revert Hl. generalize (slice0 120 (trim p)). intros cut Hl.
  destruct (truthy _); [destruct (toStr _); [discriminate|]|discriminate].
  intros [= <-]. exact Hl.
Qed.

(** A value that is not an array or an object. *)
Lemma nullish_scalar o b :
  stringLike o -> stringLike (Some b) -> stringLike (Some (nullish o b)).
Proof.
  unfold nullish. destruct o as [v|]; [|intros _ Hb; exact Hb].
  destruct v; cbn [isNull]; intros Ho Hb; first [exact Hb|exact Ho].
Qed.

Lemma toStr_scalar v : stringLike (Some v) -> exists s, toStr v = Some s.
Proof.
  destruct v as [|[]|lit|s|l|kvs]; cbn [stringLike toStr]; intros Hv;
    try contradiction; eexists; reflexivity.
Qed.

(** The [try] runs to its end on a value whose four fields convert. *)
Lemma tryJson_stringLike raw parsed :
  JSON_parse raw = Some parsed -> parsed <> JNull ->
  stringLike (getProp parsed (str "product")) ->
  stringLike (getProp parsed (str "expiryDate")) ->
  stringLike (getProp parsed (str "expiry")) ->
  stringLike (getProp parsed (str "date")) ->
  exists e, tryJson raw nothing = Normal e.
Proof.
  intros E Hn Hp H1 H2 H3. unfold tryJson. rewrite E.
  destruct (isNull parsed) eqn:En; [destruct parsed; try discriminate En; contradiction|].
  destruct (toStr_scalar _ (nullish_scalar _ (JString []) Hp I)) as [p ->]. cbv zeta.
  destruct (truthy _); [|eexists; reflexivity].
  destruct (toStr_scalar _
              (nullish_scalar _ _ H1
                 (nullish_scalar _ _ H2 (nullish_scalar _ (JString []) H3 I))))
    as [d ->].
  eexists. reflexivity.
Qed.

(** X10. The product of a 200 answer is longer than 120 code units only
    when it comes from the fallback: it is then the value text of the
    leftmost quoted [product] field of the reply with its escaped quotes
    undone, and the form carries no manual product that is used.  So the
    product is at most 120 code units long when the text of the reply
    could not be read, when no quoted [product] field stands in the reply,
    when a manual product that is not blank and not a placeholder is
    given, and when the text between the braces parses to a value other
    than [null] whose [product], [expiryDate], [expiry] and [date] are
    each absent, [null], a boolean, a number or a string. *)
Theorem product_bounded_outside_fallback (form : option FormData)
  (apiKey : option jsstring) (model : ModelOutcome) (e : AnalyzeResponse) :
  POST form apiKey model = Json200 e ->
  ((length (product e) <= 120)%nat \/
   exists rawText v,
     model = Reply rawText /\ field_first "product" rawText v /\
     unescaped v (product e) /\
     (forall f s, form = Some f ->
        form_get (str "manualProduct") f = Some (FText s) ->
        trim s = [] \/ placeholder_form (trim s))) /\
  (model = TextThrows -> (length (product e) <= 120)%nat) /\
  (forall rawText, model = Reply rawText -> field_absent "product" rawText ->
     (length (product e) <= 120)%nat) /\
  (forall f s, form = Some f ->
     form_get (str "manualProduct") f = Some (FText s) ->
     trim s <> [] -> ~ placeholder_form (trim s) ->
     (length (product e) <= 120)%nat) /\
  (forall rawText parsed,
     model = Reply rawText -> JSON_parse (braced rawText) = Some parsed ->
     parsed <> JNull ->
     stringLike (getProp parsed (str "product")) ->
     stringLike (getProp parsed (str "expiryDate")) ->
     stringLike (getProp parsed (str "expiry")) ->
     stringLike (getProp parsed (str "date")) ->
     (length (product e) <= 120)%nat).
Proof.
  intros HP. unfold POST in HP. destruct form as [f|]; [|discriminate].
  destruct (form_get (str "image") f) as [[t|file]|]; try discriminate.
  destruct apiKey as [[|c k]|]; try discriminate.
  set (mp := form_get (str "manualProduct") f) in *.
  set (md := form_get (str "manualDate") f) in *.
  assert (Hempty : (length (product (parseReply [])) <= 120)%nat) by (simpl; lia).
  assert (Hmanual : forall e1 s, mp = Some (FText s) -> trim s <> [] ->
            ~ placeholder_form (trim s) ->
            (length (product (applyManual mp md e1)) <= 120)%nat).
  { intros e1 s Hs Hne Hnp. rewrite applyManual_product, Hs.
    rewrite (not_placeholder_test _ Hnp).
    destruct (trim s); [contradiction|]. apply slice0_length. }
  assert (Hreply : forall rawText,
            (length (product (applyManual mp md (parseReply rawText))) <= 120)%nat \/
            exists v, field_first "product" rawText v /\
              unescaped v (product (applyManual mp md (parseReply rawText))) /\
              (forall s, mp = Some (FText s) -> trim s = [] \/ placeholder_form (trim s)) /\
              forall e0, tryJson (braced rawText) nothing <> Normal e0).
  { intros rawText.
    assert (Hused : (exists s, mp = Some (FText s) /\ trim s <> [] /\
                       ~ placeholder_form (trim s)) \/
                    ((forall s, mp = Some (FText s) ->
                        trim s = [] \/ placeholder_form (trim s)) /\
                     forall e1, product (applyManual mp md e1) = product e1)).
    { destruct mp as [[s|g]|] eqn:Emp.
      - destruct (trim s) as [|x t'] eqn:Et.
        + right. split; [intros s' [= <-]; left; exact Et|].
          intros e1. rewrite applyManual_product, Et. reflexivity.
        + destruct (test re_placeholder (x :: t')) eqn:Ep.
          * right. rewrite test_placeholder in Ep. apply placeholder_whole_iff in Ep.
            split; [intros s' [= <-]; right; rewrite Et; exact Ep|].
            intros e1. rewrite applyManual_product, Et.
            rewrite (placeholder_test _ Ep). reflexivity.
          * left. exists s. split; [reflexivity|]. rewrite Et. split; [discriminate|].
            intros Hc. apply placeholder_test in Hc. congruence.
      - right. split; [discriminate|]. intros e1. apply applyManual_product.
      - right. split; [discriminate|]. intros e1. apply applyManual_product. }
    destruct Hused as [(s & Hs & Hne & Hnp)|[Hnone Hkeep]];
      [left; apply (Hmanual _ s); assumption|].
    rewrite Hkeep. unfold parseReply. fold nothing.
    destruct (tryJson (braced rawText) nothing) as [e0|e0] eqn:Et.
    { left. apply (tryJson_product_bounded _ _ Et). }
    rewrite fallback_product. unfold re_product.
    destruct (exec (re_field "product") rawText) as [[w c']|] eqn:Ex.
    - apply exec_field_first in Ex as (v & -> & Hv). right. exists v.
      split; [exact Hv|]. split; [|split; [exact Hnone|discriminate]].
      apply unescaped_content, (field_first_content _ _ _ Hv).
    - left. apply (tryJson_thrown_bounded _ _ Et). }
  repeat match goal with |- _ /\ _ => split end.
  - destruct model as [message| |rawText]; [discriminate| |]; injection HP as <-.
    + left. apply applyManual_product_bound, Hempty.
    + destruct (Hreply rawText) as [Hb|(v & Hv & Hu & Hnone & _)]; [left; exact Hb|].
      right. exists rawText, v. split; [reflexivity|]. split; [exact Hv|].
      split; [exact Hu|]. intros f' s [= <-]. apply Hnone.
  - intros ->. injection HP as <-. apply applyManual_product_bound, Hempty.
  - intros rawText -> Hn. injection HP as <-.
    destruct (Hreply rawText) as [Hb|(v & Hv & _)]; [exact Hb|].
    exfalso. apply (field_first_not_absent _ _ _ Hv), Hn.
  - intros f' s [= <-] Hs Hne Hnp.
    destruct model as [message| |rawText]; [discriminate| |]; injection HP as <-;
      apply (Hmanual _ s); assumption.
  - intros rawText parsed -> E Hn Hp H1 H2 H3. injection HP as <-.
    destruct (Hreply rawText) as [Hb|(v & _ & _ & _ & Hthrown)]; [exact Hb|].
    destruct (tryJson_stringLike _ _ E Hn Hp H1 H2 H3) as [e0 He0].
    exfalso. apply (Hthrown e0), He0.
Qed.


(** X12. When the form carries a manual product that is a real name and a
    manual date that is not blank, the answer is made of the two alone:
    the model's reply, whatever it says, has no part in it. *)
Theorem manual_overrides_win (form : FormData) (file : File) (key mp md : jsstring)
  (model : ModelOutcome) :
  form_get (str "image") form = Some (FFile file) -> key <> [] ->
  form_get (str "manualProduct") form = Some (FText mp) ->
  trim mp <> [] -> ~ placeholder_form (trim mp) ->
  form_get (str "manualDate") form = Some (FText md) -> trim md <> [] ->
  (forall message, model <> ModelThrows message) ->
  POST (Some form) (Some key) model =
    Json200 {| product := slice0 120 (trim mp); expiryDate := coerceIsoDate md |}.
Proof.
  intros Hf Hk Hmp Hne Hnp Hmd Hnd Hmodel.
  assert (Hb : forall e1,
            applyManual (form_get (str "manualProduct") form)
              (form_get (str "manualDate") form) e1 =
            {| product := slice0 120 (trim mp); expiryDate := coerceIsoDate md |}).
  { intros e1. unfold applyManual. rewrite Hmp, Hmd. cbv zeta.
    rewrite (not_placeholder_test _ Hnp).
    destruct (trim mp); [contradiction|]. destruct (trim md); [contradiction|].
    reflexivity. }
  unfold POST. rewrite Hf. destruct key as [|c k]; [contradiction|].
  destruct model as [message| |rawText].
  - exfalso. apply (Hmodel message). reflexivity.
  - rewrite Hb. reflexivity.
  - rewrite Hb. reflexivity.
Qed.

(** A date the normalizer has answered. *)
Lemma normalized_fixed d :
  (exists x, d = coerceIsoDate x) -> coerceIsoDate d = d /\ trim d = d.
Proof.
  intros [x ->]. split; [apply coerce_fixed|apply coerce_trimmed].
Qed.

Lemma tryJson_normalized raw e :
  tryJson raw nothing = Normal e \/ tryJson raw nothing = Thrown e ->
  exists x, expiryDate e = coerceIsoDate x.
Proof.
  unfold tryJson. destruct (JSON_parse raw) as [parsed|].
  2:{ intros [E|E]; [discriminate|]. injection E as <-. exists []. reflexivity. }
  destruct (isNull parsed).
  { intros [E|E]; [discriminate|]. injection E as <-. exists []. reflexivity. }
  destruct (toStr _) as [p|].
  2:{ intros [E|E]; [discriminate|]. injection E as <-. exists []. reflexivity. }
  cbv zeta. destruct (truthy _).
  - destruct (toStr _) as [d|].
    + intros [E|E]; [|discriminate]. injection E as <-. exists d. reflexivity.
    + intros [E|E]; [discriminate|]. injection E as <-. exists []. reflexivity.
  - intros [E|E]; [|discriminate]. injection E as <-. exists []. reflexivity.
Qed.

Lemma parseReply_normalized rawText :
  exists x, expiryDate (parseReply rawText) = coerceIsoDate x.
Proof.
  unfold parseReply. fold nothing.
  destruct (tryJson (braced rawText) nothing) as [e|e] eqn:E.
  - apply (tryJson_normalized (braced rawText)). left. exact E.
  - rewrite fallback_expiryDate.
    destruct (exec re_expiryDate rawText) as [[w c]|]; [eexists; reflexivity|].
    apply (tryJson_normalized (braced rawText)). right. exact E.
Qed.

(** X13. The expiry date of every 200 answer has been through the
    normalizer, on every path: normalizing it again changes nothing, and
    it has no white space around it. *)
Theorem response_date_normalized (form : option FormData)
  (apiKey : option jsstring) (model : ModelOutcome) (e : AnalyzeResponse) :
  POST form apiKey model = Json200 e ->
  coerceIsoDate (expiryDate e) = expiryDate e /\ trim (expiryDate e) = expiryDate e.
Proof.
  intros HP. apply normalized_fixed.
  assert (Hm : forall mp md e1, (exists x, expiryDate e1 = coerceIsoDate x) ->
            exists x, expiryDate (applyManual mp md e1) = coerceIsoDate x).
  { intros mp md e1 He1. rewrite applyManual_expiryDate.
    destruct md as [[s|f]|]; try exact He1.
    destruct (trim s); [exact He1|]. eexists. reflexivity. }
  unfold POST in HP. destruct form as [form|]; [|discriminate].
  destruct (form_get (str "image") form) as [[s|f]|]; try discriminate.
  destruct apiKey as [[|c k]|]; try discriminate.
  destruct model as [message| |rawText]; [discriminate| |];
    injection HP as <-; apply Hm, parseReply_normalized.
Qed.

End Route.

Lemma POST_outcomes_witness :
  @POST literalNumbers (Some manualForm) None (Reply []) =
    Json500 (str "GEMINI_API_KEY not configured") None /\
  @POST literalNumbers (Some manualForm) (Some (str "k")) (ModelThrows (str "quota")) =
    Json500 (str "analysis_failed") (Some (str "quota")).
Proof.
  destruct (@POST_outcomes literalNumbers manualForm None (Reply [])) as [_ H1].
  destruct (@POST_outcomes literalNumbers manualForm (Some (str "k"))
              (ModelThrows (str "quota"))) as [_ H2].
  split.
  - apply (H1 _ eq_refl). left. reflexivity.
  - destruct (H2 _ eq_refl) as [_ H3].
    destruct (H3 (str "k") eq_refl) as [H4 _]; [discriminate|].
    apply (H4 _ eq_refl).
Defined.

Lemma product_bounded_outside_fallback_witness :
  (length (product sharps) <= 120)%nat /\
  exists v,
    field_first "product" longReply v /\ unescaped v (repeat 65 121).
Proof.
  split.
  - destruct (@product_bounded_outside_fallback literalNumbers (Some imageOnly)
                (Some (str "key")) (Reply sharpsReply) sharps) as (_ & _ & _ & _ & H).
    + vm_compute. reflexivity.
    + apply (H sharpsReply
               (JObject [(str "product", JString (str "SHARPS CONTAINER 10L"));
                         (str "expiryDate", JString (str "2027-01-01"))]));
        first [vm_compute; reflexivity|discriminate|exact I].
  - destruct (@product_bounded_outside_fallback literalNumbers (Some imageOnly)
                (Some (str "key")) (Reply longReply)
                {| product := repeat 65 121; expiryDate := str "2027-01-01" |})
      as ([Hb|(rawText & v & [= <-] & Hv & Hu & _)] & _).
    + vm_compute. reflexivity.
    + exfalso. revert Hb. vm_compute. lia.
    + exists v. split; [exact Hv|exact Hu].
Defined.


Lemma manual_overrides_win_witness :
  @POST literalNumbers (Some manualForm) (Some (str "k"))
     (Reply (js "{'product':'Milk','expiryDate':'2030-01-01'}")) =
    Json200 {| product := str "Oat milk"; expiryDate := str "2029-07-06" |}.
Proof.
  rewrite (@manual_overrides_win literalNumbers manualForm
             {| file_type := str "image/jpeg"; file_bytes := [Byte.xff; Byte.xd8] |}
             (str "k") (str " Oat milk ") (str "06/07/2029")).
  - vm_compute. reflexivity.
  - reflexivity.
  - discriminate.
  - reflexivity.
  - vm_compute. discriminate.
  - intros Hc. apply placeholder_whole_iff in Hc. discriminate Hc.
  - reflexivity.
  - vm_compute. discriminate.
  - discriminate.
Defined.

Lemma response_date_normalized_witness :
  coerceIsoDate (str "2029-07-06") = str "2029-07-06" /\
  trim (str "2029-07-06") = str "2029-07-06".
Proof.
  apply (@response_date_normalized literalNumbers (Some manualForm) (Some (str "k"))
           (Reply (str "no date"))
           {| product := str "Oat milk"; expiryDate := str "2029-07-06" |}).
  vm_compute. reflexivity.
Defined.

End ExtractionFacts.

(** ** The page component *)

Module UiFacts.
Import Page Ui AnalyzeSpec AnalyzeFacts SessionSpec SessionFacts DataUrlSpec DataUrlFacts UiSpec.

(** X14. The three status counts of the summary add up to the total. *)
Theorem counts_partition (images : list UploadedImage) :
  total (counts images) = length images /\
  (expiring (counts images) + valid (counts images) + expired (counts images))%nat
    = total (counts images).
Proof.
  split; [reflexivity|]. unfold counts. cbn [total expiring valid expired].
  induction images as [|i images IH]; [reflexivity|].
  cbn [List.filter length]. destruct (status i); cbn [status_eqb length]; lia.
Qed.

Lemma removeImage_In id0 prev i :
  In i (removeImage id0 prev) <-> In i prev /\ id i <> id0.
Proof.
  unfold removeImage. rewrite filter_In, negb_true_iff, bool_decide_eq_false.
  reflexivity.
Qed.

Lemma removeImage_absent id0 prev :
  ~ In id0 (map id prev) -> removeImage id0 prev = prev.
Proof.
  unfold removeImage. induction prev as [|i prev IH]; [reflexivity|].
  cbn [map In List.filter]. intros Hn.
  rewrite bool_decide_eq_false_2 by (intros E; apply Hn; left; exact E).
  cbn [negb]. rewrite IH; [reflexivity|]. intros Hi. apply Hn. right. exact Hi.
Qed.

(** X15. Removing by identifier keeps exactly the items with another
    identifier, in their order; it changes nothing when no item has the
    identifier, and when the identifiers are distinct it takes out one
    item at most. *)
Theorem removeImage_spec (id0 : jsstring) (prev : list UploadedImage) :
  (forall i, In i (removeImage id0 prev) <-> In i prev /\ id i <> id0) /\
  sublist (removeImage id0 prev) prev /\
  (~ In id0 (map id prev) -> removeImage id0 prev = prev) /\
  (NoDup (map id prev) -> In id0 (map id prev) ->
     S (length (removeImage id0 prev)) = length prev).
Proof.
  split; [intros i; apply removeImage_In|].
  split.
  { unfold removeImage. induction prev as [|i prev IH]; [constructor|].
    cbn [List.filter]. destruct (negb _); [apply sublist_skip|apply sublist_cons]; exact IH. }
  split; [apply removeImage_absent|].
  induction prev as [|i prev IH]; [intros _ []|].
  cbn [map]. intros Hnd Hin. apply NoDup_cons in Hnd as [Hni Hnd].
  unfold removeImage. cbn [List.filter length].
  destruct (decide (id i = id0)) as [E|E].
  - rewrite bool_decide_eq_true_2 by exact E. cbn [negb]. f_equal.
    fold (removeImage id0 prev). rewrite removeImage_absent; [reflexivity|].
    rewrite <- E. intros Hc. apply Hni, list_elem_of_In, Hc.
  - rewrite bool_decide_eq_false_2 by exact E. cbn [negb length]. f_equal.
    apply IH; [exact Hnd|]. destruct Hin as [Hc|Hc]; [contradiction|exact Hc].
Qed.

Lemma removeImage_spec_witness :
  S (length (removeImage (str "1-0")
       [item (str "1-0") (str "Milk") [] Valid; item (str "1-1") (str "Rice") [] Valid]))
    = 2%nat.
Proof.
  destruct (removeImage_spec (str "1-0")
              [item (str "1-0") (str "Milk") [] Valid;
               item (str "1-1") (str "Rice") [] Valid]) as (_ & _ & _ & H).
  apply H.
  - apply NoDup_cons. split; [|apply NoDup_singleton].
    intros Hc. apply list_elem_of_singleton in Hc. discriminate Hc.
  - left. reflexivity.
Defined.

(** The decimal text of a number is not empty. *)
Lemma pretty_N_go_length x s :
  (String.length s <= String.length (pretty_N_go x s))%nat.
Proof.
  revert s. induction (N.lt_wf_0 x) as [x _ IH]; intros s.
  destruct (N.eq_dec x 0) as [->|Hx].
  - rewrite pretty_N_go_0. lia.
  - rewrite pretty_N_go_step by lia.
    etransitivity; [|apply IH; apply N.div_lt; lia]. simpl. lia.
Qed.

Lemma decNat_nonempty n : decNat n <> [].
Proof.
  unfold decNat, pretty, pretty_nat, pretty, pretty_N.
  case_decide; [discriminate|].
  pose proof (pretty_N_go_length (N.of_nat n) "") as Hl.
  destruct (pretty_N_go (N.of_nat n) "") eqn:E; [|discriminate].
  rewrite pretty_N_go_step in E by lia.
  pose proof (pretty_N_go_length (N.of_nat n `div` 10)
                (String (pretty_N_char (N.of_nat n `mod` 10)) "")) as Hl'.
  rewrite E in Hl'. simpl in Hl'. lia.
Qed.

Lemma allDigits_forallb s : allDigits s -> forallb isDigit s = true.
Proof.
  induction 1 as [|c s Hc _ IH]; [reflexivity|]. simpl. rewrite Hc, IH. reflexivity.
Qed.

Lemma placeholder_decNat n : placeholder_form (str "product_" ++ decNat n).
Proof.
  exists (decNat n). split; [reflexivity|].
  split; [apply decNat_nonempty|apply allDigits_forallb, decNat_digits].
Qed.

Lemma trim_placeholder s : placeholder_form s -> trim s = s.
Proof.
  intros (ds & -> & Hne & Hd).
  destruct ds as [|d ds _] using rev_ind; [contradiction|].
  rewrite forallb_app in Hd. apply andb_true_iff in Hd as [_ Hd].
  simpl in Hd. rewrite andb_true_r in Hd.
  change (str "product_" ++ ds ++ [d]) with (112 :: (str "roduct_" ++ ds ++ [d])).
  rewrite app_assoc. apply trim_id; [reflexivity|apply isDigit_not_space, Hd].
Qed.

(** An item that still has its placeholder and no date is posted with its
    file alone. *)
Lemma buildForm_placeholder item :
  placeholder_form (product item) -> expiryDate item = [] ->
  buildForm item = [(str "image", FFile (blob (file item)))].
Proof.
  intros Hp He. unfold buildForm. rewrite He.
  rewrite (trim_placeholder _ Hp), (placeholder_test _ Hp).
  destruct (product item); reflexivity.
Qed.

Section SelectionFacts.
Context `{BrowserHost}.

Lemma nextItems_lookup clock base fl k item :
  nextItems clock base fl !! k = Some item <->
  exists f, firstn 10 fl !! k = Some f /\
    item = {| id := decZ (clock k) ++ str "-" ++ decNat k;
              file := f;
              url := createObjectURL f;
              product := str "product_" ++ decNat (base + k + 1);
              expiryDate := [];
              status := Valid |}.
Proof. unfold nextItems. apply list_lookup_imap_Some. Qed.

(** The text of an identifier made at selection gives back the time and
    the position it was made of. *)
Lemma selection_id_inj t i t' j :
  decZ t ++ str "-" ++ decNat i = decZ t' ++ str "-" ++ decNat j ->
  t = t' /\ i = j.
Proof.
  intros E. change (decZ t ++ 45 :: decNat i = decZ t' ++ 45 :: decNat j) in E.
  pose proof (f_equal (afterLast 45) E) as Ea.
  rewrite !afterLast_app in Ea by (apply digits_no_dash, decNat_digits).
  injection Ea as Ea. rewrite Ea in E. apply app_inv_tail in E.
  split; [|apply decNat_inj, Ea].
  unfold decZ in E. apply str_inj in E. apply (inj pretty) in E. exact E.
Qed.

(** X16. A selection adds one item for each of the first ten files chosen,
    after the items held and in the order of the files; the items added
    have identifiers distinct from one another whatever the clock says,
    and each carries a placeholder name, no date and the status Valid. *)
Theorem onFilesSelected_adds (clock : nat -> Z) (fl : list NamedFile)
  (images : list UploadedImage) :
  exists added,
    onFilesSelected clock (Some fl) images = images ++ added /\
    length added = Nat.min 10 (length fl) /\
    map file added = firstn 10 fl /\
    NoDup (map id added) /\
    Forall (fun i => placeholder_form (product i) /\ expiryDate i = [] /\
                     status i = Valid) added.
Proof.
  exists (nextItems clock (length images) fl).
  split; [reflexivity|]. split.
  { unfold nextItems. rewrite length_imap, length_firstn. reflexivity. }
  split.
  { unfold nextItems. change (map file) with (fmap (M := list) file).
    rewrite fmap_imap. clear. generalize (firstn 10 fl). intros l.
    apply list_eq. intros k. rewrite list_lookup_imap. destruct (l !! k); reflexivity. }
  split.
  { apply NoDup_alt. intros i j x Hi Hj.
    change (map id) with (fmap (M := list) id) in Hi, Hj.
    rewrite list_lookup_fmap in Hi, Hj.
    destruct (nextItems clock (length images) fl !! i) as [a|] eqn:Ea; [|discriminate].
    destruct (nextItems clock (length images) fl !! j) as [b|] eqn:Eb; [|discriminate].
    apply nextItems_lookup in Ea as (fa & _ & ->).
    apply nextItems_lookup in Eb as (fb & _ & ->).
    simpl in Hi, Hj. injection Hi as <-. injection Hj as Hj.
    symmetry in Hj. apply selection_id_inj in Hj. apply Hj. }
  apply Forall_forall. intros item Hin.
  apply list_elem_of_lookup in Hin as [k Hk].
  apply nextItems_lookup in Hk as (f & _ & ->). cbn [product expiryDate status].
  split; [apply placeholder_decNat|split; reflexivity].
Qed.

(** X17. Two items made at selection, in one selection or in two, have the
    same identifier exactly when they were made at the same position under
    the same clock value: positions tell the items of one selection apart,
    and only the clock tells two selections apart. *)
Theorem selection_ids_equal (clock clock' : nat -> Z) (base base' : nat)
  (fl fl' : list NamedFile) (i j : nat) (a b : UploadedImage) :
  nextItems clock base fl !! i = Some a ->
  nextItems clock' base' fl' !! j = Some b ->
  (id a = id b <-> clock i = clock' j /\ i = j).
Proof.
  intros Ha Hb.
  apply nextItems_lookup in Ha as (fa & _ & ->).
  apply nextItems_lookup in Hb as (fb & _ & ->). cbn [id].
  split; [apply selection_id_inj|]. intros [-> ->]. reflexivity.
Qed.

End SelectionFacts.

Lemma selection_ids_equal_witness :
  id {| id := str "1700000000000-0"; file := photo (str "a.png");
        url := str "blob:a.png"; product := str "product_1";
        expiryDate := []; status := Valid |} =
  id {| id := str "1700000000000-0"; file := photo (str "b.png");
        url := str "blob:b.png"; product := str "product_2";
        expiryDate := []; status := Valid |}.
Proof.
  apply (@selection_ids_equal exampleBrowser
           (fun _ => 1700000000000%Z) (fun _ => 1700000000000%Z) 0%nat 1%nat
           [photo (str "a.png")] [photo (str "b.png")] 0%nat 0%nat).
  - vm_compute. reflexivity.
  - vm_compute. reflexivity.
  - split; reflexivity.
Defined.

(** X18. An item that still has its placeholder name and no date is
    posted with its file alone, and the route then answers with what it
    read in the reply, nothing of the item's own text in it. *)
Theorem fresh_item_analysis `{NumberOps} (item : UploadedImage) (key rawText : jsstring) :
  placeholder_form (product item) -> expiryDate item = [] -> key <> [] ->
  buildForm item = [(str "image", FFile (blob (file item)))] /\
  Analyze.POST (Some (buildForm item)) (Some key) (Analyze.Reply rawText) =
    Analyze.Json200 (Analyze.parseReply rawText).
Proof.
  intros Hp He Hk. rewrite (buildForm_placeholder _ Hp He).
  split; [reflexivity|]. destruct key as [|c k]; [contradiction|]. reflexivity.
Qed.

Lemma fresh_item_analysis_witness :
  @Analyze.POST literalNumbers
     (Some (buildForm (item (str "1-0") (str "product_12") [] Valid)))
     (Some (str "k")) (Analyze.Reply (js "{'product':'Milk','expiryDate':'2030-01-01'}")) =
  Analyze.Json200
    (@Analyze.parseReply literalNumbers (js "{'product':'Milk','expiryDate':'2030-01-01'}")).
Proof.
  apply (@fresh_item_analysis literalNumbers).
  - exists (str "12"). repeat split. discriminate.
  - reflexivity.
  - discriminate.
Defined.

Lemma applyUpdates_lookup us prev k :
  applyUpdates us prev !! k =
    (fun img =>
       match find (fun x => bool_decide (u_id x = id img)) us with
       | Some u =>
           {| id := id img; file := file img; url := url img;
              product := u_product u; expiryDate := u_expiryDate u;
              status := u_status u |}
       | None => img
       end) <$> prev !! k.
Proof. unfold applyUpdates. apply (list_lookup_fmap _ prev k). Qed.

Lemma find_absent us i :
  ~ In i (map u_id us) -> find (fun x => bool_decide (u_id x = i)) us = None.
Proof.
  induction us as [|u us IH]; [reflexivity|]. cbn [map In find]. intros Hn.
  rewrite bool_decide_eq_false_2 by (intros E; apply Hn; left; exact E).
  apply IH. intros Hi. apply Hn. right. exact Hi.
Qed.

Lemma find_unique us u :
  NoDup (map u_id us) -> In u us ->
  find (fun x => bool_decide (u_id x = u_id u)) us = Some u.
Proof.
  induction us as [|v us IH]; [intros _ []|]. cbn [map In find].
  intros Hnd Hin. apply NoDup_cons in Hnd as [Hni Hnd].
  destruct Hin as [->|Hin].
  - rewrite bool_decide_eq_true_2 by reflexivity. reflexivity.
  - rewrite bool_decide_eq_false_2; [apply IH; assumption|].
    intros E. apply Hni. rewrite E. apply list_elem_of_In, in_map, Hin.
Qed.

(** X19. Applying the updates of a batch keeps the length of the list and
    the identifier, file and URL at every position; an item no update
    names is left as it is, and an item an update names takes its
    product, date and status from it. *)
Theorem applyUpdates_frame (us : list Update) (prev : list UploadedImage) :
  map id (applyUpdates us prev) = map id prev /\
  map file (applyUpdates us prev) = map file prev /\
  map url (applyUpdates us prev) = map url prev /\
  (forall k img, prev !! k = Some img -> ~ In (id img) (map u_id us) ->
     applyUpdates us prev !! k = Some img) /\
  (forall k img u, prev !! k = Some img -> NoDup (map u_id us) -> In u us ->
     u_id u = id img ->
     exists img', applyUpdates us prev !! k = Some img' /\
       product img' = u_product u /\ expiryDate img' = u_expiryDate u /\
       status img' = u_status u).
Proof.
  assert (Hmap : forall (A : Type) (f : UploadedImage -> A),
            (forall img u,
               f {| id := id img; file := file img; url := url img;
                    product := u_product u; expiryDate := u_expiryDate u;
                    status := u_status u |} = f img) ->
            map f (applyUpdates us prev) = map f prev).
  { intros A f Hf. unfold applyUpdates. rewrite map_map. apply map_ext.
    intros img. destruct (find _ us); [apply Hf|reflexivity]. }
  split; [apply Hmap; reflexivity|].
  split; [apply Hmap; reflexivity|].
  split; [apply Hmap; reflexivity|].
  split.
  - intros k img Hk Hn. rewrite applyUpdates_lookup, Hk. cbn [fmap option_fmap option_map].
    rewrite (find_absent _ _ Hn). reflexivity.
  - intros k img u Hk Hnd Hin E. rewrite applyUpdates_lookup, Hk.
    cbn [fmap option_fmap option_map]. rewrite <- E, (find_unique _ _ Hnd Hin).
    eexists. split; [reflexivity|]. repeat split.
Qed.

Lemma applyUpdates_frame_witness :
  applyUpdates [{| u_id := str "1-1"; u_product := str "Rice"; u_expiryDate := [];
                   u_status := Valid |}]
    [item (str "1-0") (str "product_1") [] Valid;
     item (str "1-1") (str "product_2") [] Valid] !! 0%nat
  = Some (item (str "1-0") (str "product_1") [] Valid).
Proof.
  destruct (applyUpdates_frame
              [{| u_id := str "1-1"; u_product := str "Rice"; u_expiryDate := [];
                  u_status := Valid |}]
              [item (str "1-0") (str "product_1") [] Valid;
               item (str "1-1") (str "product_2") [] Valid]) as (_ & _ & _ & H & _).
  apply H; [reflexivity|]. intros [Hc|[]]. discriminate Hc.
Defined.

Lemma trim_unknownProduct : trim unknownProduct = unknownProduct.
Proof. reflexivity. Qed.

Section BatchFacts.
Context `{DateHost}.

Lemma updatesFrom_rejected serve clock idx batch :
  (exists item, In item batch /\ serve (buildForm item) = None) ->
  updatesFrom serve clock idx batch = None.
Proof.
  revert idx. induction batch as [|item batch IH]; intros idx (x & Hin & Hx);
    [destruct Hin|].
  cbn [updatesFrom]. destruct Hin as [->|Hin].
  - rewrite Hx. reflexivity.
  - rewrite (IH (S idx)) by (exists x; split; assumption).
    destruct (serve (buildForm item)); reflexivity.
Qed.

Lemma updatesFrom_answered serve clock idx batch :
  (forall item, In item batch -> serve (buildForm item) <> None) ->
  exists updates, updatesFrom serve clock idx batch = Some updates.
Proof.
  revert idx. induction batch as [|item batch IH]; intros idx Hall; [eexists; reflexivity|].
  cbn [updatesFrom].
  destruct (serve (buildForm item)) as [res|] eqn:Es.
  2:{ exfalso. apply (Hall item); [left; reflexivity|exact Es]. }
  destruct (IH (S idx)) as [us ->]; [intros x Hx; apply Hall; right; exact Hx|].
  eexists. reflexivity.
Qed.

Lemma find_update serve clock idx batch updates i :
  updatesFrom serve clock idx batch = Some updates ->
  match find (fun x => bool_decide (u_id x = i)) updates with
  | None => ~ In i (map id batch)
  | Some u =>
      exists j item res, batch !! j = Some item /\ id item = i /\
        serve (buildForm item) = Some res /\
        u = updateFor (clock (idx + j)%nat) item res
  end.
Proof.
  revert idx updates. induction batch as [|item batch IH]; intros idx updates.
  { intros [= <-]. intros []. }
  cbn [updatesFrom]. destruct (serve (buildForm item)) as [res|] eqn:Es; [|discriminate].
  destruct (updatesFrom serve clock (S idx) batch) as [us|] eqn:Eu; [|discriminate].
  intros [= <-]. cbn [find].
  assert (Hid : forall now it r, u_id (updateFor now it r) = id it).
  { intros now it r. unfold updateFor. destruct r; reflexivity. }
  rewrite Hid. destruct (decide (id item = i)) as [E|E].
  - rewrite bool_decide_eq_true_2 by exact E.
    exists 0%nat, item, res. rewrite Nat.add_0_r. repeat split; assumption.
  - rewrite bool_decide_eq_false_2 by exact E.
    specialize (IH (S idx) us Eu).
    destruct (find _ us) as [u|].
    + destruct IH as (j & it & r & Hj & Hi & Hs & ->). exists (S j), it, r.
      replace (idx + S j)%nat with (S idx + j)%nat by lia. repeat split; assumption.
    + cbn [map In]. intros [Hc|Hc]; [contradiction|]. apply IH, Hc.
Qed.

(** X20. When the request of one item of the batch is rejected, the list
    stays as it is for every item, also for those whose request was
    answered.  When every request is answered, the list has the same
    items at the same positions, each with its identifier, file and URL.
    An item that is not of the batch is as it was.  An item of the batch
    has a product that is not empty and has no white space around it;
    when the route answered 200 its date is the answered date without
    surrounding white space and its status is the one computed from that
    date, and when the route answered an error it has the unknown product,
    the date the batch item had and the status Valid. *)
Theorem analyzeBatch_result (serve : FormData -> option Analyze.Response)
  (clock : nat -> Z) (batch prev : list UploadedImage) :
  ((exists item, In item batch /\ serve (buildForm item) = None) ->
   analyzeBatch serve clock batch prev = prev) /\
  ((forall item, In item batch -> serve (buildForm item) <> None) ->
   forall k img, prev !! k = Some img ->
   exists img',
     analyzeBatch serve clock batch prev !! k = Some img' /\
     id img' = id img /\ file img' = file img /\ url img' = url img /\
     ((~ In (id img) (map id batch) /\ img' = img) \/
      (exists j item,
         batch !! j = Some item /\ id item = id img /\
         product img' <> [] /\ trim (product img') = product img' /\
         ((exists data,
             serve (buildForm item) = Some (Analyze.Json200 data) /\
             expiryDate img' = trim (Analyze.expiryDate data) /\
             status img' = computeStatus (clock j) (expiryDate img')) \/
          ((forall data, serve (buildForm item) <> Some (Analyze.Json200 data)) /\
           product img' = unknownProduct /\ expiryDate img' = expiryDate item /\
           status img' = Valid))))).
Proof.
  split.
  { intros Hr. unfold analyzeBatch. rewrite (updatesFrom_rejected _ _ _ _ Hr).
    reflexivity. }
  intros Hall k img Hk. unfold analyzeBatch.
  destruct (updatesFrom_answered serve clock 0 batch Hall) as [updates Eu].
  rewrite Eu, applyUpdates_lookup, Hk.
  cbn [fmap option_fmap option_map].
  pose proof (find_update serve clock 0 batch updates (id img) Eu) as Hf.
  destruct (find _ updates) as [u|].
  2:{ exists img. repeat split. left. split; [exact Hf|reflexivity]. }
  destruct Hf as (j & item & res & Hj & Hi & Es & ->).
  eexists. split; [reflexivity|]. cbn [id file url product expiryDate status].
  repeat match goal with |- _ /\ _ => split; [reflexivity|] end.
  right. exists j, item. split; [exact Hj|]. split; [exact Hi|].
  rewrite Es. unfold updateFor. cbn [Nat.add]. destruct res as [data| |e m].
  - cbn [u_product u_expiryDate u_status]. split; [|split].
    + destruct (trim (Analyze.product data)); discriminate.
    + destruct (trim (Analyze.product data)) eqn:Et; [reflexivity|].
      rewrite <- Et. apply NormalizerFacts.trim_idem.
    + left. exists data. repeat split.
  - cbn [u_product u_expiryDate u_status]. split; [discriminate|]. split; [reflexivity|].
    right. repeat split. intros data. discriminate.
  - cbn [u_product u_expiryDate u_status]. split; [discriminate|]. split; [reflexivity|].
    right. repeat split. intros data. discriminate.
Qed.

End BatchFacts.

Lemma analyzeBatch_result_witness :
  @analyzeBatch PageSpec.isoHost
     (fun form =>
        match form_get (str "manualProduct") form with
        | Some _ => None
        | None =>
            Some (@Analyze.POST literalNumbers (Some form) (Some (str "k"))
                    (Analyze.Reply (js "{'product':' Milk ','expiryDate':'2025-01-11'}")))
        end)
     (fun _ => PageSpec.newYear2025)
     [item (str "1-0") (str "product_1") [] Valid; item (str "1-1") (str "Rice") [] Valid]
     [item (str "1-0") (str "product_1") [] Valid; item (str "1-1") (str "Rice") [] Valid]
  = [item (str "1-0") (str "product_1") [] Valid; item (str "1-1") (str "Rice") [] Valid] /\
  exists img',
    @analyzeBatch PageSpec.isoHost
       (fun form =>
          Some (@Analyze.POST literalNumbers (Some form) (Some (str "k"))
                  (Analyze.Reply (js "{'product':' Milk ','expiryDate':'2025-01-11'}"))))
       (fun _ => PageSpec.newYear2025)
       [item (str "1-0") (str "product_1") [] Valid]
       [item (str "1-0") (str "product_1") [] Valid] !! 0%nat = Some img' /\
    id img' = str "1-0" /\ expiryDate img' = str "2025-01-11" /\
    status img' = ExpiringSoon.
Proof.
  split.
  - apply (@analyzeBatch_result PageSpec.isoHost).
    exists (item (str "1-1") (str "Rice") [] Valid).
    split; [right; left; reflexivity|reflexivity].
  - destruct (@analyzeBatch_result PageSpec.isoHost
                (fun form =>
                   Some (@Analyze.POST literalNumbers (Some form) (Some (str "k"))
                           (Analyze.Reply
                              (js "{'product':' Milk ','expiryDate':'2025-01-11'}"))))
                (fun _ => PageSpec.newYear2025)
                [item (str "1-0") (str "product_1") [] Valid]
                [item (str "1-0") (str "product_1") [] Valid]) as [_ H].
    destruct (H ltac:(intros it _; discriminate) 0%nat
                (item (str "1-0") (str "product_1") [] Valid) eq_refl)
      as (img' & H1 & H2 & _ & _ & Hcase).
    exists img'. split; [exact H1|]. split; [exact H2|].
    destruct Hcase as [[Hn _]|(j & it & Hj & _ & _ & _ & Hans)].
    { exfalso. apply Hn. left. reflexivity. }
    destruct j as [|j]; [|discriminate Hj]. injection Hj as <-.
    destruct Hans as [(data & Es & Hd & Hst)|(Hno & _)].
    + vm_compute in Es. injection Es as <-.
      rewrite Hst, Hd. split; vm_compute; reflexivity.
    + exfalso. eapply Hno. vm_compute. reflexivity.
Defined.

Lemma rowText_body c cs :
  join (str ",") (map csvCell (c :: cs)) = 34 :: rowBody c cs.
Proof.
  revert c. induction cs as [|c' cs IH]; intros c; [reflexivity|].
  change (map csvCell (c :: c' :: cs)) with (csvCell c :: map csvCell (c' :: cs)).
  change (join (str ",") (csvCell c :: map csvCell (c' :: cs)))
    with (csvCell c ++ str "," ++ join (str ",") (map csvCell (c' :: cs))).
  rewrite IH. unfold csvCell. cbn [app rowBody]. rewrite <- app_assoc. reflexivity.
Qed.

Lemma inCell_end c : inCell (doubleQuotes c ++ [34]) = Some [[c]].
Proof.
  induction c as [|x c IH]; [reflexivity|]. cbn [doubleQuotes].
  destruct (x =? 34) eqn:E.
  - cbn [app inCell]. rewrite N.eqb_refl. rewrite IH. apply N.eqb_eq in E. subst x.
    reflexivity.
  - cbn [app inCell]. rewrite E, IH. reflexivity.
Qed.

Lemma inCell_comma c r row rows :
  inCell r = Some (row :: rows) ->
  inCell (doubleQuotes c ++ 34 :: 44 :: 34 :: r) = Some ((c :: row) :: rows).
Proof.
  intros Hr. induction c as [|x c IH].
  - cbn [doubleQuotes app inCell]. rewrite Hr. reflexivity.
  - cbn [doubleQuotes]. destruct (x =? 34) eqn:E.
    + cbn [app inCell]. rewrite N.eqb_refl, IH. apply N.eqb_eq in E. subst x.
      reflexivity.
    + cbn [app inCell]. rewrite E, IH. reflexivity.
Qed.

Lemma inCell_feed c r rows :
  inCell r = Some rows ->
  inCell (doubleQuotes c ++ 34 :: 10 :: 34 :: r) = Some ([c] :: rows).
Proof.
  intros Hr. induction c as [|x c IH].
  - cbn [doubleQuotes app inCell]. rewrite Hr. reflexivity.
  - cbn [doubleQuotes]. destruct (x =? 34) eqn:E.
    + cbn [app inCell]. rewrite N.eqb_refl, IH. apply N.eqb_eq in E. subst x.
      reflexivity.
    + cbn [app inCell]. rewrite E, IH. reflexivity.
Qed.

Lemma inCell_row_end c cs : inCell (rowBody c cs) = Some [c :: cs].
Proof.
  revert c. induction cs as [|c' cs IH]; intros c; cbn [rowBody].
  - apply inCell_end.
  - apply inCell_comma, IH.
Qed.

Lemma inCell_row_feed c cs r rows :
  inCell r = Some rows ->
  inCell (rowBody c cs ++ 10 :: 34 :: r) = Some ((c :: cs) :: rows).
Proof.
  intros Hr. revert c. induction cs as [|c' cs IH]; intros c; cbn [rowBody].
  - rewrite <- app_assoc. apply inCell_feed, Hr.
  - rewrite <- app_assoc. cbn [app]. apply inCell_comma, IH.
Qed.

(** A table of rows that each have a cell reads back from its text. *)
Lemma readCsv_table (row : list jsstring) (rows : list (list jsstring)) :
  Forall (fun r => r <> []) (row :: rows) ->
  readCsv (join [10] (map (fun r => join (str ",") (map csvCell r)) (row :: rows)))
    = Some (row :: rows).
Proof.
  revert row. induction rows as [|row' rows IH]; intros row Hne.
  - apply Forall_cons in Hne as [Hr _]. destruct row as [|c cs]; [contradiction|].
    change (readCsv (join (str ",") (map csvCell (c :: cs))) = Some [c :: cs]).
    rewrite rowText_body. cbn [readCsv]. rewrite N.eqb_refl. apply inCell_row_end.
  - apply Forall_cons in Hne as [Hr Hne]. destruct row as [|c cs]; [contradiction|].
    specialize (IH row' Hne).
    change (map (fun r => join (str ",") (map csvCell r)) ((c :: cs) :: row' :: rows))
      with (join (str ",") (map csvCell (c :: cs))
              :: map (fun r => join (str ",") (map csvCell r)) (row' :: rows)).
    set (rest := map (fun r => join (str ",") (map csvCell r)) (row' :: rows)) in *.
    assert (Hj : join [10] (join (str ",") (map csvCell (c :: cs)) :: rest)
                 = join (str ",") (map csvCell (c :: cs)) ++ [10] ++ join [10] rest).
    { subst rest. reflexivity. }
    rewrite Hj, rowText_body. cbn [app readCsv]. rewrite N.eqb_refl.
    destruct (join [10] rest) as [|q r] eqn:Er; [discriminate IH|].
    cbn [readCsv] in IH. destruct (q =? 34) eqn:Eq; [|discriminate IH].
    apply N.eqb_eq in Eq. subst q. apply inCell_row_feed, IH.
Qed.

(** X21. The text of the export reads back, as quoted CSV, to the header
    row followed by one row for each image with its file name, product,
    date and status: no quote, comma or line feed inside a cell is lost or
    taken for a separator. *)
Theorem csv_roundtrip (images : list UploadedImage) :
  readCsv (csvText images) = Some (csvHeaders :: csvRows images).
Proof.
  unfold csvText. apply readCsv_table. constructor; [discriminate|].
  unfold csvRows. apply Forall_forall. intros r Hr.
  apply list_elem_of_fmap in Hr as (i & -> & _). discriminate.
Qed.

Lemma filter_none {A} (p : A -> bool) l :
  (forall x, In x l -> p x = false) -> List.filter p l = [].
Proof.
  induction l as [|x l IH]; [reflexivity|]. intros Hp. cbn [List.filter].
  rewrite (Hp x) by (left; reflexivity). apply IH. intros y Hy. apply Hp. right. exact Hy.
Qed.

Lemma NoDup_map_filter {A B} (f : A -> B) (p : A -> bool) l :
  NoDup (map f l) -> NoDup (map f (List.filter p l)).
Proof.
  induction l as [|x l IH]; [intros _; constructor|]. cbn [map List.filter].
  intros Hnd. apply NoDup_cons in Hnd as [Hx Hnd]. destruct (p x); [|apply IH, Hnd].
  cbn [map]. apply NoDup_cons. split; [|apply IH, Hnd].
  intros Hc. apply Hx. apply list_elem_of_In in Hc. apply list_elem_of_In.
  apply in_map_iff in Hc as (y & E & Hy). apply filter_In in Hy as [Hy _].
  rewrite <- E. apply in_map, Hy.
Qed.

Section PollingFacts.
Context `{BrowserHost}.

Lemma fetchAll_fst l fetched : fetchAll l = Some fetched -> map fst fetched = l.
Proof.
  revert fetched. induction l as [|a l IH]; intros fetched; cbn [fetchAll].
  - intros [= <-]. reflexivity.
  - destruct (fetchBlob (Session.dataUrl a)) as [b|]; [|discriminate].
    destruct (fetchAll l) as [r|]; [|discriminate]. intros [= <-].
    cbn [map fst]. rewrite (IH r eq_refl). reflexivity.
Qed.

Lemma converted_ids baseIndex (fetched : list (Session.SessionImage * File)) :
  map id (imap (fun idx '(apiImg, b) => convert baseIndex idx apiImg b) fetched)
  = map Session.id (map fst fetched).
Proof.
  change (map id) with (fmap (M := list) id). rewrite fmap_imap.
  apply list_eq. intros k. rewrite list_lookup_imap.
  rewrite map_map. change (map (fun x => Session.id (fst x)) fetched)
    with (fmap (M := list) (fun x => Session.id (fst x)) fetched).
  rewrite list_lookup_fmap. destruct (fetched !! k) as [[a b]|]; reflexivity.
Qed.

(** The three ways a round can go. *)
Lemma pollRound_cases data held :
  let held1 := {| images := images held; seenImageIds := seenImageIds held;
                  imagesLength := imagesLength held;
                  mobileConnected := Session.mobileConnected data || mobileConnected held |} in
  let unseen := List.filter
                  (fun img => negb (bool_decide (Session.id img ∈ seenImageIds held)))
                  (Session.images data) in
  (unseen = [] /\ pollRound data held = (held1, [])) \/
  (unseen <> [] /\ fetchAll unseen = None /\ pollRound data held = (held1, [])) \/
  exists fetched converted,
    unseen <> [] /\ fetchAll unseen = Some fetched /\
    converted = imap (fun idx '(apiImg, b) => convert (imagesLength held) idx apiImg b)
                  fetched /\
    map id converted = map Session.id unseen /\
    pollRound data held =
      ({| images := images held ++ converted;
          seenImageIds := seenImageIds held ∪ list_to_set (map id converted);
          imagesLength := imagesLength held + length converted;
          mobileConnected := Session.mobileConnected data || mobileConnected held |},
       converted).
Proof.
  cbv zeta. unfold pollRound. cbv zeta.
  destruct (List.filter _ (Session.images data)) as [|a l] eqn:Eu;
    [left; split; reflexivity|].
  destruct (fetchAll (a :: l)) as [fetched|] eqn:Ef.
  2:{ right. left. split; [discriminate|]. split; reflexivity. }
  right. right.
  exists fetched, (imap (fun idx '(apiImg, b) =>
                           convert (imagesLength held) idx apiImg b) fetched).
  split; [discriminate|]. split; [reflexivity|]. split; [reflexivity|].
  split; [|reflexivity]. rewrite converted_ids, (fetchAll_fst _ _ Ef). reflexivity.
Qed.

(** X22. A second round of the timer on the same session state adds
    nothing and hands no batch to the analysis: what a round adds it marks
    as seen, and a round in which a fetch fails adds nothing at all. *)
Theorem pollRound_again (data : Session.SessionState) (held : Held) :
  pollRound data (fst (pollRound data held)) = (fst (pollRound data held), []).
Proof.
  assert (Hm : forall m c : bool, m || (m || c) = m || c) by (intros [] []; reflexivity).
  destruct (pollRound_cases data held)
    as [[Hu E]|[(Hu & Hf & E)|(fetched & converted & Hne & Hf & _ & Hids & E)]].
  - rewrite E. cbn [fst]. unfold pollRound at 1. cbv zeta.
    cbn [images seenImageIds imagesLength mobileConnected]. rewrite Hm, Hu. reflexivity.
  - rewrite E. cbn [fst]. unfold pollRound at 1. cbv zeta.
    cbn [images seenImageIds imagesLength mobileConnected]. rewrite Hm.
    destruct (List.filter _ (Session.images data)); [reflexivity|].
    rewrite Hf. reflexivity.
  - rewrite E. cbn [fst]. unfold pollRound at 1. cbv zeta.
    cbn [images seenImageIds imagesLength mobileConnected]. rewrite Hm.
    rewrite filter_none; [reflexivity|]. intros x Hx.
    apply negb_false_iff, bool_decide_eq_true. apply elem_of_union.
    destruct (decide (Session.id x ∈ seenImageIds held)) as [Hs|Hs]; [left; exact Hs|].
    right. apply elem_of_list_to_set. rewrite Hids. apply list_elem_of_In, in_map.
    apply filter_In. split; [exact Hx|].
    apply negb_true_iff, bool_decide_eq_false. exact Hs.
Qed.

Lemma convert_fresh baseIndex idx apiImg b :
  let c := convert baseIndex idx apiImg b in
  id c = Session.id apiImg /\ placeholder_form (product c) /\ expiryDate c = [] /\
  status c = Valid /\ name (file c) = str "mobile.jpg" /\
  file_bytes (blob (file c)) = file_bytes b.
Proof.
  cbv zeta. unfold convert. cbn [id product expiryDate status file name blob file_bytes].
  repeat split. apply placeholder_decNat.
Qed.

(** X23. When the references agree with the list and the identifiers are
    distinct in the list and in the session state read, a round of the
    timer keeps both: the new list is the old one followed by the batch,
    its identifiers are distinct, and the references agree with it.
    Every item of the batch has the identifier of an image of the session
    that was not in the list, a placeholder name, no date and the status
    Valid. *)
Theorem pollRound_invariant (data : Session.SessionState) (held : Held) :
  synced held -> NoDup (map id (images held)) ->
  NoDup (map Session.id (Session.images data)) ->
  synced (fst (pollRound data held)) /\
  NoDup (map id (images (fst (pollRound data held)))) /\
  images (fst (pollRound data held)) = images held ++ snd (pollRound data held) /\
  Forall (fun i => In (id i) (map Session.id (Session.images data)) /\
                   ~ In (id i) (map id (images held)) /\
                   placeholder_form (product i) /\ expiryDate i = [] /\
                   status i = Valid) (snd (pollRound data held)).
Proof.
  intros Hs Hnd Hdata.
  assert (Hseen : seenImageIds held = list_to_set (map id (images held))).
  { unfold synced, syncRefs in Hs. rewrite <- Hs at 1. reflexivity. }
  assert (Hlen : imagesLength held = length (images held)).
  { unfold synced, syncRefs in Hs. rewrite <- Hs at 1. reflexivity. }
  destruct (pollRound_cases data held)
    as [[Hu E]|[(Hu & Hf & E)|(fetched & converted & Hne & Hf & Hc & Hids & E)]].
  - rewrite E. cbn [fst snd images]. rewrite app_nil_r.
    split; [|split; [exact Hnd|split; [reflexivity|constructor]]].
    unfold synced, syncRefs. cbn [images seenImageIds imagesLength mobileConnected].
    rewrite <- Hseen, <- Hlen. reflexivity.
  - rewrite E. cbn [fst snd images]. rewrite app_nil_r.
    split; [|split; [exact Hnd|split; [reflexivity|constructor]]].
    unfold synced, syncRefs. cbn [images seenImageIds imagesLength mobileConnected].
    rewrite <- Hseen, <- Hlen. reflexivity.
  - rewrite E. cbn [fst snd images].
    assert (Hnew : forall x, In x (map id converted) ->
              In x (map Session.id (Session.images data)) /\
              ~ In x (map id (images held))).
    { intros x Hx. rewrite Hids in Hx. apply in_map_iff in Hx as (a & <- & Ha).
      apply filter_In in Ha as [Ha Hn]. split; [apply in_map, Ha|].
      apply negb_true_iff, bool_decide_eq_false in Hn. rewrite Hseen in Hn.
      intros Hc'. apply Hn, elem_of_list_to_set, list_elem_of_In, Hc'. }
    split; [|split; [|split; [reflexivity|]]].
    + unfold synced, syncRefs. cbn [images seenImageIds imagesLength mobileConnected].
      rewrite map_app, list_to_set_app_L, length_app, <- Hseen, <- Hlen. reflexivity.
    + rewrite map_app. apply NoDup_app. split; [exact Hnd|]. split.
      * intros x Hx Hx'. apply list_elem_of_In in Hx, Hx'.
        apply (proj2 (Hnew x Hx')), Hx.
      * rewrite Hids. apply NoDup_map_filter, Hdata.
    + apply Forall_forall. intros i Hi.
      assert (Hin : In (id i) (map id converted)).
      { apply in_map, list_elem_of_In, Hi. }
      destruct (Hnew _ Hin) as [H1 H2]. split; [exact H1|]. split; [exact H2|].
      rewrite Hc in Hi. apply list_elem_of_lookup in Hi as [k Hk].
      apply list_lookup_imap_Some in Hk as ([a b] & _ & ->).
      destruct (convert_fresh (imagesLength held) k a b) as (_ & Hp & He & Hv & _).
      repeat split; assumption.
Qed.

(** X24. An upload of the phone reaches the page as it was sent.  When
    the relay has stored a file posted as multipart and the page reads the
    session with a browser that reads data URLs, the round of the timer
    hands over one new item: it has the identifier the relay gave the
    image, and its file has the bytes of the upload and its declared type,
    [image/jpeg] when it declared none. *)
Theorem relayed_upload_intact `{NumberOps} (now : Z) (sid : jsstring)
  (req : Session.Request) (form : FormData) (upload : File)
  (sessions : Session.Sessions) (held : Held) :
  sid <> [] -> multipart req = true -> Session.formData req = Some form ->
  form_get (str "image") form = Some (FFile upload) ->
  (0 < file_size upload)%nat -> noUnit 59 (file_type upload) ->
  (forall u m b, readDataUrl u = Some (m, b) ->
     fetchBlob u = Some {| file_type := m; file_bytes := b |}) ->
  (forall img, In img (Session.images (current sid sessions)) ->
     Session.id img ∈ seenImageIds held) ->
  imageId now (length (Session.images (current sid sessions))) ∉ seenImageIds held ->
  exists data item,
    fst (Session.GET (Some sid) (snd (Session.POST now (Some sid) req sessions)))
      = Session.Json200 data /\
    snd (pollRound data held) = [item] /\
    id item = imageId now (length (Session.images (current sid sessions))) /\
    blob (file item) =
      {| file_type := match file_type upload with [] => str "image/jpeg" | t => t end;
         file_bytes := file_bytes upload |}.
Proof.
  intros Hsid Hmp Hform Himg Hsize Hsemi Hfetch Hseen Hnew.
  rewrite (POST_at now sid req sessions Hsid), Hmp. cbn [snd].
  set (st := current sid sessions) in *.
  set (mime := match file_type upload with [] => str "image/jpeg" | t => t end).
  assert (Hpost : Session.postMultipart now req st =
                   Session.pushImage now (Session.bufferToDataUrl (file_bytes upload) mime) st).
  { unfold Session.postMultipart. rewrite Hform, Himg.
    apply Nat.ltb_lt in Hsize. rewrite Hsize. reflexivity. }
  rewrite Hpost.
  set (url := Session.bufferToDataUrl (file_bytes upload) mime).
  assert (Hblob : fetchBlob url = Some {| file_type := mime; file_bytes := file_bytes upload |}).
  { apply Hfetch. unfold url. rewrite readDataUrl_written.
    - subst mime. destruct (file_type upload); reflexivity.
    - subst mime. destruct (file_type upload) eqn:Et; [|exact Hsemi].
      apply noUnit_by_test. reflexivity. }
  destruct sid as [|c sid]; [contradiction|].
  rewrite GET_ok, current_insert. cbn [fst].
  assert (Hunseen :
            List.filter
              (fun img => negb (bool_decide (Session.id img ∈ seenImageIds held)))
              (Session.images (Session.pushImage now url st))
            = [Session.newImage now st url]).
  { cbn [Session.pushImage Session.images]. rewrite List.filter_app.
    rewrite filter_none.
    2:{ intros x Hx. apply negb_false_iff, bool_decide_eq_true, Hseen, Hx. }
    cbn [List.filter app Session.newImage Session.id].
    fold (imageId now (length (Session.images st))).
    rewrite bool_decide_eq_false_2 by exact Hnew. reflexivity. }
  eexists. eexists. split; [reflexivity|].
  unfold pollRound. cbv zeta. rewrite Hunseen.
  cbn [fetchAll Session.newImage Session.dataUrl]. rewrite Hblob.
  cbn [snd imap]. split; [reflexivity|]. split; [reflexivity|].
  unfold convert. cbn [file blob file_type file_bytes].
  subst mime. destruct (file_type upload); reflexivity.
Qed.

End PollingFacts.

Lemma pollRound_invariant_witness :
  NoDup (map id (images (fst (@pollRound exampleBrowser oneUpload nothingHeld)))).
Proof.
  apply (@pollRound_invariant exampleBrowser oneUpload nothingHeld).
  - reflexivity.
  - constructor.
  - apply NoDup_singleton.
Defined.

Lemma relayed_upload_intact_witness :
  exists data item,
    fst (Session.GET (Some (str "s1"))
           (snd (@Session.POST literalNumbers 1700000000000 (Some (str "s1"))
                   pngUpload ∅))) = Session.Json200 data /\
    snd (@pollRound exampleBrowser data nothingHeld) = [item] /\
    id item = imageId 1700000000000 (length (Session.images (current (str "s1") ∅))) /\
    blob (file item) =
      {| file_type := str "image/png"; file_bytes := [Byte.x4d; Byte.x61; Byte.x6e] |}.
Proof.
  apply (@relayed_upload_intact exampleBrowser literalNumbers 1700000000000 (str "s1")
           pngUpload
           [(str "image", FFile {| file_type := str "image/png";
                                   file_bytes := [Byte.x4d; Byte.x61; Byte.x6e] |})]
           {| file_type := str "image/png"; file_bytes := [Byte.x4d; Byte.x61; Byte.x6e] |}
           ∅ nothingHeld).
  - discriminate.
  - reflexivity.
  - reflexivity.
  - reflexivity.
  - unfold file_size. simpl. lia.
  - apply noUnit_by_test. reflexivity.
  - intros u m b E. cbn [fetchBlob exampleBrowser]. rewrite E. reflexivity.
  - intros img [].
  - apply not_elem_of_empty.
Defined.

Section StatusThresholds.
Context `{DateHost}.
Local Open Scope Z_scope.

Lemma computeStatus_parsed now dateISO target :
  trim dateISO <> [] -> Date_parse dateISO = Some target ->
  computeStatus now dateISO =
    if target - now <=? - MS_PER_DAY then Expired
    else if target - now <=? 30 * MS_PER_DAY then ExpiringSoon
    else Valid.
Proof.
  intros Hne Hp. unfold computeStatus. rewrite Hp.
  destruct (trim dateISO); [contradiction|]. cbv zeta.
  pose proof (proj1 (PageFacts.ceilDiv_spec (target - now) MS_PER_DAY
                       (ceilDiv (target - now) MS_PER_DAY) eq_refl) eq_refl) as Hd.
  unfold MS_PER_DAY in *.
  destruct (Z.ltb_spec (ceilDiv (target - now) (1000 * 60 * 60 * 24)) 0);
    destruct (Z.leb_spec (ceilDiv (target - now) (1000 * 60 * 60 * 24)) 30);
    destruct (Z.leb_spec (target - now) (- (1000 * 60 * 60 * 24)));
    destruct (Z.leb_spec (target - now) (30 * (1000 * 60 * 60 * 24)));
    try reflexivity; lia.
Qed.

(** X25. In milliseconds: a date the host parses is Expired when it lies a
    whole day or more before now, Expiring Soon from less than a day
    before now up to thirty days after, and Valid further out.  So a date
    whose midnight passed less than a day ago is not yet Expired. *)
Theorem computeStatus_thresholds (now : Z) (dateISO : jsstring) (target : Z) :
  trim dateISO <> [] -> Date_parse dateISO = Some target ->
  (computeStatus now dateISO = Expired <-> target - now <= - MS_PER_DAY) /\
  (computeStatus now dateISO = ExpiringSoon <->
     - MS_PER_DAY < target - now <= 30 * MS_PER_DAY) /\
  (computeStatus now dateISO = Valid <-> 30 * MS_PER_DAY < target - now).
Proof.
  intros Hne Hp. rewrite (computeStatus_parsed now dateISO target Hne Hp).
  destruct (Z.leb_spec (target - now) (- MS_PER_DAY));
    destruct (Z.leb_spec (target - now) (30 * MS_PER_DAY));
    unfold MS_PER_DAY in *;
    (split; [|split]); split; intros Hc; try discriminate Hc; try reflexivity; lia.
Qed.

(** X26. As time passes a status only moves from Valid to Expiring Soon
    to Expired: a date that is Expired stays Expired, and a date that is
    Valid was Valid at every earlier time. *)
Theorem computeStatus_monotone (now now' : Z) (dateISO : jsstring) :
  now <= now' ->
  (computeStatus now dateISO = Expired -> computeStatus now' dateISO = Expired) /\
  (computeStatus now' dateISO = Valid -> computeStatus now dateISO = Valid).
Proof.
  intros Hle.
  destruct (trim dateISO) as [|c t] eqn:Et.
  { rewrite !PageFacts.computeStatus_blank by exact Et. split; [discriminate|reflexivity]. }
  destruct (Date_parse dateISO) as [target|] eqn:Ep.
  2:{ rewrite !PageFacts.computeStatus_unparsable by exact Ep.
      split; [discriminate|reflexivity]. }
  assert (Hne : trim dateISO <> []) by (rewrite Et; discriminate).
  rewrite !(computeStatus_parsed _ dateISO target Hne Ep).
  destruct (Z.leb_spec (target - now) (- MS_PER_DAY));
    destruct (Z.leb_spec (target - now) (30 * MS_PER_DAY));
    destruct (Z.leb_spec (target - now') (- MS_PER_DAY));
    destruct (Z.leb_spec (target - now') (30 * MS_PER_DAY));
    unfold MS_PER_DAY in *;
    split; intros Hc; try discriminate Hc; try reflexivity; lia.
Qed.

End StatusThresholds.

Lemma computeStatus_thresholds_witness :
  @computeStatus PageSpec.isoHost (PageSpec.newYear2025 + 3600000) (str "2025-01-01")
    = ExpiringSoon.
Proof.
  destruct (@computeStatus_thresholds PageSpec.isoHost (PageSpec.newYear2025 + 3600000)
              (str "2025-01-01") PageSpec.newYear2025) as (_ & H & _).
  - vm_compute. discriminate.
  - vm_compute. reflexivity.
  - apply H. vm_compute. split; [reflexivity|discriminate].
Defined.

Lemma computeStatus_monotone_witness :
  @computeStatus PageSpec.isoHost (PageSpec.newYear2025 + 1) (str "2024-12-31") = Expired.
Proof.
  destruct (@computeStatus_monotone PageSpec.isoHost PageSpec.newYear2025
              (PageSpec.newYear2025 + 1) (str "2024-12-31")) as [H _].
  - lia.
  - apply H. vm_compute. reflexivity.
Defined.

Lemma startsWith_prefix p s : startsWith p s = true <-> exists rest, s = p ++ rest.
Proof.
  revert s. induction p as [|x p IH]; intros s.
  - split; [intros _; exists s; reflexivity|reflexivity].
  - destruct s as [|y s]; cbn [startsWith].
    + split; [discriminate|]. intros [rest E]. discriminate E.
    + rewrite andb_true_iff, N.eqb_eq, IH. split.
      * intros [-> [rest ->]]. exists rest. reflexivity.
      * intros [rest E]. injection E as -> ->. split; [reflexivity|]. exists rest. reflexivity.
Qed.

Lemma includes_substring t s : includes t s = true <-> substring t s.
Proof.
  unfold substring. induction s as [|y s IH]; cbn [includes].
  - rewrite orb_false_r, startsWith_prefix. split.
    + intros [rest E]. exists [], rest. exact E.
    + intros (pre & post & E). destruct pre; [exists post; exact E|discriminate E].
  - rewrite orb_true_iff, startsWith_prefix, IH. split.
    + intros [[rest E]|(pre & post & E)].
      * exists [], rest. exact E.
      * exists (y :: pre), post. rewrite E. reflexivity.
    + intros (pre & post & E). destruct pre as [|z pre].
      * left. exists post. exact E.
      * right. injection E as -> ->. exists pre, post. reflexivity.
Qed.

(** X27. The list shown under a search is a part of the images in their
    order.  A search that is blank once trimmed and lowered shows them
    all; any other shows exactly the images in whose lowered product, or
    in whose date as it stands, the trimmed and lowered search occurs. *)
Theorem filtered_spec `{CaseHost} (images : list UploadedImage) (search : jsstring) :
  sublist (filtered images search) images /\
  (toLowerCase (trim search) = [] -> filtered images search = images) /\
  (toLowerCase (trim search) <> [] ->
   forall img, In img (filtered images search) <->
     In img images /\
     (substring (toLowerCase (trim search)) (toLowerCase (product img)) \/
      substring (toLowerCase (trim search)) (expiryDate img))).
Proof.
  unfold filtered. cbv zeta. split; [|split].
  - destruct (toLowerCase (trim search)) as [|c t]; [reflexivity|].
    generalize (fun img : UploadedImage =>
                  includes (c :: t) (toLowerCase (product img))
                  || includes (c :: t) (expiryDate img)).
    intros p. induction images as [|i images IH]; [constructor|]. cbn [List.filter].
    destruct (p i); [apply sublist_skip|apply sublist_cons]; exact IH.
  - intros ->. reflexivity.
  - intros Hne img. destruct (toLowerCase (trim search)) as [|c t]; [contradiction|].
    rewrite filter_In, orb_true_iff, !includes_substring. reflexivity.
Qed.

Lemma filtered_spec_witness :
  @filtered ExtractionSpec.asciiLower
     [item (str "1-0") (str "Milk") (str "2030-01-01") Valid;
      item (str "1-1") (str "Rice") [] Valid] (str "   ")
  = [item (str "1-0") (str "Milk") (str "2030-01-01") Valid;
     item (str "1-1") (str "Rice") [] Valid].
Proof.
  apply (@filtered_spec ExtractionSpec.asciiLower). reflexivity.
Defined.

(** X28. The requests of the page do to the session what they are for
    and nothing else: the one sent when polling starts or stops sets
    [webConnected], the one of [openCameraOnPhone] sets the command to
    [open_camera]; the images and every other field are as they were. *)
Theorem page_requests_effect `{NumberOps} (now : Z) (sid : jsstring)
  (sessions : Session.Sessions) (b : bool) :
  sid <> [] ->
  Session.POST now (Some sid) (webConnectedRequest b) sessions =
    (Session.Json200 (Session.setWebConnected b (current sid sessions)),
     <[sid := Session.setWebConnected b (current sid sessions)]> sessions) /\
  Session.POST now (Some sid) openCameraRequest sessions =
    (Session.Json200 (Session.setCommand (Some (str "open_camera")) (current sid sessions)),
     <[sid := Session.setCommand (Some (str "open_camera")) (current sid sessions)]>
       sessions).
Proof.
  intros Hsid. rewrite !(POST_at now sid _ sessions Hsid).
  assert (Hm : forall body, multipart (jsonPost body) = false) by reflexivity.
  unfold webConnectedRequest, openCameraRequest. rewrite !Hm.
  assert (Hw : JSON_parse (Session.bodyText
                 (jsonPost (stringifyOne (str "webConnected")
                              (if b then str "true" else str "false"))))
               = Some (JObject [(str "webConnected", JBool b)])).
  { destruct b; vm_compute; reflexivity. }
  assert (Hc : JSON_parse (Session.bodyText
                 (jsonPost (stringifyOne (str "command") (quote (str "open_camera")))))
               = Some (JObject [(str "command", JString (str "open_camera"))])).
  { vm_compute. reflexivity. }
  rewrite (postJson_fields _ _ _ _ Hw), (postJson_fields _ _ _ _ Hc).
  split; reflexivity.
Qed.

Lemma page_requests_effect_witness :
  fst (@Session.POST literalNumbers 5 (Some (str "s1")) openCameraRequest twoUploads) =
    Session.Json200
      (Session.setCommand (Some (str "open_camera")) (current (str "s1") twoUploads)).
Proof.
  destruct (@page_requests_effect literalNumbers 5 (str "s1") twoUploads true) as [_ E].
  - discriminate.
  - rewrite E. reflexivity.
Defined.

End UiFacts.
